(** * OBS Lite sensor readers: wire-format decoding

    A shallow embedding of the two Python tools of the repository,
    [tools/read_ble.py] (BLE notifications) and [tools/read_esp.py]
    (USB serial, COBS framed), and the properties of their decoders.

    Python's [int] is unbounded, so integers are [Z]; [bytes] are lists of
    [Byte.byte]; a [while] loop is its body, a function from the loop state
    to the next state or to the value the function returns, run by
    [while_loop] under a fuel bound on the number of iterations. *)

From Stdlib Require Import ZArith List String Ascii Bool Lia.
From Stdlib Require Import Strings.Byte.
From Stdlib Require Import Floats.SpecFloat.
From Stdlib Require Import QArith.
Import ListNotations.
Local Open Scope Z_scope.

(** ** Python values *)

Definition bytes : Type := list byte.

(** [len(data)] *)
Definition len {A : Type} (data : list A) : Z := Z.of_nat (List.length data).

(** The integer value of a byte, as [data[i]] yields it. *)
Definition byte_val (b : byte) : Z := Z.of_N (Byte.to_N b).

(** The byte of an integer in [0, 255] ([bytes([n])]). *)
Definition byte_of_Z (n : Z) : byte :=
  match Byte.of_N (Z.to_N n) with
  | Some b => b
  | None => x00
  end.

(** [data[pos]] for [0 <= pos < len(data)]; every use below is guarded by
    [pos < len(data)] and positions start at 0 and only grow. *)
Definition byte_at (data : bytes) (pos : Z) : Z :=
  byte_val (nth (Z.to_nat pos) data x00).

(** [data[a:b]] for [0 <= a]: both ends are clamped to the length. *)
Definition slice (data : bytes) (a b : Z) : bytes :=
  firstn (Z.to_nat (Z.min b (len data) - a)) (skipn (Z.to_nat a) data).

(** [bytes.hex()]: two lower-case hexadecimal digits per byte. *)
Definition hex_digit (n : Z) : ascii :=
  if n <? 10 then ascii_of_N (Z.to_N (48 + n)) else ascii_of_N (Z.to_N (87 + n)).

Fixpoint hex (data : bytes) : string :=
  match data with
  | [] => EmptyString
  | b :: rest =>
      String (hex_digit (Z.shiftr (byte_val b) 4))
        (String (hex_digit (Z.land (byte_val b) 15)) (hex rest))
  end.

(** [str(n)] for the integer inside [f"field_{field_num}"]. *)
Fixpoint decimal_digits (fuel : nat) (n : Z) (acc : string) : string :=
  match fuel with
  | O => acc
  | S fuel' =>
      let acc' := String (ascii_of_N (Z.to_N (48 + n mod 10))) acc in
      if n <? 10 then acc' else decimal_digits fuel' (n / 10) acc'
  end.

Definition str_of_int (n : Z) : string :=
  if n <? 0 then String "-"%char (decimal_digits (S (Z.to_nat (Z.log2 (- n)))) (- n) EmptyString)
  else decimal_digits (S (Z.to_nat (Z.log2 n))) n EmptyString.

(** A Python [float]. [struct.unpack('<f', b)] reads four bytes as a
    little-endian IEEE-754 binary32 number; every binary32 number is a
    [float] exactly, so the result is kept as sign, mantissa and exponent. *)
Definition py_float := spec_float.

Definition float_zero : py_float := S754_zero false.

Definition unpack_f32_le (b : bytes) : py_float :=
  let bits := byte_at b 0 + Z.shiftl (byte_at b 1) 8
              + Z.shiftl (byte_at b 2) 16 + Z.shiftl (byte_at b 3) 24 in
  let sign := Z.testbit bits 31 in
  let e := Z.land (Z.shiftr bits 23) 255 in
  let m := Z.land bits 8388607 in
  if e =? 0 then
    if m =? 0 then S754_zero sign else S754_finite sign (Z.to_pos m) (-149)
  else if e =? 255 then
    if m =? 0 then S754_infinity sign else S754_nan
  else S754_finite sign (Z.to_pos (m + 8388608)) (e - 150).

(** [x == 0.0] on floats: true for both zeros, false for a NaN. *)
Definition float_is_zero (x : py_float) : bool := SFeqb x float_zero.

(** The rational a finite float stands for. *)
Definition float_to_Q (x : py_float) : option Q :=
  match x with
  | S754_zero _ => Some 0%Q
  | S754_finite s m e =>
      Some ((if s then -1 else 1) * inject_Z (Z.pos m) * Qpower 2 e)%Q
  | _ => None
  end.

(** ** Loops *)

(** One pass through the body of a [while] loop: go round again with a new
    state, or leave the function with its value (the loop condition failed,
    a [break] followed by the final [return], or a [return] inside). *)
Inductive flow (S R : Type) : Type :=
| Next (s : S)
| Done (r : R).
Arguments Next {S R} s.
Arguments Done {S R} r.

(** [fuel] bounds the number of passes; [None] is a loop cut short by the
    bound, not a value of the program. *)
Fixpoint while_loop {S R : Type} (body : S -> option (flow S R))
    (fuel : nat) (s : S) : option R :=
  match fuel with
  | O => None
  | Datatypes.S fuel' =>
      match body s with
      | None => None
      | Some (Done r) => Some r
      | Some (Next s') => while_loop body fuel' s'
      end
  end.

Notation "' p <- e ;; k" :=
  (match e with Some p => k | None => None end)
  (at level 60, p pattern, e at next level, right associativity).

(** ** Code shared by read_ble.py and read_esp.py

    [decode_varint] and [parse_distance_measurement] are the same text in
    both files (read_ble.py 14-54, read_esp.py 31-73). *)

(** State of [decode_varint]'s loop: [(result, shift, pos)]. *)
Definition decode_varint_body (data : bytes) (st : Z * Z * Z)
  : option (flow (Z * Z * Z) (Z * Z)) :=
  let '(result, shift, pos) := st in
  if pos <? len data then
    let b := byte_at data pos in
    let result := Z.lor result (Z.shiftl (Z.land b 0x7F) shift) in
    let pos := pos + 1 in
    if Z.land b 0x80 =? 0 then Some (Done (result, pos))
    else Some (Next (result, shift + 7, pos))
  else Some (Done (result, pos)).

Definition decode_varint (data : bytes) (pos : Z) : option (Z * Z) :=
  while_loop (decode_varint_body data) (S (List.length data)) (0, 0, pos).

(** State of [parse_distance_measurement]'s loop. *)
Record dm_state : Type := mk_dm {
  dm_source_id : Z;
  dm_distance : py_float;
  dm_has_distance : bool;
  dm_pos : Z
}.

Definition dm_return (st : dm_state) : Z * py_float * bool :=
  (dm_source_id st, dm_distance st, dm_has_distance st).

Definition parse_distance_measurement_body (data : bytes) (st : dm_state)
  : option (flow dm_state (Z * py_float * bool)) :=
  let source_id := dm_source_id st in
  let distance := dm_distance st in
  let has_distance := dm_has_distance st in
  if dm_pos st <? len data then
    '(tag, pos) <- decode_varint data (dm_pos st) ;;
    let field_num := Z.shiftr tag 3 in
    let wire_type := Z.land tag 0x07 in
    if (field_num =? 1) && (wire_type =? 0) then
      '(source_id, pos) <- decode_varint data pos ;;
      Some (Next (mk_dm source_id distance has_distance pos))
    else if (field_num =? 2) && (wire_type =? 5) then
      if pos + 4 <=? len data then
        Some (Next (mk_dm source_id (unpack_f32_le (slice data pos (pos + 4)))
                      true (pos + 4)))
      else Some (Next (mk_dm source_id distance has_distance pos))
    else if wire_type =? 0 then
      '(_, pos) <- decode_varint data pos ;;
      Some (Next (mk_dm source_id distance has_distance pos))
    else if wire_type =? 1 then
      Some (Next (mk_dm source_id distance has_distance (pos + 8)))
    else if wire_type =? 2 then
      '(length, pos) <- decode_varint data pos ;;
      Some (Next (mk_dm source_id distance has_distance (pos + length)))
    else if wire_type =? 5 then
      Some (Next (mk_dm source_id distance has_distance (pos + 4)))
    else Some (Done (dm_return st))
  else Some (Done (dm_return st)).

Definition parse_distance_measurement (data : bytes)
  : option (Z * py_float * bool) :=
  while_loop (parse_distance_measurement_body data) (S (List.length data))
    (mk_dm 0 float_zero false 0).

(** [event_type == name] for an [event_type] that is [None] or a string. *)
Definition is_type (event_type : option string) (name : string) : bool :=
  match event_type with
  | Some s => String.eqb s name
  | None => false
  end.

(** ** read_ble.py *)

Module Ble.

(** The dictionaries [parse_event] returns as [details]. *)
Inductive details : Type :=
| TruncatedDetails (field expected available : Z) (raw_hex : string)
| DistanceDetails (source_id : Z) (distance : py_float) (has_distance : bool)
    (raw_hex : string) (dm_bytes : Z)
| TextDetails (raw : bytes).

(** State of [parse_event]'s loop: [(pos, event_type, details)]. *)
Definition event_state : Type := Z * option string * option details.
Definition event_result : Type := option string * option details.

Definition parse_event_body (data : bytes) (st : event_state)
  : option (flow event_state event_result) :=
  let '(pos, event_type, details) := st in
  if pos <? len data then
    if pos >=? len data then Some (Done (event_type, details))
    else
    '(tag, pos) <- decode_varint data pos ;;
    let field_num := Z.shiftr tag 3 in
    let wire_type := Z.land tag 0x07 in
    if wire_type =? 2 then
      '(length, pos) <- decode_varint data pos ;;
      if pos + length >? len data then
        Some (Done (Some "TRUNCATED"%string,
                    Some (TruncatedDetails field_num length (len data - pos)
                            (hex data))))
      else
        let field_data := slice data pos (pos + length) in
        let pos := pos + length in
        if field_num =? 10 then
          '(sid, dist, has_dist) <- parse_distance_measurement field_data ;;
          Some (Next (pos, Some "distance"%string,
                      Some (DistanceDetails sid dist has_dist (hex field_data)
                              (len field_data))))
        else if field_num =? 12 then
          Some (Next (pos, Some "geolocation"%string, details))
        else if field_num =? 13 then
          Some (Next (pos, Some "userInput"%string, details))
        else if field_num =? 14 then
          Some (Next (pos, Some "textMessage"%string,
                      Some (TextDetails field_data)))
        else if field_num =? 6 then
          Some (Next (pos, event_type, details))
        else
          match event_type with
          | None =>
              Some (Next (pos, Some ("field_" ++ str_of_int field_num)%string,
                          details))
          | Some _ => Some (Next (pos, event_type, details))
          end
    else if wire_type =? 0 then
      '(_, pos) <- decode_varint data pos ;;
      Some (Next (pos, event_type, details))
    else if wire_type =? 1 then
      Some (Next (pos + 8, event_type, details))
    else if wire_type =? 5 then
      Some (Next (pos + 4, event_type, details))
    else Some (Done (event_type, details))
  else Some (Done (event_type, details)).

Definition parse_event (data : bytes) : option event_result :=
  while_loop (parse_event_body data) (S (List.length data)) (0, None, None).

(** The module-level counters ([start_time] is wall-clock time and only
    feeds the printed prefix; it is left out). *)
Record stats : Type := mk_stats {
  count : Z;
  dist_zero_no_field : Z;
  dist_zero_explicit : Z;
  dist_ok : Z;
  truncated : Z;
  sid1_zero : Z;
  sid1_ok : Z;
  sid2_zero : Z;
  sid2_ok : Z
}.

Definition stats_init : stats := mk_stats 0 0 0 0 0 0 0 0 0.

(** What [handle_notification] prints, by line, with the values the line
    is formatted from (the elapsed time apart). *)
Inductive line : Type :=
| PrintTruncated (count field expected got : Z) (raw : string)
| PrintNoDistanceField (count sid dm_bytes : Z) (raw full : string)
| PrintExplicitZero (count sid : Z) (raw full : string)
| PrintOk (count sid : Z) (distance : py_float)
| PrintButton (count : Z)
| PrintText (count : Z) (details : option details)
| PrintOther (count : Z) (event_type : option string) (nbytes : Z)
    (raw : string).

(** [handle_notification(sender, data)]: the counters after the call and
    the lines printed. [None] stands for a call that does not return: the
    fuel of [parse_event] ran out, or a key is missing from [details]. *)
Definition handle_notification (st : stats) (data : bytes)
  : option (stats * list line) :=
  let count := count st + 1 in
  '(event_type, details) <- parse_event data ;;
  if is_type event_type "TRUNCATED" then
    match details with
    | Some (TruncatedDetails field expected available raw_hex) =>
        Some (mk_stats count (dist_zero_no_field st) (dist_zero_explicit st)
                (dist_ok st) (truncated st + 1) (sid1_zero st) (sid1_ok st)
                (sid2_zero st) (sid2_ok st),
              [PrintTruncated count field expected available raw_hex])
    | _ => None
    end
  else if is_type event_type "distance" then
    match details with
    | Some (DistanceDetails sid distance has_distance raw_hex dm_bytes) =>
        if float_is_zero distance && negb has_distance then
          Some (mk_stats count (dist_zero_no_field st + 1)
                  (dist_zero_explicit st) (dist_ok st) (truncated st)
                  (if sid =? 1 then sid1_zero st + 1 else sid1_zero st)
                  (sid1_ok st)
                  (if sid =? 1 then sid2_zero st else sid2_zero st + 1)
                  (sid2_ok st),
                [PrintNoDistanceField count sid dm_bytes raw_hex (hex data)])
        else if float_is_zero distance then
          Some (mk_stats count (dist_zero_no_field st)
                  (dist_zero_explicit st + 1) (dist_ok st) (truncated st)
                  (if sid =? 1 then sid1_zero st + 1 else sid1_zero st)
                  (sid1_ok st)
                  (if sid =? 1 then sid2_zero st else sid2_zero st + 1)
                  (sid2_ok st),
                [PrintExplicitZero count sid raw_hex (hex data)])
        else
          let dist_ok := dist_ok st + 1 in
          Some (mk_stats count (dist_zero_no_field st) (dist_zero_explicit st)
                  dist_ok (truncated st) (sid1_zero st)
                  (if sid =? 1 then sid1_ok st + 1 else sid1_ok st)
                  (sid2_zero st)
                  (if sid =? 1 then sid2_ok st else sid2_ok st + 1),
                if dist_ok mod 50 =? 1 then [PrintOk count sid distance]
                else [])
    | _ => None
    end
  else
    let st' := mk_stats count (dist_zero_no_field st) (dist_zero_explicit st)
                 (dist_ok st) (truncated st) (sid1_zero st) (sid1_ok st)
                 (sid2_zero st) (sid2_ok st) in
    if is_type event_type "geolocation" then Some (st', [])
    else if is_type event_type "userInput" then Some (st', [PrintButton count])
    else if is_type event_type "textMessage" then
      Some (st', [PrintText count details])
    else Some (st', [PrintOther count event_type (len data) (hex data)]).

End Ble.

(** ** read_esp.py *)

Module Esp.

(** The last step of [cobs_decode]: [if output and output[-1] == 0:
    output = output[:-1]]. *)
Definition strip_last_zero (output : bytes) : bytes :=
  match rev output with
  | b :: _ => if byte_val b =? 0 then removelast output else output
  | [] => output
  end.

(** The inner [for j in range(1, code)] with [n] passes left; [None] is
    its [return None]. *)
Fixpoint cobs_copy (n : nat) (data : bytes) (i : Z) (output : bytes)
  : option (Z * bytes) :=
  match n with
  | O => Some (i, output)
  | S n' =>
      if i >=? len data then None
      else cobs_copy n' data (i + 1) (output ++ [nth (Z.to_nat i) data x00])
  end.

(** State of [cobs_decode]'s loop: [(i, output)]. The function returns
    Python's [None] or the decoded bytes. *)
Definition cobs_decode_body (data : bytes) (st : Z * bytes)
  : option (flow (Z * bytes) (option bytes)) :=
  let '(i, output) := st in
  if i <? len data then
    let code := byte_at data i in
    if code =? 0 then Some (Done (Some (strip_last_zero output)))
    else
      let i := i + 1 in
      match cobs_copy (Z.to_nat (code - 1)) data i output with
      | None => Some (Done None)
      | Some (i, output) =>
          if (code <? 0xFF) && (i <? len data) then
            Some (Next (i, output ++ [x00]))
          else Some (Next (i, output))
      end
  else Some (Done (Some (strip_last_zero output))).

Definition cobs_decode (data : bytes) : option (option bytes) :=
  while_loop (cobs_decode_body data) (S (List.length data)) (0, []).

Inductive details : Type :=
| DistanceDetails (source_id : Z) (distance : py_float) (has_distance : bool)
    (raw_hex : string)
| TextDetails (raw : bytes).

Definition event_state : Type := Z * option string * option details.
Definition event_result : Type := option string * option details.

Definition parse_event_body (data : bytes) (st : event_state)
  : option (flow event_state event_result) :=
  let '(pos, event_type, details) := st in
  if pos <? len data then
    '(tag, pos) <- decode_varint data pos ;;
    let field_num := Z.shiftr tag 3 in
    let wire_type := Z.land tag 0x07 in
    if wire_type =? 2 then
      '(length, pos) <- decode_varint data pos ;;
      let field_data := slice data pos (pos + length) in
      let pos := pos + length in
      if field_num =? 10 then
        '(sid, dist, has_dist) <- parse_distance_measurement field_data ;;
        Some (Next (pos, Some "distance"%string,
                    Some (DistanceDetails sid dist has_dist (hex field_data))))
      else if field_num =? 12 then
        Some (Next (pos, Some "geolocation"%string, details))
      else if field_num =? 13 then
        Some (Next (pos, Some "userInput"%string, details))
      else if field_num =? 14 then
        Some (Next (pos, Some "textMessage"%string,
                    Some (TextDetails field_data)))
      else if field_num =? 6 then
        Some (Next (pos, event_type, details))
      else
        match event_type with
        | None =>
            Some (Next (pos, Some ("field_" ++ str_of_int field_num)%string,
                        details))
        | Some _ => Some (Next (pos, event_type, details))
        end
    else if wire_type =? 0 then
      '(_, pos) <- decode_varint data pos ;;
      Some (Next (pos, event_type, details))
    else if wire_type =? 1 then
      Some (Next (pos + 8, event_type, details))
    else if wire_type =? 5 then
      Some (Next (pos + 4, event_type, details))
    else Some (Done (event_type, details))
  else Some (Done (event_type, details)).

Definition parse_event (data : bytes) : option event_result :=
  while_loop (parse_event_body data) (S (List.length data)) (0, None, None).

(** What [main] prints for a frame, by line, with the values the line is
    formatted from (the elapsed time apart). *)
Inductive line : Type :=
| PrintCobsError (frame_len : Z)
| PrintDist (count sid : Z) (distance : py_float) (has_field : bool)
    (raw marker : string)
| PrintGeo (count : Z)
| PrintButton (count : Z)
| PrintText (count : Z) (details : option details)
| PrintOther (count : Z) (event_type : option string) (nbytes : Z).

(** The part of [main]'s state the frame loop works on: the accumulating
    buffer, the counters and the lines printed so far. *)
Record reader : Type := mk_reader {
  buf : bytes;
  count : Z;
  dist_zero : Z;
  dist_ok : Z;
  printed : list line
}.

Definition reader_init : reader := mk_reader [] 0 0 0 [].

(** [b'\x00' in buf] *)
Definition has_zero (buf : bytes) : bool :=
  existsb (fun b => byte_val b =? 0) buf.

(** [buf.index(b'\x00')], called only when [b'\x00' in buf]. *)
Fixpoint index_zero (buf : bytes) : Z :=
  match buf with
  | [] => 0
  | b :: rest => if byte_val b =? 0 then 0 else 1 + index_zero rest
  end.

(** The body of [while b'\x00' in buf:] (lines 133-169). The loop has no
    value of its own: it ends with the state the outer loop goes on with.
    [None] stands for a pass that does not finish: the fuel of a decoder
    ran out, or a key is missing from [details]. *)
Definition frame_loop_body (st : reader) : option (flow reader reader) :=
  if has_zero (buf st) then
    let idx := index_zero (buf st) in
    let frame := slice (buf st) 0 idx in
    let buf := skipn (Z.to_nat (idx + 1)) (buf st) in
    match frame with
    | [] => Some (Next (mk_reader buf (count st) (dist_zero st) (dist_ok st)
                          (printed st)))
    | _ :: _ =>
        'decoded <- cobs_decode frame ;;
        match decoded with
        | None =>
            Some (Next (mk_reader buf (count st) (dist_zero st) (dist_ok st)
                          (printed st ++ [PrintCobsError (len frame)])))
        | Some decoded =>
            '(event_type, details) <- parse_event decoded ;;
            let count := count st + 1 in
            if is_type event_type "distance" then
              match details with
              | Some (DistanceDetails sid distance has_distance raw_hex) =>
                  if float_is_zero distance && negb has_distance then
                    Some (Next (mk_reader buf count (dist_zero st + 1)
                                  (dist_ok st)
                                  (printed st ++
                                   [PrintDist count sid distance has_distance
                                      raw_hex
                                      " *** ZERO (no distance field) ***"])))
                  else if float_is_zero distance then
                    Some (Next (mk_reader buf count (dist_zero st + 1)
                                  (dist_ok st)
                                  (printed st ++
                                   [PrintDist count sid distance has_distance
                                      raw_hex
                                      " *** ZERO (explicit 0.0) ***"])))
                  else
                    Some (Next (mk_reader buf count (dist_zero st)
                                  (dist_ok st + 1)
                                  (printed st ++
                                   [PrintDist count sid distance has_distance
                                      raw_hex EmptyString])))
              | _ => None
              end
            else
              let say (l : line) :=
                Some (Next (mk_reader buf count (dist_zero st) (dist_ok st)
                              (printed st ++ [l]))) in
              if is_type event_type "geolocation" then say (PrintGeo count)
              else if is_type event_type "userInput" then
                say (PrintButton count)
              else if is_type event_type "textMessage" then
                say (PrintText count details)
              else say (PrintOther count event_type (len decoded))
        end
    end
  else Some (Done st).

(** One pass of [while True:] for the chunk [ser.read(256)] returned: an
    empty chunk changes nothing, any other is appended to the buffer and
    the frame loop runs. *)
Definition read_chunk (st : reader) (chunk : bytes) : option reader :=
  match chunk with
  | [] => Some st
  | _ :: _ =>
      let st := mk_reader (buf st ++ chunk) (count st) (dist_zero st)
                  (dist_ok st) (printed st) in
      while_loop frame_loop_body (S (List.length (buf st))) st
  end.

(** [main] over the chunks the serial port delivers, in order. *)
Fixpoint read_chunks (st : reader) (chunks : list bytes) : option reader :=
  match chunks with
  | [] => Some st
  | chunk :: rest =>
      'st <- read_chunk st chunk ;;
      read_chunks st rest
  end.

End Esp.

(** ** The wire format, writer side

    The tools only read. The encodings their decoders are checked against
    are written here from the format's definition. *)

(** Modelled from the spec: the base-128 varint of [v], seven bits per
    byte from the least significant group, the high bit set on every byte
    but the last (the writer half of the VarintCodec, not in the tools). *)
Fixpoint encode_varint_groups (fuel : nat) (v : Z) : bytes :=
  match fuel with
  | O => []
  | S fuel' =>
      if v <? 128 then [byte_of_Z v]
      else byte_of_Z (Z.lor (Z.land v 0x7F) 0x80)
             :: encode_varint_groups fuel' (Z.shiftr v 7)
  end.

Definition encode_varint (v : Z) : bytes :=
  encode_varint_groups (S (Z.to_nat (Z.log2 v))) v.

(** A field's tag: [(field_number << 3) | wire_type] as a varint. *)
Definition encode_tag (field_num wire_type : Z) : bytes :=
  encode_varint (Z.lor (Z.shiftl field_num 3) wire_type).

(** A length-delimited field: tag, length, payload. *)
Definition encode_len_field (field_num : Z) (payload : bytes) : bytes :=
  encode_tag field_num 2 ++ encode_varint (len payload) ++ payload.

(** Modelled from the spec: COBS with delimiter 0x00 and maximum code
    0xFF (the encoder runs on the sensor, not in the tools). [run] holds
    the non-zero bytes of the block being built, fewer than 254. A block
    ends at a zero of the payload, at the end of the payload, or when it
    holds 254 bytes; after a full block that ends the payload one more
    code byte 0x01 is written when [pad] is set (both conventions are in
    use, and a decoder has to accept both). *)
Fixpoint cobs_encode_from (pad : bool) (run payload : bytes) : bytes :=
  match payload with
  | [] => byte_of_Z (1 + len run) :: run
  | b :: rest =>
      if byte_val b =? 0 then
        byte_of_Z (1 + len run) :: run ++ cobs_encode_from pad [] rest
      else
        let run' := run ++ [b] in
        if len run' =? 254 then
          xff :: run' ++
            match rest with
            | [] => if pad then cobs_encode_from pad [] rest else []
            | _ :: _ => cobs_encode_from pad [] rest
            end
        else cobs_encode_from pad run' rest
  end.

Definition cobs_encode (pad : bool) (payload : bytes) : bytes :=
  cobs_encode_from pad [] payload.

(** ** The fields a decoder reads *)

(** The states in which a loop's body is entered, in order. *)
Fixpoint loop_states {S R : Type} (body : S -> option (flow S R))
    (fuel : nat) (s : S) : list S :=
  match fuel with
  | O => []
  | Datatypes.S fuel' =>
      s :: match body s with
           | Some (Next s') => loop_states body fuel' s'
           | _ => []
           end
  end.

(** The tag a pass that starts at [pos] reads, as (field number, wire
    type); none when the loop condition fails. *)
Definition tag_at (data : bytes) (pos : Z) : list (Z * Z) :=
  if pos <? len data then
    match decode_varint data pos with
    | Some (tag, _) => [(Z.shiftr tag 3, Z.land tag 0x07)]
    | None => []
    end
  else [].

(** The tags [parse_distance_measurement] reads in [data]. *)
Definition dm_fields_read (data : bytes) : list (Z * Z) :=
  flat_map (fun st => tag_at data (dm_pos st))
    (loop_states (parse_distance_measurement_body data)
       (S (List.length data)) (mk_dm 0 float_zero false 0)).

(** The tags the two [parse_event]s read in [data]. *)
Definition ble_fields_read (data : bytes) : list (Z * Z) :=
  flat_map (fun st : Ble.event_state => tag_at data (fst (fst st)))
    (loop_states (Ble.parse_event_body data) (S (List.length data))
       (0, None, None)).

Definition esp_fields_read (data : bytes) : list (Z * Z) :=
  flat_map (fun st : Esp.event_state => tag_at data (fst (fst st)))
    (loop_states (Esp.parse_event_body data) (S (List.length data))
       (0, None, None)).

(** The field numbers with an event variant of their own. *)
Definition recognized (field_num : Z) : bool :=
  (field_num =? 10) || (field_num =? 12) || (field_num =? 13)
  || (field_num =? 14).

Definition event_name (field_num : Z) : string :=
  if field_num =? 10 then "distance"
  else if field_num =? 12 then "geolocation"
  else if field_num =? 13 then "userInput"
  else "textMessage".

(** The recognized length-delimited fields among the tags read. *)
Definition recognized_fields (tags : list (Z * Z)) : list Z :=
  map fst (filter (fun t => (snd t =? 2) && recognized (fst t)) tags).

(** ** The classification rule of the spec *)

Inductive classification : Type := OK | ZERO_NO_FIELD | ZERO_EXPLICIT.

(** As section 4.6 words it. *)
Definition classification_rule (distance : py_float) (distance_present : bool)
  : classification :=
  if float_is_zero distance && negb distance_present then ZERO_NO_FIELD
  else if float_is_zero distance && distance_present then ZERO_EXPLICIT
  else OK.

(** The three classification counters of [read_ble.py] after one more
    record of class [c]. *)
Definition count_class (c : classification) (st : Ble.stats) : Z * Z * Z :=
  match c with
  | ZERO_NO_FIELD =>
      (Ble.dist_zero_no_field st + 1, Ble.dist_zero_explicit st, Ble.dist_ok st)
  | ZERO_EXPLICIT =>
      (Ble.dist_zero_no_field st, Ble.dist_zero_explicit st + 1, Ble.dist_ok st)
  | OK =>
      (Ble.dist_zero_no_field st, Ble.dist_zero_explicit st, Ble.dist_ok st + 1)
  end.

(** ** [decode_varint] as a function of the bytes from [pos] on *)

Fixpoint varint_run (rest : bytes) (result shift pos : Z) : Z * Z :=
  match rest with
  | [] => (result, pos)
  | b :: rest' =>
      let result := Z.lor result (Z.shiftl (Z.land (byte_val b) 0x7F) shift) in
      if Z.land (byte_val b) 0x80 =? 0 then (result, pos + 1)
      else varint_run rest' result (shift + 7) (pos + 1)
  end.

(** ** The event type from one pass to the next *)

(** The event type after a pass of [parse_event]'s loop that read the tag
    [t] and went round again (lines 73-88 of read_ble.py, 88-104 of
    read_esp.py, by field number and wire type). *)
Definition next_event_type (event_type : option string) (t : Z * Z)
  : option string :=
  if snd t =? 2 then
    if recognized (fst t) then Some (event_name (fst t))
    else if fst t =? 6 then event_type
    else
      match event_type with
      | None => Some ("field_" ++ str_of_int (fst t))%string
      | Some _ => event_type
      end
  else event_type.

(** How [event_type] and [details] go together in every state of
    [parse_event]'s loop. *)
Definition ble_details_fit (event_type : option string)
    (details : option Ble.details) : Prop :=
  is_type event_type "TRUNCATED" = false
  /\ (is_type event_type "distance" = true ->
      exists sid dist has_dist raw n,
        details = Some (Ble.DistanceDetails sid dist has_dist raw n))
  /\ (event_type = None -> details = None).

Definition esp_details_fit (event_type : option string)
    (details : option Esp.details) : Prop :=
  (is_type event_type "distance" = true ->
   exists sid dist has_dist raw,
     details = Some (Esp.DistanceDetails sid dist has_dist raw))
  /\ (event_type = None -> details = None).

(** The event types the readers have a branch for; every other one,
    [None] included, goes to the last [else]. *)
Definition is_known (event_type : option string) : bool :=
  is_type event_type "TRUNCATED" || is_type event_type "distance"
  || is_type event_type "geolocation" || is_type event_type "userInput"
  || is_type event_type "textMessage".

(** ** Counters *)

(** The calls of [handle_notification] for the notifications [datas], in
    the order the BLE stack delivers them: the counters after the last call
    and everything printed. *)
Fixpoint handle_notifications (st : Ble.stats) (datas : list bytes)
  : option (Ble.stats * list Ble.line) :=
  match datas with
  | [] => Some (st, [])
  | data :: rest =>
      '(st1, out1) <- Ble.handle_notification st data ;;
      '(st2, out2) <- handle_notifications st1 rest ;;
      Some (st2, out1 ++ out2)
  end.

(** How the counters of read_ble.py hang together. *)
Definition stats_consistent (st : Ble.stats) : Prop :=
  Ble.sid1_zero st + Ble.sid2_zero st
  = Ble.dist_zero_no_field st + Ble.dist_zero_explicit st
  /\ Ble.sid1_ok st + Ble.sid2_ok st = Ble.dist_ok st
  /\ Ble.dist_ok st + Ble.dist_zero_no_field st + Ble.dist_zero_explicit st
     + Ble.truncated st <= Ble.count st
  /\ 0 <= Ble.dist_ok st /\ 0 <= Ble.dist_zero_no_field st
  /\ 0 <= Ble.dist_zero_explicit st /\ 0 <= Ble.truncated st
  /\ 0 <= Ble.sid1_zero st /\ 0 <= Ble.sid2_zero st
  /\ 0 <= Ble.sid1_ok st /\ 0 <= Ble.sid2_ok st.

(** ** What the details of an event can be *)

(** The [details] that can stand in a state of read_ble.py's [parse_event]
    loop on [data]: no truncation report, a distance record whose missing
    distance is 0.0 and whose submessage lies inside the frame, or the
    bytes of a text field. *)
Definition ble_details_sound (data : bytes) (details : option Ble.details)
  : Prop :=
  match details with
  | Some (Ble.TruncatedDetails _ _ _ _) => False
  | Some (Ble.DistanceDetails sid dist has raw n) =>
      0 <= sid /\ (has = false -> dist = float_zero)
      /\ 0 <= n < len data
      /\ Z.of_nat (String.length raw) = 2 * n
  | Some (Ble.TextDetails raw) => len raw < len data
  | None => True
  end.

Definition esp_details_sound (data : bytes) (details : option Esp.details)
  : Prop :=
  match details with
  | Some (Esp.DistanceDetails sid dist has raw) =>
      0 <= sid /\ (has = false -> dist = float_zero)
      /\ Z.of_nat (String.length raw) < 2 * len data
  | Some (Esp.TextDetails raw) => len raw < len data
  | None => True
  end.

(** ** The reader state of read_esp.py *)

(** [st] with another buffer. *)
Definition with_buf (st : Esp.reader) (b : bytes) : Esp.reader :=
  Esp.mk_reader b (Esp.count st) (Esp.dist_zero st) (Esp.dist_ok st)
    (Esp.printed st).

(** The lines printed for an event, as against a COBS error. *)
Definition is_event_line (l : Esp.line) : bool :=
  match l with
  | Esp.PrintCobsError _ => false
  | _ => true
  end.

Definition is_dist_line (l : Esp.line) : bool :=
  match l with
  | Esp.PrintDist _ _ _ _ _ _ => true
  | _ => false
  end.

(** How the counters of read_esp.py's [main] and what it has printed hang
    together. *)
Definition reader_consistent (st : Esp.reader) : Prop :=
  Esp.count st
  = Z.of_nat (List.length (filter is_event_line (Esp.printed st)))
  /\ Esp.dist_zero st + Esp.dist_ok st
     = Z.of_nat (List.length (filter is_dist_line (Esp.printed st)))
  /\ 0 <= Esp.dist_zero st /\ 0 <= Esp.dist_ok st.

(** ** The two readers side by side *)

(** The details read_esp.py builds for what read_ble.py builds: the same
    without the key [dm_bytes]; it has no truncation report. *)
Definition esp_details_of (details : option Ble.details)
  : option Esp.details :=
  match details with
  | Some (Ble.DistanceDetails sid dist has raw _) =>
      Some (Esp.DistanceDetails sid dist has raw)
  | Some (Ble.TextDetails raw) => Some (Esp.TextDetails raw)
  | Some (Ble.TruncatedDetails _ _ _ _) => None
  | None => None
  end.

(** ** Well-formed messages

    The messages of the wire format as sequences of fields, to state what
    the decoders make of every well-formed message. *)

(** A field of a message: number and value, by wire type. *)
Inductive wire_field : Type :=
| VarintField (field_num value : Z)
| Fixed64Field (field_num : Z) (b : bytes)
| LenField (field_num : Z) (payload : bytes)
| Fixed32Field (field_num : Z) (b : bytes).

Definition field_ok (f : wire_field) : Prop :=
  match f with
  | VarintField n v => 0 <= n /\ 0 <= v
  | Fixed64Field n b => 0 <= n /\ len b = 8
  | LenField n _ => 0 <= n
  | Fixed32Field n b => 0 <= n /\ len b = 4
  end.

(** (field number, wire type) *)
Definition field_tag (f : wire_field) : Z * Z :=
  match f with
  | VarintField n _ => (n, 0)
  | Fixed64Field n _ => (n, 1)
  | LenField n _ => (n, 2)
  | Fixed32Field n _ => (n, 5)
  end.

Definition encode_field (f : wire_field) : bytes :=
  match f with
  | VarintField n v => encode_tag n 0 ++ encode_varint v
  | Fixed64Field n b => encode_tag n 1 ++ b
  | LenField n payload =>
      encode_tag n 2 ++ encode_varint (len payload) ++ payload
  | Fixed32Field n b => encode_tag n 5 ++ b
  end.

Definition encode_message (fields : list wire_field) : bytes :=
  List.concat (map encode_field fields).

(** The DistanceMeasurement a sequence of fields stands for: field 1 as a
    varint is the source id, field 2 as a fixed32 the distance, the last
    occurrence of each counts, every other field says nothing. *)
Definition dm_apply (acc : Z * py_float * bool) (f : wire_field)
  : Z * py_float * bool :=
  match f with
  | VarintField n v => if n =? 1 then (v, snd (fst acc), snd acc) else acc
  | Fixed32Field n b =>
      if n =? 2 then (fst (fst acc), unpack_f32_le b, true) else acc
  | _ => acc
  end.

Definition dm_of_fields (fields : list wire_field) : Z * py_float * bool :=
  fold_left dm_apply fields (0, float_zero, false).

(** The details of read_ble.py after a well-formed field: a field 10 and
    a field 14 replace them, every other field keeps them. *)
Definition ble_details_after (details : option Ble.details) (f : wire_field)
  : option Ble.details :=
  match f with
  | LenField n payload =>
      if n =? 10 then
        match parse_distance_measurement payload with
        | Some (sid, dist, has) =>
            Some (Ble.DistanceDetails sid dist has (hex payload) (len payload))
        | None => None
        end
      else if n =? 14 then Some (Ble.TextDetails payload)
      else details
  | _ => details
  end.

(** A field that is not one of the recognized length-delimited fields
    10, 12, 13 and 14. *)
Definition keeps_event (f : wire_field) : bool :=
  match f with
  | LenField n _ => negb (recognized n)
  | _ => true
  end.

(** The length-delimited fields among the tags read that are neither
    recognized nor the time field 6. *)
Definition unknown_fields (tags : list (Z * Z)) : list Z :=
  map fst
    (filter (fun t => (snd t =? 2) && negb (recognized (fst t))
                      && negb (fst t =? 6)) tags).

(** The label of a frame without a recognized field. *)
Definition fallback_label (tags : list (Z * Z)) : option string :=
  match unknown_fields tags with
  | n :: _ => Some ("field_" ++ str_of_int n)%string
  | [] => None
  end.

(** ** Fields cut short *)

(** Whether the pass of [parse_event] that starts at [pos] reads a
    length-delimited field whose declared length runs past the end of the
    frame: the test [pos + length > len(data)] of read_ble.py (line 68),
    on the position after the tag and the length varint. *)
Definition cut_short_at (data : bytes) (pos : Z) : bool :=
  if pos <? len data then
    match decode_varint data pos with
    | Some (tag, pos) =>
        if Z.land tag 0x07 =? 2 then
          match decode_varint data pos with
          | Some (length, pos) => pos + length >? len data
          | None => false
          end
        else false
    | None => false
    end
  else false.

(** Whether read_ble.py's [parse_event] comes to such a field in [data]. *)
Definition ble_cut_short (data : bytes) : bool :=
  existsb (fun st : Ble.event_state => cut_short_at data (fst (fst st)))
    (loop_states (Ble.parse_event_body data) (S (List.length data))
       (0, None, None)).

(** * Properties *)

(** ** Loops *)

Section WhileLoop.
Context {S R : Type} (body : S -> option (flow S R)).

Lemma while_loop_more_fuel (fuel fuel' : nat) (s : S) (r : R) :
  while_loop body fuel s = Some r -> (fuel <= fuel')%nat ->
  while_loop body fuel' s = Some r.
Proof.
  revert fuel' s. induction fuel as [|fuel IH]; intros fuel' s H Hle.
  - discriminate.
  - destruct fuel' as [|fuel']; [lia|]. simpl in *.
    destruct (body s) as [[s'|r']|]; try assumption.
    apply IH; [assumption | lia].
Qed.

(** A loop whose passes keep an invariant and lower a measure ends within
    as many passes as the measure allows. *)
Lemma while_loop_terminates (inv : S -> Prop) (measure : S -> nat) :
  (forall s, inv s ->
     exists f, body s = Some f /\
       match f with
       | Next s' => inv s' /\ (measure s' < measure s)%nat
       | Done _ => True
       end) ->
  forall fuel s, inv s -> (measure s < fuel)%nat ->
    exists r, while_loop body fuel s = Some r.
Proof.
  intros Hbody. induction fuel as [|fuel IH]; intros s Hinv Hm; [lia|].
  destruct (Hbody s Hinv) as [f [Hf Hnext]]. simpl. rewrite Hf.
  destruct f as [s'|r].
  - destruct Hnext as [Hinv' Hlt]. apply IH; [assumption | lia].
  - exists r. reflexivity.
Qed.

End WhileLoop.

(** ** Bytes and slices *)

Lemma byte_val_range (b : byte) : 0 <= byte_val b < 256.
Proof.
  unfold byte_val. pose proof (Byte.to_N_bounded b). lia.
Qed.

Lemma byte_val_of_Z (n : Z) : 0 <= n < 256 -> byte_val (byte_of_Z n) = n.
Proof.
  intros Hn. unfold byte_val, byte_of_Z.
  destruct (Byte.of_N (Z.to_N n)) as [b|] eqn:E.
  - apply Byte.to_of_N in E. rewrite E. lia.
  - apply Byte.of_N_None_iff in E. lia.
Qed.

Lemma byte_of_Z_val (b : byte) : byte_of_Z (byte_val b) = b.
Proof.
  unfold byte_val, byte_of_Z. rewrite N2Z.id, Byte.of_to_N. reflexivity.
Qed.

Lemma len_nonneg {A : Type} (l : list A) : 0 <= len l.
Proof. unfold len. lia. Qed.

Lemma len_app {A : Type} (l1 l2 : list A) : len (l1 ++ l2) = len l1 + len l2.
Proof. unfold len. rewrite length_app. lia. Qed.

Lemma len_cons {A : Type} (a : A) (l : list A) : len (a :: l) = 1 + len l.
Proof. unfold len. cbn [List.length]. lia. Qed.

Lemma len_nil {A : Type} : len (@nil A) = 0.
Proof. reflexivity. Qed.

Lemma skipn_nth (data : bytes) (n : nat) :
  (n < List.length data)%nat ->
  skipn n data = nth n data x00 :: skipn (S n) data.
Proof.
  revert n. induction data as [|b data IH]; intros n Hn; simpl in Hn; [lia|].
  destruct n as [|n]; [reflexivity|]. simpl. apply IH. lia.
Qed.

Lemma skipn_len_app (pre rest : bytes) :
  skipn (Z.to_nat (len pre)) (pre ++ rest) = rest.
Proof.
  unfold len. rewrite Nat2Z.id. rewrite skipn_app, skipn_all, Nat.sub_diag.
  reflexivity.
Qed.

Lemma slice_app (pre payload post : bytes) :
  slice (pre ++ payload ++ post) (len pre) (len pre + len payload) = payload.
Proof.
  unfold slice. rewrite skipn_len_app.
  rewrite !len_app.
  pose proof (len_nonneg post).
  replace (Z.min (len pre + len payload) (len pre + (len payload + len post))
           - len pre) with (len payload) by lia.
  unfold len. rewrite Nat2Z.id. rewrite firstn_app, firstn_all, Nat.sub_diag.
  simpl. apply app_nil_r.
Qed.

(** ** [decode_varint] *)

Lemma decode_varint_loop_run (data : bytes) (fuel : nat) :
  forall result shift pos,
    0 <= pos ->
    (List.length (skipn (Z.to_nat pos) data) < fuel)%nat ->
    while_loop (decode_varint_body data) fuel (result, shift, pos)
    = Some (varint_run (skipn (Z.to_nat pos) data) result shift pos).
Proof.
  induction fuel as [|fuel IH]; intros result shift pos Hpos Hfuel; [lia|].
  cbn [while_loop decode_varint_body].
  destruct (pos <? len data) eqn:Hlt.
  - apply Z.ltb_lt in Hlt. unfold len in Hlt.
    assert (Hn : (Z.to_nat pos < List.length data)%nat) by lia.
    rewrite (skipn_nth data _ Hn) in Hfuel |- *.
    cbn [varint_run List.length] in Hfuel |- *. unfold byte_at.
    destruct (Z.land (byte_val (nth (Z.to_nat pos) data x00)) 128 =? 0);
      [reflexivity|].
    replace (S (Z.to_nat pos)) with (Z.to_nat (pos + 1)) in Hfuel |- * by lia.
    apply IH; lia.
  - apply Z.ltb_ge in Hlt. unfold len in Hlt.
    rewrite skipn_all2 by lia. reflexivity.
Qed.

Lemma decode_varint_run (data : bytes) (pos : Z) :
  0 <= pos ->
  decode_varint data pos
  = Some (varint_run (skipn (Z.to_nat pos) data) 0 0 pos).
Proof.
  intros Hpos. unfold decode_varint. apply decode_varint_loop_run; [lia|].
  rewrite length_skipn. lia.
Qed.

Lemma varint_run_pos (rest : bytes) :
  forall result shift pos,
    pos <= snd (varint_run rest result shift pos) <= pos + len rest
    /\ (rest <> [] -> pos < snd (varint_run rest result shift pos)).
Proof.
  induction rest as [|b rest IH]; intros result shift pos.
  - simpl. rewrite len_nil. split; [lia | congruence].
  - cbn [varint_run]. rewrite len_cons. pose proof (len_nonneg rest).
    destruct (Z.land (byte_val b) 128 =? 0).
    + cbn [snd]. split; [lia | intros _; lia].
    + specialize (IH (Z.lor result (Z.shiftl (Z.land (byte_val b) 127) shift))
                    (shift + 7) (pos + 1)).
      split; [lia | intros _; lia].
Qed.

Lemma varint_run_nonneg (rest : bytes) :
  forall result shift pos,
    0 <= result -> 0 <= fst (varint_run rest result shift pos).
Proof.
  induction rest as [|b rest IH]; intros result shift pos Hres.
  - assumption.
  - cbn [varint_run].
    assert (Hor : 0 <= Z.lor result (Z.shiftl (Z.land (byte_val b) 127) shift)).
    { apply Z.lor_nonneg. split; [assumption|].
      apply Z.shiftl_nonneg. apply Z.land_nonneg. right. lia. }
    destruct (Z.land (byte_val b) 128 =? 0); [exact Hor | apply IH; exact Hor].
Qed.

(** What every call of [decode_varint] at a position inside or at the end
    of the buffer returns: a value and a position that is not behind. *)
Lemma decode_varint_spec (data : bytes) (pos : Z) :
  0 <= pos ->
  exists v pos',
    decode_varint data pos = Some (v, pos')
    /\ 0 <= v /\ pos <= pos'
    /\ (pos <= len data -> pos' <= len data)
    /\ (pos < len data -> pos < pos').
Proof.
  intros Hpos. rewrite (decode_varint_run data pos Hpos).
  destruct (varint_run (skipn (Z.to_nat pos) data) 0 0 pos) as [v pos'] eqn:E.
  exists v, pos'. split; [reflexivity|].
  pose proof (varint_run_pos (skipn (Z.to_nat pos) data) 0 0 pos) as [Hp Hne].
  pose proof (varint_run_nonneg (skipn (Z.to_nat pos) data) 0 0 pos) as Hv.
  rewrite E in Hp, Hne, Hv. simpl in Hp, Hne, Hv.
  assert (Hlen : len (skipn (Z.to_nat pos) data) = Z.max 0 (len data - pos)).
  { unfold len. rewrite length_skipn. lia. }
  repeat split; try lia.
  intros Hlt. apply Hne. intros Hnil. rewrite Hnil, len_nil in Hlen. lia.
Qed.

(** ** Every pass moves the position forward *)

Ltac call_varint data pos :=
  let v := fresh "v" in
  let p := fresh "p" in
  let E := fresh "E" in
  let Hv := fresh "Hv" in
  let Hle := fresh "Hle" in
  let Hin := fresh "Hin" in
  let Hlt := fresh "Hlt" in
  let Hpos := fresh "Hpos" in
  assert (Hpos : 0 <= pos) by lia;
  destruct (decode_varint_spec data pos Hpos) as (v & p & E & Hv & Hle & Hin & Hlt);
  rewrite E; cbn beta iota.

Lemma dm_body_pass (data : bytes) (st : dm_state) :
  0 <= dm_pos st ->
  exists f, parse_distance_measurement_body data st = Some f /\
    match f with
    | Next st' => dm_pos st < dm_pos st' /\ dm_pos st < len data
    | Done r => r = dm_return st
    end.
Proof.
  intros H0. unfold parse_distance_measurement_body.
  destruct (dm_pos st <? len data) eqn:Hguard;
    [apply Z.ltb_lt in Hguard | eexists; split; reflexivity].
  call_varint data (dm_pos st).
  destruct ((Z.shiftr v 3 =? 1) && (Z.land v 7 =? 0)).
  { call_varint data p. eexists; split; [reflexivity|]. cbn. lia. }
  destruct ((Z.shiftr v 3 =? 2) && (Z.land v 7 =? 5)).
  { destruct (p + 4 <=? len data); eexists; (split; [reflexivity|]); cbn; lia. }
  destruct (Z.land v 7 =? 0).
  { call_varint data p. eexists; split; [reflexivity|]. cbn. lia. }
  destruct (Z.land v 7 =? 1).
  { eexists; split; [reflexivity|]. cbn. lia. }
  destruct (Z.land v 7 =? 2).
  { call_varint data p. eexists; split; [reflexivity|]. cbn. lia. }
  destruct (Z.land v 7 =? 5).
  { eexists; split; [reflexivity|]. cbn. lia. }
  eexists; split; reflexivity.
Qed.

Lemma dm_loop_returns (data : bytes) (fuel : nat) (st : dm_state) :
  0 <= dm_pos st ->
  (Z.to_nat (len data - dm_pos st) < fuel)%nat ->
  exists r, while_loop (parse_distance_measurement_body data) fuel st = Some r.
Proof.
  apply (while_loop_terminates (parse_distance_measurement_body data)
           (fun st => 0 <= dm_pos st)
           (fun st => Z.to_nat (len data - dm_pos st))).
  intros s Hs. destruct (dm_body_pass data s Hs) as [f [Hf Hcase]].
  exists f. split; [assumption|]. destruct f; [lia | exact I].
Qed.

Lemma parse_distance_measurement_returns (data : bytes) :
  exists r, parse_distance_measurement data = Some r.
Proof.
  unfold parse_distance_measurement. apply dm_loop_returns; cbn [dm_pos].
  - lia.
  - unfold len. lia.
Qed.

Lemma tag_at_read (data : bytes) (pos tag p : Z) :
  pos < len data -> decode_varint data pos = Some (tag, p) ->
  tag_at data pos = [(Z.shiftr tag 3, Z.land tag 7)].
Proof.
  intros Hlt E. unfold tag_at. apply Z.ltb_lt in Hlt. rewrite Hlt, E.
  reflexivity.
Qed.

Lemma tag_at_end (data : bytes) (pos : Z) :
  len data <= pos -> tag_at data pos = [].
Proof.
  intros Hge. unfold tag_at. apply Z.ltb_ge in Hge. rewrite Hge. reflexivity.
Qed.

Ltac field_cases n :=
  destruct (n =? 10) eqn:?E10;
  [| destruct (n =? 12) eqn:?E12;
     [| destruct (n =? 13) eqn:?E13;
        [| destruct (n =? 14) eqn:?E14;
           [| destruct (n =? 6) eqn:?E6 ]]]].

Ltac next_type_done :=
  unfold next_event_type, recognized, event_name; cbn [fst snd];
  repeat match goal with
         | H : (_ =? _) = _ |- _ => rewrite H
         end;
  cbn [orb andb]; try reflexivity.

Ltac fit_solve :=
  first
    [ exact (fun H => H)
    | intros _; unfold ble_details_fit, esp_details_fit;
      repeat match goal with |- _ /\ _ => split end;
      first
        [ reflexivity
        | discriminate
        | intros _; do 5 eexists; reflexivity
        | intros _; do 4 eexists; reflexivity
        | let H := fresh in intros H; cbn in H; discriminate H ] ].

Ltac pass_next Htag :=
  eexists;
  split;
  [ reflexivity
  | split;
    [ lia
    | split;
      [ lia
      | split;
        [ eexists; split; [exact Htag | next_type_done]
        | fit_solve ] ] ] ].

Lemma ble_body_pass (data : bytes) (pos : Z) (et : option string)
    (det : option Ble.details) :
  0 <= pos ->
  exists f, Ble.parse_event_body data (pos, et, det) = Some f /\
    match f with
    | Next (pos', et', det') =>
        pos < pos' /\ pos < len data
        /\ (exists t, tag_at data pos = [t] /\ et' = next_event_type et t)
        /\ (ble_details_fit et det -> ble_details_fit et' det')
    | Done (et', det') =>
        (et' = et /\ det' = det
         /\ forall t, In t (tag_at data pos) -> snd t <> 2)
        \/ (et' = Some "TRUNCATED"%string
            /\ exists field expected available,
                det' = Some (Ble.TruncatedDetails field expected available
                               (hex data)))
    end.
Proof.
  intros H0. unfold Ble.parse_event_body.
  destruct (pos <? len data) eqn:Hguard.
  2:{ apply Z.ltb_ge in Hguard. eexists; split; [reflexivity|].
      left. rewrite (tag_at_end data pos Hguard). repeat split. intros t []. }
  apply Z.ltb_lt in Hguard.
  destruct (pos >=? len data) eqn:Hdead.
  { apply Z.geb_le in Hdead. lia. }
  call_varint data pos.
  pose proof (tag_at_read data pos v p Hguard E) as Htag.
  destruct (Z.land v 7 =? 2) eqn:Ew.
  - call_varint data p.
    destruct (p0 + v0 >? len data) eqn:Htr.
    { eexists; split; [reflexivity|]. right. split; [reflexivity|].
      do 3 eexists. reflexivity. }
    rewrite Z.gtb_ltb in Htr. apply Z.ltb_ge in Htr.
    field_cases (Z.shiftr v 3).
    + destruct (parse_distance_measurement_returns
                  (slice data p0 (p0 + v0))) as [[[sid dist] has] Edm].
      rewrite Edm. pass_next Htag.
    + pass_next Htag.
    + pass_next Htag.
    + pass_next Htag.
    + pass_next Htag.
    + destruct et as [name|]; pass_next Htag.
  - destruct (Z.land v 7 =? 0) eqn:Ew0.
    { call_varint data p. pass_next Htag. }
    destruct (Z.land v 7 =? 1) eqn:Ew1.
    { pass_next Htag. }
    destruct (Z.land v 7 =? 5) eqn:Ew5.
    { pass_next Htag. }
    eexists; split; [reflexivity|]. left. repeat split.
    intros t Ht. rewrite Htag in Ht. destruct Ht as [<-|[]]. cbn [snd].
    apply Z.eqb_neq. exact Ew.
Qed.

Lemma esp_body_pass (data : bytes) (pos : Z) (et : option string)
    (det : option Esp.details) :
  0 <= pos ->
  exists f, Esp.parse_event_body data (pos, et, det) = Some f /\
    match f with
    | Next (pos', et', det') =>
        pos < pos' /\ pos < len data
        /\ (exists t, tag_at data pos = [t] /\ et' = next_event_type et t)
        /\ (esp_details_fit et det -> esp_details_fit et' det')
    | Done (et', det') =>
        et' = et /\ det' = det
        /\ forall t, In t (tag_at data pos) -> snd t <> 2
    end.
Proof.
  intros H0. unfold Esp.parse_event_body.
  destruct (pos <? len data) eqn:Hguard.
  2:{ apply Z.ltb_ge in Hguard. eexists; split; [reflexivity|].
      rewrite (tag_at_end data pos Hguard). repeat split. intros t []. }
  apply Z.ltb_lt in Hguard.
  call_varint data pos.
  pose proof (tag_at_read data pos v p Hguard E) as Htag.
  destruct (Z.land v 7 =? 2) eqn:Ew.
  - call_varint data p.
    field_cases (Z.shiftr v 3).
    + destruct (parse_distance_measurement_returns
                  (slice data p0 (p0 + v0))) as [[[sid dist] has] Edm].
      rewrite Edm. pass_next Htag.
    + pass_next Htag.
    + pass_next Htag.
    + pass_next Htag.
    + pass_next Htag.
    + destruct et as [name|]; pass_next Htag.
  - destruct (Z.land v 7 =? 0) eqn:Ew0.
    { call_varint data p. pass_next Htag. }
    destruct (Z.land v 7 =? 1) eqn:Ew1.
    { pass_next Htag. }
    destruct (Z.land v 7 =? 5) eqn:Ew5.
    { pass_next Htag. }
    eexists; split; [reflexivity|]. repeat split.
    intros t Ht. rewrite Htag in Ht. destruct Ht as [<-|[]]. cbn [snd].
    apply Z.eqb_neq. exact Ew.
Qed.

Lemma ble_loop_returns (data : bytes) (fuel : nat) (st : Ble.event_state) :
  0 <= fst (fst st) ->
  (Z.to_nat (len data - fst (fst st)) < fuel)%nat ->
  exists r, while_loop (Ble.parse_event_body data) fuel st = Some r.
Proof.
  apply (while_loop_terminates (Ble.parse_event_body data)
           (fun st => 0 <= fst (fst st))
           (fun st => Z.to_nat (len data - fst (fst st)))).
  intros [[pos et] det] Hs. cbn [fst] in Hs |- *.
  destruct (ble_body_pass data pos et det Hs) as [f [Hf Hcase]].
  exists f. split; [assumption|]. destruct f as [[[pos' et'] det']|r];
    [cbn [fst]; lia | exact I].
Qed.

Lemma esp_loop_returns (data : bytes) (fuel : nat) (st : Esp.event_state) :
  0 <= fst (fst st) ->
  (Z.to_nat (len data - fst (fst st)) < fuel)%nat ->
  exists r, while_loop (Esp.parse_event_body data) fuel st = Some r.
Proof.
  apply (while_loop_terminates (Esp.parse_event_body data)
           (fun st => 0 <= fst (fst st))
           (fun st => Z.to_nat (len data - fst (fst st)))).
  intros [[pos et] det] Hs. cbn [fst] in Hs |- *.
  destruct (esp_body_pass data pos et det Hs) as [f [Hf Hcase]].
  exists f. split; [assumption|]. destruct f as [[[pos' et'] det']|r];
    [cbn [fst]; lia | exact I].
Qed.

Lemma ble_parse_event_returns (data : bytes) :
  exists r, Ble.parse_event data = Some r.
Proof.
  unfold Ble.parse_event. apply ble_loop_returns; cbn [fst].
  - lia.
  - unfold len. lia.
Qed.

Lemma esp_parse_event_returns (data : bytes) :
  exists r, Esp.parse_event data = Some r.
Proof.
  unfold Esp.parse_event. apply esp_loop_returns; cbn [fst].
  - lia.
  - unfold len. lia.
Qed.

(** ** What [parse_event] returns *)

Lemma ble_loop_fit (data : bytes) (fuel : nat) :
  forall pos et det et' det',
    0 <= pos -> ble_details_fit et det ->
    while_loop (Ble.parse_event_body data) fuel (pos, et, det)
    = Some (et', det') ->
    ble_details_fit et' det'
    \/ (et' = Some "TRUNCATED"%string
        /\ exists field expected available,
            det' = Some (Ble.TruncatedDetails field expected available
                           (hex data))).
Proof.
  induction fuel as [|fuel IH]; intros pos et det et' det' H0 Hfit Hrun;
    [discriminate|].
  cbn [while_loop] in Hrun.
  destruct (ble_body_pass data pos et det H0) as [f [Hf Hcase]].
  rewrite Hf in Hrun. destruct f as [[[pos1 et1] det1]|[et1 det1]].
  - destruct Hcase as (Hlt & _ & _ & Hfit1).
    apply (IH pos1 et1 det1); [lia | auto | exact Hrun].
  - injection Hrun as <- <-.
    destruct Hcase as [(-> & -> & _)|Htr]; [left; exact Hfit | right; exact Htr].
Qed.

Lemma esp_loop_fit (data : bytes) (fuel : nat) :
  forall pos et det et' det',
    0 <= pos -> esp_details_fit et det ->
    while_loop (Esp.parse_event_body data) fuel (pos, et, det)
    = Some (et', det') ->
    esp_details_fit et' det'.
Proof.
  induction fuel as [|fuel IH]; intros pos et det et' det' H0 Hfit Hrun;
    [discriminate|].
  cbn [while_loop] in Hrun.
  destruct (esp_body_pass data pos et det H0) as [f [Hf Hcase]].
  rewrite Hf in Hrun. destruct f as [[[pos1 et1] det1]|[et1 det1]].
  - destruct Hcase as (Hlt & _ & _ & Hfit1).
    apply (IH pos1 et1 det1); [lia | auto | exact Hrun].
  - injection Hrun as <- <-.
    destruct Hcase as (-> & -> & _). exact Hfit.
Qed.

Lemma ble_fit_init : ble_details_fit None None.
Proof. repeat split; intros; discriminate. Qed.

Lemma esp_fit_init : esp_details_fit None None.
Proof. repeat split; intros; discriminate. Qed.

Lemma ble_parse_event_fit (data : bytes) :
  exists et det,
    Ble.parse_event data = Some (et, det)
    /\ (ble_details_fit et det
        \/ (et = Some "TRUNCATED"%string
            /\ exists field expected available,
                det = Some (Ble.TruncatedDetails field expected available
                              (hex data)))).
Proof.
  destruct (ble_parse_event_returns data) as [[et det] Hrun].
  exists et, det. split; [exact Hrun|].
  apply (ble_loop_fit data (S (List.length data)) 0 None None);
    [lia | exact ble_fit_init | exact Hrun].
Qed.

Lemma esp_parse_event_fit (data : bytes) :
  exists et det,
    Esp.parse_event data = Some (et, det) /\ esp_details_fit et det.
Proof.
  destruct (esp_parse_event_returns data) as [[et det] Hrun].
  exists et, det. split; [exact Hrun|].
  apply (esp_loop_fit data (S (List.length data)) 0 None None);
    [lia | exact esp_fit_init | exact Hrun].
Qed.

(** ** The frame loop of read_esp.py *)

Lemma has_zero_delimited (frame rest : bytes) :
  Esp.has_zero (frame ++ x00 :: rest) = true.
Proof.
  unfold Esp.has_zero. rewrite existsb_app. cbn [existsb].
  change (byte_val x00 =? 0) with true. cbn [orb]. apply orb_true_r.
Qed.

Lemma index_zero_delimited (frame rest : bytes) :
  Esp.has_zero frame = false ->
  Esp.index_zero (frame ++ x00 :: rest) = len frame.
Proof.
  induction frame as [|b frame IH]; intros Hz.
  - reflexivity.
  - cbn [Esp.has_zero existsb] in Hz. apply orb_false_elim in Hz.
    destruct Hz as [Hb Hrest]. cbn [app Esp.index_zero]. rewrite Hb.
    rewrite len_cons. f_equal. apply IH. exact Hrest.
Qed.

Lemma frame_of_delimited (frame rest : bytes) :
  slice (frame ++ x00 :: rest) 0 (len frame) = frame.
Proof.
  exact (slice_app [] frame (x00 :: rest)).
Qed.

Lemma rest_of_delimited (frame rest : bytes) :
  skipn (Z.to_nat (len frame + 1)) (frame ++ x00 :: rest) = rest.
Proof.
  unfold len. replace (Z.to_nat (Z.of_nat (List.length frame) + 1))
    with (List.length frame + 1)%nat by lia.
  rewrite skipn_app.
  replace (List.length frame + 1 - List.length frame)%nat with 1%nat by lia.
  rewrite skipn_all2 by lia. reflexivity.
Qed.

Lemma empty_frame_pass (rest : bytes) (c z k : Z) (pr : list Esp.line) :
  Esp.frame_loop_body (Esp.mk_reader (x00 :: rest) c z k pr)
  = Some (Next (Esp.mk_reader rest c z k pr)).
Proof.
  unfold Esp.frame_loop_body. cbn [Esp.buf Esp.count Esp.dist_zero
                                     Esp.dist_ok Esp.printed].
  rewrite (has_zero_delimited [] rest : Esp.has_zero (x00 :: rest) = true).
  rewrite (index_zero_delimited [] rest eq_refl
           : Esp.index_zero (x00 :: rest) = len (@nil byte)).
  rewrite (frame_of_delimited [] rest
           : slice (x00 :: rest) 0 (len (@nil byte)) = []).
  rewrite (rest_of_delimited [] rest
           : skipn (Z.to_nat (len (@nil byte) + 1)) (x00 :: rest) = rest).
  reflexivity.
Qed.

Lemma decoded_frame_pass (frame rest data : bytes) (c z k : Z)
    (pr : list Esp.line) :
  Esp.has_zero frame = false -> frame <> [] ->
  Esp.cobs_decode frame = Some (Some data) ->
  exists et det z' k' l,
    Esp.parse_event data = Some (et, det)
    /\ Esp.frame_loop_body (Esp.mk_reader (frame ++ x00 :: rest) c z k pr)
       = Some (Next (Esp.mk_reader rest (c + 1) z' k' (pr ++ [l])))
    /\ (is_type et "distance" = false -> is_type et "geolocation" = false ->
        is_type et "userInput" = false -> is_type et "textMessage" = false ->
        z' = z /\ k' = k /\ l = Esp.PrintOther (c + 1) et (len data)).
Proof.
  intros Hz Hne Hcobs.
  destruct (esp_parse_event_fit data) as (et & det & Hparse & Hfit).
  unfold Esp.frame_loop_body. cbn [Esp.buf Esp.count Esp.dist_zero
                                     Esp.dist_ok Esp.printed].
  rewrite has_zero_delimited, (index_zero_delimited frame rest Hz).
  rewrite frame_of_delimited, rest_of_delimited.
  destruct frame as [|b frame']; [congruence|].
  rewrite Hcobs, Hparse. cbn beta iota.
  destruct (is_type et "distance") eqn:Ed.
  - destruct Hfit as [Hdist _].
    destruct (Hdist Ed) as (sid & dist & has & raw & ->).
    destruct (float_is_zero dist && negb has);
      [|destruct (float_is_zero dist)];
      do 5 eexists; (split; [reflexivity|]); (split; [reflexivity|]);
      intros; congruence.
  - destruct (is_type et "geolocation") eqn:Eg;
      [|destruct (is_type et "userInput") eqn:Eu;
        [|destruct (is_type et "textMessage") eqn:Et]];
      do 5 eexists; (split; [reflexivity|]); (split; [reflexivity|]);
      intros; try congruence; repeat split.
Qed.

Lemma handle_notification_returns (st : Ble.stats) (data : bytes) :
  exists et det st' out,
    Ble.parse_event data = Some (et, det)
    /\ Ble.handle_notification st data = Some (st', out)
    /\ Ble.count st' = Ble.count st + 1
    /\ (is_type et "TRUNCATED" = false -> is_type et "distance" = false ->
        is_type et "geolocation" = false -> is_type et "userInput" = false ->
        is_type et "textMessage" = false ->
        out = [Ble.PrintOther (Ble.count st + 1) et (len data) (hex data)]).
Proof.
  destruct (ble_parse_event_fit data) as (et & det & Hparse & Hshape).
  exists et, det. unfold Ble.handle_notification. rewrite Hparse.
  cbn beta iota.
  destruct Hshape as [(Htr & Hdist & _)|(-> & f & e & a & ->)].
  - rewrite Htr. destruct (is_type et "distance") eqn:Ed.
    + destruct (Hdist eq_refl) as (sid & dist & has & raw & n & ->).
      destruct (float_is_zero dist && negb has);
        [|destruct (float_is_zero dist)];
        do 2 eexists; (split; [reflexivity|]); (split; [reflexivity|]);
        (split; [reflexivity|]); intros; congruence.
    + destruct (is_type et "geolocation") eqn:Eg;
        [|destruct (is_type et "userInput") eqn:Eu;
          [|destruct (is_type et "textMessage") eqn:Et]];
        do 2 eexists; (split; [reflexivity|]); (split; [reflexivity|]);
        (split; [reflexivity|]); intros; try congruence; reflexivity.
  - cbn. do 2 eexists. split; [reflexivity|]. split; [reflexivity|].
    split; [reflexivity|]. intros; congruence.
Qed.

Lemma is_known_false (et : option string) :
  is_known et = false ->
  is_type et "TRUNCATED" = false /\ is_type et "distance" = false
  /\ is_type et "geolocation" = false /\ is_type et "userInput" = false
  /\ is_type et "textMessage" = false.
Proof.
  unfold is_known. intros H.
  repeat (apply orb_false_elim in H; destruct H as [H ?]). auto.
Qed.

(** ** Termination *)

(** C10: the decoders terminate on every input. A tag read at a position
    inside the buffer consumes at least one byte and ends inside the
    buffer; every pass of the field loops of [parse_distance_measurement]
    and of the two [parse_event]s that goes round again has moved the
    position strictly forward; so each loop is over after at most
    [len(data)] passes: with any bound above that it returns, and returns
    the value the function returns. *)
Theorem decoders_terminate (data : bytes) :
  (forall pos, 0 <= pos ->
     exists v pos', decode_varint data pos = Some (v, pos')
       /\ (pos < len data -> pos < pos' <= len data))
  /\ (forall st st', 0 <= dm_pos st ->
        parse_distance_measurement_body data st = Some (Next st') ->
        dm_pos st < dm_pos st')
  /\ (forall pos et det pos' et' det', 0 <= pos ->
        Ble.parse_event_body data (pos, et, det)
        = Some (Next (pos', et', det')) ->
        pos < pos')
  /\ (forall pos et det pos' et' det', 0 <= pos ->
        Esp.parse_event_body data (pos, et, det)
        = Some (Next (pos', et', det')) ->
        pos < pos')
  /\ (forall fuel, (List.length data < fuel)%nat ->
        exists r,
          while_loop (parse_distance_measurement_body data) fuel
            (mk_dm 0 float_zero false 0) = Some r
          /\ parse_distance_measurement data = Some r)
  /\ (forall fuel, (List.length data < fuel)%nat ->
        exists r,
          while_loop (Ble.parse_event_body data) fuel (0, None, None) = Some r
          /\ Ble.parse_event data = Some r)
  /\ (forall fuel, (List.length data < fuel)%nat ->
        exists r,
          while_loop (Esp.parse_event_body data) fuel (0, None, None) = Some r
          /\ Esp.parse_event data = Some r).
Proof.
  split; [|split; [|split; [|split; [|split; [|split]]]]].
  - intros pos Hpos.
    destruct (decode_varint_spec data pos Hpos)
      as (v & pos' & E & _ & _ & Hin & Hlt).
    exists v, pos'. split; [exact E | lia].
  - intros st st' H0 Hpass.
    destruct (dm_body_pass data st H0) as [f [Hf Hcase]].
    rewrite Hpass in Hf. injection Hf as <-. lia.
  - intros pos et det pos' et' det' H0 Hpass.
    destruct (ble_body_pass data pos et det H0) as [f [Hf Hcase]].
    rewrite Hpass in Hf. injection Hf as <-. lia.
  - intros pos et det pos' et' det' H0 Hpass.
    destruct (esp_body_pass data pos et det H0) as [f [Hf Hcase]].
    rewrite Hpass in Hf. injection Hf as <-. lia.
  - intros fuel Hfuel.
    destruct (parse_distance_measurement_returns data) as [r Hr].
    exists r. split; [|exact Hr].
    apply (while_loop_more_fuel _ (S (List.length data))); [exact Hr | lia].
  - intros fuel Hfuel.
    destruct (ble_parse_event_returns data) as [r Hr].
    exists r. split; [|exact Hr].
    apply (while_loop_more_fuel _ (S (List.length data))); [exact Hr | lia].
  - intros fuel Hfuel.
    destruct (esp_parse_event_returns data) as [r Hr].
    exists r. split; [|exact Hr].
    apply (while_loop_more_fuel _ (S (List.length data))); [exact Hr | lia].
Qed.

Lemma decoders_terminate_witness :
  exists v pos',
    decode_varint [x52; x02; x08; x01] 0 = Some (v, pos')
    /\ (0 < len [x52; x02; x08; x01] -> 0 < pos' <= len [x52; x02; x08; x01]).
Proof.
  exact (proj1 (decoders_terminate [x52; x02; x08; x01]) 0 (Z.le_refl 0)).
Defined.

(** ** Empty frames *)

Lemma delimited_frame_pass_buf (frame tail : bytes) (c z k : Z)
    (pr : list Esp.line) (st' : Esp.reader) :
  Esp.has_zero frame = false ->
  Esp.frame_loop_body (Esp.mk_reader (frame ++ x00 :: tail) c z k pr)
  = Some (Next st') ->
  Esp.buf st' = tail.
Proof.
  intros Hz. unfold Esp.frame_loop_body.
  cbn [Esp.buf Esp.count Esp.dist_zero Esp.dist_ok Esp.printed].
  rewrite has_zero_delimited, (index_zero_delimited frame tail Hz).
  rewrite frame_of_delimited, rest_of_delimited.
  destruct frame as [|b frame'].
  { intros H. injection H as <-. reflexivity. }
  destruct (Esp.cobs_decode (b :: frame')) as [[decoded|]|]; cbn beta iota.
  - destruct (Esp.parse_event decoded) as [[et det]|]; [|discriminate].
    destruct (is_type et "distance").
    + destruct det as [[sid dist has raw|raw]|]; try discriminate.
      destruct (float_is_zero dist && negb has);
        [|destruct (float_is_zero dist)];
        intros H; injection H as <-; reflexivity.
    + destruct (is_type et "geolocation");
        [|destruct (is_type et "userInput");
          [|destruct (is_type et "textMessage")]];
        intros H; injection H as <-; reflexivity.
  - intros H. injection H as <-. reflexivity.
  - discriminate.
Qed.

(** C9: in the frame loop of read_esp.py's [main], a buffer that starts
    with the zero delimiter holds an empty frame: the pass removes the
    delimiter and nothing else changes, no line is printed and no event is
    counted, and the loop goes on with the rest of the buffer. That is the
    state after any frame that is followed by two delimiters in a row: the
    pass for that frame leaves the buffer at the second delimiter, and the
    next pass only drops it. *)
Theorem empty_frame_discarded (rest : bytes) (c z k : Z)
    (pr : list Esp.line) :
  Esp.frame_loop_body (Esp.mk_reader (x00 :: rest) c z k pr)
  = Some (Next (Esp.mk_reader rest c z k pr))
  /\ (forall fuel,
        while_loop Esp.frame_loop_body (S fuel)
          (Esp.mk_reader (x00 :: rest) c z k pr)
        = while_loop Esp.frame_loop_body fuel (Esp.mk_reader rest c z k pr))
  /\ (forall frame c0 z0 k0 pr0 st',
        Esp.has_zero frame = false ->
        Esp.frame_loop_body
          (Esp.mk_reader (frame ++ x00 :: x00 :: rest) c0 z0 k0 pr0)
        = Some (Next st') ->
        Esp.buf st' = x00 :: rest
        /\ Esp.frame_loop_body st'
           = Some (Next (Esp.mk_reader rest (Esp.count st') (Esp.dist_zero st')
                           (Esp.dist_ok st') (Esp.printed st')))).
Proof.
  split; [apply empty_frame_pass|]. split.
  - intros fuel. cbn [while_loop]. rewrite empty_frame_pass. reflexivity.
  - intros frame c0 z0 k0 pr0 st' Hz Hpass.
    pose proof (delimited_frame_pass_buf frame (x00 :: rest) c0 z0 k0 pr0 st'
                  Hz Hpass) as Hbuf.
    split; [exact Hbuf|].
    destruct st' as [b' c' z' k' pr']. cbn [Esp.buf] in Hbuf. subst b'.
    apply empty_frame_pass.
Qed.

Lemma empty_frame_discarded_witness :
  Esp.frame_loop_body (Esp.mk_reader [x00; x02] 1 0 0 [])
  = Some (Next (Esp.mk_reader [x02] 1 0 0 [])).
Proof.
  exact (proj1 (empty_frame_discarded [x02] 1 0 0 [])).
Defined.

(** ** Varints: decoding an encoding *)

Lemma low7_range (v : Z) : 0 <= Z.land v 127 < 128.
Proof.
  change 127 with (Z.ones 7). rewrite Z.land_ones by lia.
  change (2 ^ 7) with 128. apply Z.mod_pos_bound. lia.
Qed.

Lemma low7_of_small (v : Z) : 0 <= v < 128 -> Z.land v 127 = v.
Proof.
  intros Hv. change 127 with (Z.ones 7). rewrite Z.land_ones by lia.
  change (2 ^ 7) with 128. apply Z.mod_small. exact Hv.
Qed.

Lemma bit7_of_small (v : Z) : 0 <= v < 128 -> Z.land v 128 = 0.
Proof.
  intros Hv. rewrite <- (low7_of_small v Hv) at 1.
  rewrite <- Z.land_assoc. change (Z.land 127 128) with 0.
  apply Z.land_0_r.
Qed.

Lemma continuation_low7 (v : Z) :
  Z.land (Z.lor (Z.land v 127) 128) 127 = Z.land v 127.
Proof.
  rewrite Z.land_lor_distr_l. change (Z.land 128 127) with 0.
  rewrite Z.lor_0_r, <- Z.land_assoc. reflexivity.
Qed.

Lemma continuation_bit7 (v : Z) :
  Z.land (Z.lor (Z.land v 127) 128) 128 = 128.
Proof.
  rewrite Z.land_lor_distr_l, <- Z.land_assoc.
  change (Z.land 127 128) with 0. rewrite Z.land_0_r. reflexivity.
Qed.

Lemma continuation_range (v : Z) : 0 <= Z.lor (Z.land v 127) 128 < 256.
Proof.
  pose proof (low7_range v) as Hlow.
  pose proof (Z.add_lor_land (Z.land v 127) 128) as Hadd.
  rewrite <- Z.land_assoc in Hadd. change (Z.land 127 128) with 0 in Hadd.
  rewrite Z.land_0_r in Hadd. lia.
Qed.

Lemma groups_join (v : Z) :
  Z.lor (Z.land v 127) (Z.shiftl (Z.shiftr v 7) 7) = v.
Proof.
  apply Z.bits_inj'. intros n Hn.
  rewrite Z.lor_spec, Z.land_spec. change 127 with (Z.ones 7).
  rewrite Z.testbit_ones_nonneg by lia.
  destruct (n <? 7) eqn:Hlt.
  - apply Z.ltb_lt in Hlt. rewrite Z.shiftl_spec_low by lia.
    rewrite andb_true_r, orb_false_r. reflexivity.
  - apply Z.ltb_ge in Hlt. rewrite Z.shiftl_spec by lia.
    rewrite Z.shiftr_spec by lia. rewrite andb_false_r. cbn [orb].
    f_equal. lia.
Qed.

Lemma varint_run_encode (f : nat) :
  forall v rest result shift pos,
    0 <= v < 2 ^ (7 * Z.of_nat (S f)) ->
    varint_run (encode_varint_groups (S f) v ++ rest) result shift pos
    = (Z.lor result (Z.shiftl v shift),
       pos + len (encode_varint_groups (S f) v)).
Proof.
  induction f as [|f IH]; intros v rest result shift pos Hv.
  - change (2 ^ (7 * Z.of_nat 1)) with 128 in Hv.
    cbn [encode_varint_groups].
    assert (Hsmall : (v <? 128) = true) by (apply Z.ltb_lt; lia).
    rewrite Hsmall. cbn [app varint_run].
    rewrite (byte_val_of_Z v) by lia.
    rewrite (bit7_of_small v Hv), (low7_of_small v Hv). reflexivity.
  - remember (S f) as f1 eqn:Ef1. cbn [encode_varint_groups].
    destruct (v <? 128) eqn:Hsmall.
    + apply Z.ltb_lt in Hsmall. cbn [app varint_run].
      rewrite (byte_val_of_Z v) by lia.
      rewrite (bit7_of_small v) by lia. rewrite (low7_of_small v) by lia.
      reflexivity.
    + apply Z.ltb_ge in Hsmall. cbn [app varint_run].
      rewrite (byte_val_of_Z _ (continuation_range v)).
      rewrite continuation_low7, continuation_bit7.
      change (128 =? 0) with false. cbn iota.
      assert (Hhigh : 0 <= Z.shiftr v 7 < 2 ^ (7 * Z.of_nat f1)).
      { rewrite Z.shiftr_div_pow2 by lia. split.
        - apply Z.div_pos; lia.
        - apply Z.div_lt_upper_bound; [lia|].
          rewrite <- Z.pow_add_r by lia.
          replace (7 + 7 * Z.of_nat f1) with (7 * Z.of_nat (S f1)) by lia.
          lia. }
      subst f1. rewrite (IH _ rest _ _ _ Hhigh).
      rewrite len_cons. f_equal; [|lia].
      rewrite <- Z.lor_assoc. f_equal.
      replace (shift + 7) with (7 + shift) by lia.
      rewrite <- Z.shiftl_shiftl by lia. rewrite <- Z.shiftl_lor.
      rewrite groups_join. reflexivity.
Qed.

Lemma encode_varint_fuel (v : Z) :
  0 <= v -> v < 2 ^ (7 * Z.of_nat (S (Z.to_nat (Z.log2 v)))).
Proof.
  intros Hv. pose proof (Z.log2_nonneg v) as Hlog.
  assert (Hlt : v < 2 ^ Z.succ (Z.log2 v)).
  { destruct (Z.eq_dec v 0) as [->|Hne]; [reflexivity|].
    apply Z.log2_spec. lia. }
  eapply Z.lt_le_trans; [exact Hlt|].
  apply Z.pow_le_mono_r; lia.
Qed.

(** A varint is decoded wherever its encoding stands in the buffer. *)
Lemma decode_varint_encoding (pre post : bytes) (v : Z) :
  0 <= v ->
  decode_varint (pre ++ encode_varint v ++ post) (len pre)
  = Some (v, len pre + len (encode_varint v)).
Proof.
  intros Hv. rewrite decode_varint_run by apply len_nonneg.
  rewrite skipn_len_app. unfold encode_varint.
  rewrite varint_run_encode by (split; [exact Hv | apply encode_varint_fuel, Hv]).
  rewrite Z.lor_0_l, Z.shiftl_0_r. reflexivity.
Qed.

(** C5: decoding the base-128 varint encoding of an unsigned integer [v]
    from position 0 returns [v] and, as the new position, the number of
    bytes of the encoding. Python's integers are unbounded and the decoder
    has no width limit, so this holds for every [v >= 0], the 64-bit range
    of the wire format included. *)
Theorem decode_varint_encode_varint (v : Z) :
  0 <= v ->
  decode_varint (encode_varint v) 0 = Some (v, len (encode_varint v)).
Proof.
  intros Hv.
  pose proof (decode_varint_encoding [] [] v Hv) as H.
  rewrite app_nil_r in H. exact H.
Qed.

Lemma decode_varint_encode_varint_witness :
  decode_varint (encode_varint 300) 0 = Some (300, len (encode_varint 300)).
Proof.
  apply (decode_varint_encode_varint 300). lia.
Defined.

Example encode_varint_300 : encode_varint 300 = [xac; x02].
Proof. reflexivity. Qed.

Example decode_varint_max64 :
  decode_varint (encode_varint (2 ^ 64 - 1)) 0 = Some (2 ^ 64 - 1, 10).
Proof. vm_compute. reflexivity. Qed.

(** ** Truncated fields *)

(** A pass that ends the function decides the value of the whole loop,
    whenever the loop gets to it. *)
Lemma loop_states_done {S R : Type} (body : S -> option (flow S R))
    (fuel : nat) :
  forall s0 s r,
    In s (loop_states body fuel s0) -> body s = Some (Done r) ->
    while_loop body fuel s0 = Some r.
Proof.
  induction fuel as [|fuel IH]; intros s0 s r Hin Hdone; [destruct Hin|].
  cbn [loop_states while_loop] in Hin |- *. destruct Hin as [<-|Hin].
  - rewrite Hdone. reflexivity.
  - destruct (body s0) as [[s1|r1]|]; try destruct Hin.
    apply (IH s1 s r); [exact Hin | exact Hdone].
Qed.

(** read_ble.py: in whatever state [parse_event] comes to a
    length-delimited field whose declared length runs past the end of the
    buffer, it returns at once the TRUNCATED result with the field number,
    the declared length, the bytes left after the length varint and the
    hex dump of the frame. *)
Theorem ble_truncated_field (data : bytes) (pos : Z) (et : option string)
    (det : option Ble.details) (tag p1 length p2 : Z) :
  In (pos, et, det)
     (loop_states (Ble.parse_event_body data) (S (List.length data))
        (0, None, None)) ->
  pos < len data ->
  decode_varint data pos = Some (tag, p1) -> Z.land tag 7 = 2 ->
  decode_varint data p1 = Some (length, p2) -> p2 + length > len data ->
  Ble.parse_event data
  = Some (Some "TRUNCATED"%string,
          Some (Ble.TruncatedDetails (Z.shiftr tag 3) length (len data - p2)
                  (hex data))).
Proof.
  intros Hin Hlt Htag Hwire Hlen Hover.
  apply (loop_states_done _ _ _ (pos, et, det)); [exact Hin|].
  unfold Ble.parse_event_body.
  apply Z.ltb_lt in Hlt as Hguard. rewrite Hguard.
  assert (Hdead : (pos >=? len data) = false).
  { rewrite Z.geb_leb. apply Z.leb_gt. exact Hlt. }
  rewrite Hdead, Htag. cbn beta iota. rewrite Hwire. cbn [Z.eqb Pos.eqb].
  rewrite Hlen. cbn beta iota.
  assert (Hgt : (p2 + length >? len data) = true).
  { rewrite Z.gtb_ltb. apply Z.ltb_lt. lia. }
  rewrite Hgt. reflexivity.
Qed.

Lemma ble_truncated_field_witness :
  Ble.parse_event [x52; x14; x08; x07; x15; x00; x00]
  = Some (Some "TRUNCATED"%string,
          Some (Ble.TruncatedDetails (Z.shiftr 82 3) 20
                  (len [x52; x14; x08; x07; x15; x00; x00] - 2)
                  (hex [x52; x14; x08; x07; x15; x00; x00]))).
Proof.
  apply (ble_truncated_field [x52; x14; x08; x07; x15; x00; x00] 0 None None
           82 1 20 2).
  - left. reflexivity.
  - reflexivity.
  - reflexivity.
  - reflexivity.
  - reflexivity.
  - reflexivity.
Defined.

(** The frame of the spec's example: field 10, declared length 20, five
    bytes left. *)
Example ble_truncated_20_5 :
  Ble.parse_event [x52; x14; x08; x07; x15; x00; x00]
  = Some (Some "TRUNCATED"%string,
          Some (Ble.TruncatedDetails 10 20 5 "52140807150000")).
Proof. reflexivity. Qed.

(** C1: read_esp.py's [parse_event] has no such check. On the same frame
    (field 10, declared length 20, five bytes left) it takes the five
    bytes there are as the submessage and returns a distance event without
    a distance, where read_ble.py's returns TRUNCATED with expected 20 and
    available 5. *)
Theorem esp_parse_event_truncated_frame :
  Esp.parse_event [x52; x14; x08; x07; x15; x00; x00]
  = Some (Some "distance"%string,
          Some (Esp.DistanceDetails 7 float_zero false "0807150000"))
  /\ Ble.parse_event [x52; x14; x08; x07; x15; x00; x00]
     = Some (Some "TRUNCATED"%string,
             Some (Ble.TruncatedDetails 10 20 5 "52140807150000")).
Proof. split; reflexivity. Qed.

(** ** Several recognized fields in one frame *)

Lemma next_event_type_other (et : option string) (t : Z * Z) :
  snd t <> 2 -> next_event_type et t = et.
Proof.
  intros Hw. unfold next_event_type. apply Z.eqb_neq in Hw. rewrite Hw.
  reflexivity.
Qed.

Lemma fold_next_event_type_other (tags : list (Z * Z)) (et : option string) :
  (forall t, In t tags -> snd t <> 2) ->
  fold_left next_event_type tags et = et.
Proof.
  revert et. induction tags as [|t tags IH]; intros et Hall; [reflexivity|].
  cbn [fold_left]. rewrite next_event_type_other by (apply Hall; left; reflexivity).
  apply IH. intros t' Ht'. apply Hall. right. exact Ht'.
Qed.

Lemma ble_loop_event_type (data : bytes) (fuel : nat) :
  forall pos et det et' det',
    0 <= pos ->
    while_loop (Ble.parse_event_body data) fuel (pos, et, det)
    = Some (et', det') ->
    et' = Some "TRUNCATED"%string
    \/ et' = fold_left next_event_type
               (flat_map (fun st : Ble.event_state => tag_at data (fst (fst st)))
                  (loop_states (Ble.parse_event_body data) fuel (pos, et, det)))
               et.
Proof.
  induction fuel as [|fuel IH]; intros pos et det et' det' H0 Hrun;
    [discriminate|].
  cbn [while_loop loop_states flat_map fst] in Hrun |- *.
  rewrite fold_left_app.
  destruct (ble_body_pass data pos et det H0) as [f [Hf Hcase]].
  rewrite Hf in Hrun |- *. destruct f as [[[pos1 et1] det1]|[et1 det1]].
  - destruct Hcase as (Hlt & _ & (t & Htag & ->) & _).
    rewrite Htag. cbn [fold_left].
    apply (IH pos1 _ det1 et' det'); [lia | exact Hrun].
  - injection Hrun as <- <-.
    destruct Hcase as [(-> & _ & Hother)|(-> & _)]; [right | left; reflexivity].
    cbn [flat_map fold_left]. symmetry.
    apply fold_next_event_type_other. exact Hother.
Qed.

Lemma esp_loop_event_type (data : bytes) (fuel : nat) :
  forall pos et det et' det',
    0 <= pos ->
    while_loop (Esp.parse_event_body data) fuel (pos, et, det)
    = Some (et', det') ->
    et' = fold_left next_event_type
            (flat_map (fun st : Esp.event_state => tag_at data (fst (fst st)))
               (loop_states (Esp.parse_event_body data) fuel (pos, et, det)))
            et.
Proof.
  induction fuel as [|fuel IH]; intros pos et det et' det' H0 Hrun;
    [discriminate|].
  cbn [while_loop loop_states flat_map fst] in Hrun |- *.
  rewrite fold_left_app.
  destruct (esp_body_pass data pos et det H0) as [f [Hf Hcase]].
  rewrite Hf in Hrun |- *. destruct f as [[[pos1 et1] det1]|[et1 det1]].
  - destruct Hcase as (Hlt & _ & (t & Htag & ->) & _).
    rewrite Htag. cbn [fold_left].
    apply (IH pos1 _ det1 et' det'); [lia | exact Hrun].
  - injection Hrun as <- <-. destruct Hcase as (-> & _ & Hother).
    cbn [flat_map fold_left]. symmetry.
    apply fold_next_event_type_other. exact Hother.
Qed.

Lemma recognized_fields_app (tags1 tags2 : list (Z * Z)) :
  recognized_fields (tags1 ++ tags2)
  = recognized_fields tags1 ++ recognized_fields tags2.
Proof.
  unfold recognized_fields. rewrite filter_app, map_app. reflexivity.
Qed.

(** Among the tags read, the last recognized length-delimited field names
    the event type, whatever came before it. *)
Lemma fold_next_event_type_last (tags : list (Z * Z)) :
  forall et l n,
    recognized_fields tags = l ++ [n] ->
    fold_left next_event_type tags et = Some (event_name n).
Proof.
  induction tags as [|t tags IH] using rev_ind; intros et l n Hrec.
  - destruct l; discriminate.
  - rewrite fold_left_app. cbn [fold_left].
    rewrite recognized_fields_app in Hrec.
    unfold recognized_fields at 2 in Hrec. cbn [filter] in Hrec.
    destruct (snd t =? 2) eqn:Ew; cbn [andb] in Hrec.
    + destruct (recognized (fst t)) eqn:Er; cbn [map] in Hrec.
      * apply app_inj_tail in Hrec. destruct Hrec as [_ <-].
        unfold next_event_type. rewrite Ew, Er. reflexivity.
      * rewrite app_nil_r in Hrec. rewrite (IH et l n Hrec).
        unfold next_event_type. rewrite Ew, Er.
        destruct (fst t =? 6); reflexivity.
    + cbn [map] in Hrec. rewrite app_nil_r in Hrec.
      rewrite next_event_type_other by (apply Z.eqb_neq; exact Ew).
      apply (IH et l n Hrec).
Qed.

(** ** What a pass of read_ble.py's [parse_event] does *)

Ltac step_next Htag :=
  eexists;
  split;
  [ reflexivity
  | split;
    [ lia
    | split;
      [ reflexivity
      | eexists; split;
        [ exact Htag
        | split;
          [ next_type_done
          | first
              [ intros _; reflexivity
              | let H := fresh in
                intros H; unfold recognized_fields, recognized in H;
                cbn [filter map fst snd] in H;
                repeat match goal with
                       | E : (_ =? _) = _ |- _ => rewrite E in H
                       end;
                cbn [orb andb map] in H; discriminate H ] ] ] ] ] ].

(** A pass that goes round again has read a whole field; it sets the
    details only from a recognized length-delimited field. A pass that
    returns does so with TRUNCATED when the field it reads is cut short,
    and with the event type and the details it had otherwise. *)
Lemma ble_body_step (data : bytes) (pos : Z) (et : option string)
    (det : option Ble.details) :
  0 <= pos ->
  exists f, Ble.parse_event_body data (pos, et, det) = Some f /\
    match f with
    | Next (pos', et', det') =>
        pos < pos' /\ cut_short_at data pos = false
        /\ exists t, tag_at data pos = [t] /\ et' = next_event_type et t
             /\ (recognized_fields [t] = [] -> det' = det)
    | Done (et', det') =>
        if cut_short_at data pos
        then et' = Some "TRUNCATED"%string
             /\ exists field expected available,
                  det' = Some (Ble.TruncatedDetails field expected available
                                 (hex data))
        else et' = et /\ det' = det
             /\ forall t, In t (tag_at data pos) -> snd t <> 2
    end.
Proof.
  intros H0. unfold Ble.parse_event_body, cut_short_at.
  destruct (pos <? len data) eqn:Hguard.
  2:{ apply Z.ltb_ge in Hguard. eexists; split; [reflexivity|].
      rewrite (tag_at_end data pos Hguard). repeat split. intros t []. }
  apply Z.ltb_lt in Hguard.
  destruct (pos >=? len data) eqn:Hdead.
  { apply Z.geb_le in Hdead. lia. }
  call_varint data pos.
  pose proof (tag_at_read data pos v p Hguard E) as Htag.
  destruct (Z.land v 7 =? 2) eqn:Ew.
  - call_varint data p.
    destruct (p0 + v0 >? len data) eqn:Htr.
    { eexists; split; [reflexivity|]. cbn beta iota. split; [reflexivity|].
      do 3 eexists. reflexivity. }
    rewrite Z.gtb_ltb in Htr. apply Z.ltb_ge in Htr.
    field_cases (Z.shiftr v 3).
    + destruct (parse_distance_measurement_returns
                  (slice data p0 (p0 + v0))) as [[[sid dist] has] Edm].
      rewrite Edm. step_next Htag.
    + step_next Htag.
    + step_next Htag.
    + step_next Htag.
    + step_next Htag.
    + destruct et as [name|]; step_next Htag.
  - destruct (Z.land v 7 =? 0) eqn:Ew0.
    { call_varint data p. step_next Htag. }
    destruct (Z.land v 7 =? 1) eqn:Ew1.
    { step_next Htag. }
    destruct (Z.land v 7 =? 5) eqn:Ew5.
    { step_next Htag. }
    eexists; split; [reflexivity|]. cbn beta iota. repeat split.
    intros t Ht. rewrite Htag in Ht. destruct Ht as [<-|[]]. cbn [snd].
    apply Z.eqb_neq. exact Ew.
Qed.

Lemma recognized_fields_nil_app (tags1 tags2 : list (Z * Z)) :
  recognized_fields (tags1 ++ tags2) = [] ->
  recognized_fields tags1 = [] /\ recognized_fields tags2 = [].
Proof.
  rewrite recognized_fields_app. apply app_eq_nil.
Qed.

(** The whole loop: TRUNCATED when a pass comes to a field that is cut
    short, and otherwise the event type the fields read give in turn, with
    the details unchanged when none of them is recognized. *)
Lemma ble_loop_step (data : bytes) (fuel : nat) :
  forall pos et det et' det',
    0 <= pos ->
    while_loop (Ble.parse_event_body data) fuel (pos, et, det)
    = Some (et', det') ->
    if existsb (fun st : Ble.event_state => cut_short_at data (fst (fst st)))
         (loop_states (Ble.parse_event_body data) fuel (pos, et, det))
    then et' = Some "TRUNCATED"%string
         /\ exists field expected available,
              det' = Some (Ble.TruncatedDetails field expected available
                             (hex data))
    else et' = fold_left next_event_type
                 (flat_map
                    (fun st : Ble.event_state => tag_at data (fst (fst st)))
                    (loop_states (Ble.parse_event_body data) fuel
                       (pos, et, det)))
                 et
         /\ (recognized_fields
               (flat_map
                  (fun st : Ble.event_state => tag_at data (fst (fst st)))
                  (loop_states (Ble.parse_event_body data) fuel
                     (pos, et, det))) = [] ->
             det' = det).
Proof.
  induction fuel as [|fuel IH]; intros pos et det et' det' H0 Hrun;
    [discriminate|].
  cbn [while_loop loop_states flat_map existsb fst] in Hrun |- *.
  destruct (ble_body_step data pos et det H0) as [f [Hf Hcase]].
  rewrite Hf in Hrun |- *. destruct f as [[[pos1 et1] det1]|[et1 det1]].
  - destruct Hcase as (Hlt & Hcut & t & Htag & -> & Hdet).
    rewrite Hcut, Htag. cbn [orb app fold_left].
    assert (Hpos1 : 0 <= pos1) by lia.
    pose proof (IH pos1 _ det1 et' det' Hpos1 Hrun) as Hrest.
    destruct (existsb _ _); [exact Hrest|].
    destruct Hrest as [Het Hkeep]. split; [exact Het|].
    intros Hrec. change (t :: ?l) with ([t] ++ l) in Hrec.
    apply recognized_fields_nil_app in Hrec. destruct Hrec as [Ht Hl].
    rewrite (Hkeep Hl). apply Hdet. exact Ht.
  - injection Hrun as <- <-. cbn [existsb flat_map]. rewrite orb_false_r.
    rewrite app_nil_r.
    destruct (cut_short_at data pos); [exact Hcase|].
    destruct Hcase as (-> & -> & Hother). split; [|reflexivity].
    symmetry. apply fold_next_event_type_other. exact Hother.
Qed.

Lemma ble_parse_event_step (data : bytes) :
  exists et det,
    Ble.parse_event data = Some (et, det)
    /\ if ble_cut_short data
       then et = Some "TRUNCATED"%string
            /\ exists field expected available,
                 det = Some (Ble.TruncatedDetails field expected available
                               (hex data))
       else et = fold_left next_event_type (ble_fields_read data) None
            /\ (recognized_fields (ble_fields_read data) = [] -> det = None).
Proof.
  destruct (ble_parse_event_returns data) as [[et det] Hrun].
  exists et, det. split; [exact Hrun|].
  exact (ble_loop_step data _ 0 None None et det (Z.le_refl 0) Hrun).
Qed.

(** read_esp.py: the details stay as they are through a frame in which no
    recognized field is read. *)
Lemma esp_loop_keeps_details (data : bytes) (fuel : nat) :
  forall pos et det et' det',
    0 <= pos ->
    while_loop (Esp.parse_event_body data) fuel (pos, et, det)
    = Some (et', det') ->
    recognized_fields
      (flat_map (fun st : Esp.event_state => tag_at data (fst (fst st)))
         (loop_states (Esp.parse_event_body data) fuel (pos, et, det))) = [] ->
    det' = det.
Proof.
  induction fuel as [|fuel IH]; intros pos et det et' det' H0 Hrun Hrec;
    [discriminate|].
  cbn [while_loop loop_states flat_map fst] in Hrun, Hrec.
  apply recognized_fields_nil_app in Hrec. destruct Hrec as [Ht Hl].
  destruct (esp_body_pass data pos et det H0) as [f [Hf Hcase]].
  rewrite Hf in Hrun, Hl. destruct f as [[[pos1 et1] det1]|[et1 det1]].
  - destruct Hcase as (Hlt & Hin & _ & _).
    rewrite (IH pos1 et1 det1 et' det' ltac:(lia) Hrun Hl).
    revert Hf Ht. unfold Esp.parse_event_body, tag_at.
    apply Z.ltb_lt in Hin. rewrite Hin.
    destruct (decode_varint data pos) as [[tag p]|]; [|discriminate].
    cbn beta iota. unfold recognized_fields, recognized.
    cbn [filter fst snd].
    destruct (Z.land tag 7 =? 2) eqn:Ew; cbn [andb].
    + destruct (decode_varint data p) as [[length p']|]; [|discriminate].
      cbn beta iota. field_cases (Z.shiftr tag 3); cbn [orb map];
        try discriminate.
      * intros H _. injection H as _ _ <-. reflexivity.
      * destruct et; intros H _; injection H as _ _ <-; reflexivity.
    + intros H _. destruct (Z.land tag 7 =? 0).
      { destruct (decode_varint data p) as [[? ?]|]; [|discriminate].
        injection H as _ _ <-. reflexivity. }
      destruct (Z.land tag 7 =? 1); [injection H as _ _ <-; reflexivity|].
      destruct (Z.land tag 7 =? 5); [injection H as _ _ <-; reflexivity|].
      discriminate.
  - injection Hrun as _ <-. destruct Hcase as (_ & -> & _). reflexivity.
Qed.

(** C3, as the code has it: when a frame holds recognized length-delimited
    fields (10, 12, 13, 14), the event type [parse_event] returns is the
    one of the last of them that it reads; every recognized field
    overwrites the type an earlier one set. read_ble.py returns TRUNCATED
    instead when, and only when, it comes to a length-delimited field that
    is cut short. *)
Theorem last_recognized_field_wins (data : bytes) (l : list Z) (n : Z) :
  (recognized_fields (ble_fields_read data) = l ++ [n] ->
   exists det,
     Ble.parse_event data
     = Some (if ble_cut_short data then Some "TRUNCATED"%string
             else Some (event_name n),
             det))
  /\ (recognized_fields (esp_fields_read data) = l ++ [n] ->
      exists det, Esp.parse_event data = Some (Some (event_name n), det)).
Proof.
  split; intros Hrec.
  - destruct (ble_parse_event_step data) as (et & det & Hrun & Hcase).
    exists det. rewrite Hrun. f_equal. f_equal.
    destruct (ble_cut_short data); [exact (proj1 Hcase)|].
    rewrite (proj1 Hcase).
    apply (fold_next_event_type_last _ None l n). exact Hrec.
  - destruct (esp_parse_event_returns data) as [[et det] Hrun].
    exists det. rewrite Hrun. f_equal. f_equal.
    rewrite (esp_loop_event_type data _ 0 None None et det (Z.le_refl 0) Hrun).
    apply (fold_next_event_type_last _ None l n). exact Hrec.
Qed.

Lemma last_recognized_field_wins_witness :
  (exists det,
     Ble.parse_event [x62; x00; x6a; x00]
     = Some (Some "userInput"%string, det))
  /\ (exists det,
        Ble.parse_event [x62; x00; x6a; x00; x3a; x05]
        = Some (Some "TRUNCATED"%string, det))
  /\ (exists det,
        Esp.parse_event [x62; x00; x6a; x00; x3a; x05]
        = Some (Some "userInput"%string, det)).
Proof.
  split; [|split].
  - apply (proj1 (last_recognized_field_wins [x62; x00; x6a; x00] [12] 13)).
    reflexivity.
  - apply (proj1 (last_recognized_field_wins
                    [x62; x00; x6a; x00; x3a; x05] [12] 13)).
    reflexivity.
  - apply (proj2 (last_recognized_field_wins
                    [x62; x00; x6a; x00; x3a; x05] [12] 13)).
    reflexivity.
Defined.

(** The frame with field 12 and then field 13, both empty: the first
    recognized field is 12 (geolocation), and both readers return
    [userInput], the type of the later field 13. *)
Lemma first_recognized_field_overwritten :
  encode_len_field 12 [] ++ encode_len_field 13 [] = [x62; x00; x6a; x00]
  /\ recognized_fields (ble_fields_read [x62; x00; x6a; x00]) = [12; 13]
  /\ recognized_fields (esp_fields_read [x62; x00; x6a; x00]) = [12; 13]
  /\ Ble.parse_event [x62; x00; x6a; x00] = Some (Some "userInput"%string, None)
  /\ Esp.parse_event [x62; x00; x6a; x00] = Some (Some "userInput"%string, None)
  /\ Some "userInput"%string <> Some (event_name 12).
Proof.
  repeat split; try reflexivity. discriminate.
Qed.

(** A distance field followed by a geolocation field: the type is the
    later field's, and the details are still the distance's. *)
Example distance_then_geolocation :
  Ble.parse_event [x52; x02; x08; x07; x62; x00]
  = Some (Some "geolocation"%string,
          Some (Ble.DistanceDetails 7 float_zero false "0807" 2)).
Proof. reflexivity. Qed.

(** ** The distance field *)

(** What a pass of [parse_distance_measurement] that goes round again does
    to [distance] and [has_distance]: it sets them from a field 2 of wire
    type 5 with its four bytes in the buffer, and leaves them alone
    otherwise. *)
Lemma dm_body_next (data : bytes) (st st' : dm_state) :
  0 <= dm_pos st ->
  parse_distance_measurement_body data st = Some (Next st') ->
  dm_pos st < dm_pos st'
  /\ ((tag_at data (dm_pos st) = [(2, 5)]
       /\ dm_pos st + 4 < dm_pos st' <= len data)
      \/ (dm_distance st' = dm_distance st
          /\ dm_has_distance st' = dm_has_distance st)).
Proof.
  intros H0. unfold parse_distance_measurement_body.
  destruct (dm_pos st <? len data) eqn:Hguard; [|discriminate].
  apply Z.ltb_lt in Hguard.
  call_varint data (dm_pos st).
  pose proof (tag_at_read data _ v p Hguard E) as Htag.
  destruct ((Z.shiftr v 3 =? 1) && (Z.land v 7 =? 0)).
  { call_varint data p. intros H; injection H as <-. cbn. split; [lia|auto]. }
  destruct ((Z.shiftr v 3 =? 2) && (Z.land v 7 =? 5)) eqn:E25.
  { apply andb_prop in E25. destruct E25 as [E2 E5].
    apply Z.eqb_eq in E2, E5. rewrite E2, E5 in Htag.
    destruct (p + 4 <=? len data) eqn:Hfit;
      intros H; injection H as <-; cbn; (split; [lia|]).
    - left. apply Z.leb_le in Hfit. split; [exact Htag | lia].
    - right. auto. }
  destruct (Z.land v 7 =? 0).
  { call_varint data p. intros H; injection H as <-. cbn. split; [lia|auto]. }
  destruct (Z.land v 7 =? 1).
  { intros H; injection H as <-. cbn. split; [lia|auto]. }
  destruct (Z.land v 7 =? 2).
  { call_varint data p. intros H; injection H as <-. cbn. split; [lia|auto]. }
  destruct (Z.land v 7 =? 5).
  { intros H; injection H as <-. cbn. split; [lia|auto]. }
  discriminate.
Qed.

Lemma dm_body_done (data : bytes) (st : dm_state) (r : Z * py_float * bool) :
  parse_distance_measurement_body data st = Some (Done r) ->
  r = dm_return st.
Proof.
  unfold parse_distance_measurement_body.
  destruct (dm_pos st <? len data); [|congruence].
  destruct (decode_varint data (dm_pos st)) as [[tag pos]|]; [|discriminate].
  destruct ((Z.shiftr tag 3 =? 1) && (Z.land tag 7 =? 0)).
  { destruct (decode_varint data pos) as [[? ?]|]; discriminate. }
  destruct ((Z.shiftr tag 3 =? 2) && (Z.land tag 7 =? 5)).
  { destruct (pos + 4 <=? len data); discriminate. }
  destruct (Z.land tag 7 =? 0).
  { destruct (decode_varint data pos) as [[? ?]|]; discriminate. }
  destruct (Z.land tag 7 =? 1); [discriminate|].
  destruct (Z.land tag 7 =? 2).
  { destruct (decode_varint data pos) as [[? ?]|]; discriminate. }
  destruct (Z.land tag 7 =? 5); [discriminate|]. congruence.
Qed.

(** A run in which no tag read is field 2 with wire type 5 returns the
    [distance] and [has_distance] it started with. *)
Lemma dm_loop_without_distance (data : bytes) (fuel : nat) :
  forall st sid dist has,
    0 <= dm_pos st ->
    while_loop (parse_distance_measurement_body data) fuel st
    = Some (sid, dist, has) ->
    ~ In (2, 5)
        (flat_map (fun st => tag_at data (dm_pos st))
           (loop_states (parse_distance_measurement_body data) fuel st)) ->
    dist = dm_distance st /\ has = dm_has_distance st.
Proof.
  induction fuel as [|fuel IH]; intros st sid dist has H0 Hrun Hno;
    [discriminate|].
  cbn [while_loop loop_states flat_map] in Hrun, Hno.
  rewrite in_app_iff in Hno.
  destruct (parse_distance_measurement_body data st) as [[st1|r]|] eqn:Hbody;
    [| |discriminate].
  - destruct (dm_body_next data st st1 H0 Hbody) as [Hlt [[Htag _]|[Hd Hh]]].
    + exfalso. apply Hno. left. rewrite Htag. left. reflexivity.
    + rewrite <- Hd, <- Hh. apply (IH st1 sid); [lia | exact Hrun | tauto].
  - apply dm_body_done in Hbody. injection Hrun as ->. unfold dm_return in Hbody.
    injection Hbody as _ -> ->. auto.
Qed.

(** Once fewer than four bytes are left, no later pass can set the
    distance. *)
Lemma dm_loop_short_tail (data : bytes) (fuel : nat) :
  forall st sid dist has,
    0 <= dm_pos st -> len data < dm_pos st + 4 ->
    while_loop (parse_distance_measurement_body data) fuel st
    = Some (sid, dist, has) ->
    dist = dm_distance st /\ has = dm_has_distance st.
Proof.
  induction fuel as [|fuel IH]; intros st sid dist has H0 Hshort Hrun;
    [discriminate|].
  cbn [while_loop] in Hrun.
  destruct (parse_distance_measurement_body data st) as [[st1|r]|] eqn:Hbody;
    [| |discriminate].
  - destruct (dm_body_next data st st1 H0 Hbody) as [Hlt Hcase].
    destruct (IH st1 sid dist has) as [Hd Hh]; [lia | lia | exact Hrun |].
    destruct Hcase as [[Htag Hend]|[Hd1 Hh1]]; [|rewrite Hd, Hh; auto].
    lia.
  - apply dm_body_done in Hbody. injection Hrun as ->. unfold dm_return in Hbody.
    injection Hbody as _ -> ->. auto.
Qed.

Lemma dm_pass_source_id (pre post : bytes) (v sid : Z) (dist : py_float)
    (has : bool) :
  0 <= v ->
  parse_distance_measurement_body
    (pre ++ encode_tag 1 0 ++ encode_varint v ++ post)
    (mk_dm sid dist has (len pre))
  = Some (Next (mk_dm v dist has (len pre + 1 + len (encode_varint v)))).
Proof.
  intros Hv. change (encode_tag 1 0) with [x08].
  pose proof (decode_varint_encoding pre (encode_varint v ++ post) 8
                ltac:(lia)) as H1.
  change (encode_varint 8) with [x08] in H1.
  pose proof (decode_varint_encoding (pre ++ [x08]) post v Hv) as H2.
  rewrite <- app_assoc, len_app in H2. change (len [x08]) with 1 in H1, H2.
  unfold parse_distance_measurement_body. cbn [dm_pos dm_source_id
    dm_distance dm_has_distance].
  assert (Hguard : (len pre <? len (pre ++ [x08] ++ encode_varint v ++ post))
                   = true).
  { apply Z.ltb_lt. rewrite !len_app. change (len [x08]) with 1.
    pose proof (len_nonneg (encode_varint v)). pose proof (len_nonneg post).
    lia. }
  rewrite Hguard, H1. cbn beta iota.
  change ((Z.shiftr 8 3 =? 1) && (Z.land 8 7 =? 0)) with true. cbn iota.
  rewrite H2. reflexivity.
Qed.

Lemma dm_pass_distance (pre post b : bytes) (sid : Z) (dist : py_float)
    (has : bool) :
  len b = 4 ->
  parse_distance_measurement_body (pre ++ encode_tag 2 5 ++ b ++ post)
    (mk_dm sid dist has (len pre))
  = Some (Next (mk_dm sid (unpack_f32_le b) true (len pre + 5))).
Proof.
  intros Hb. change (encode_tag 2 5) with [x15].
  pose proof (decode_varint_encoding pre (b ++ post) 21 ltac:(lia)) as H1.
  change (encode_varint 21) with [x15] in H1. change (len [x15]) with 1 in H1.
  pose proof (slice_app (pre ++ [x15]) b post) as H2.
  rewrite <- app_assoc, len_app in H2. change (len [x15]) with 1 in H2.
  unfold parse_distance_measurement_body. cbn [dm_pos dm_source_id
    dm_distance dm_has_distance].
  assert (Hlen : len (pre ++ [x15] ++ b ++ post) = len pre + 5 + len post).
  { rewrite !len_app. change (len [x15]) with 1. lia. }
  pose proof (len_nonneg post) as Hpost.
  assert (Hguard : (len pre <? len (pre ++ [x15] ++ b ++ post)) = true)
    by (apply Z.ltb_lt; lia).
  rewrite Hguard, H1. cbn beta iota.
  change ((Z.shiftr 21 3 =? 1) && (Z.land 21 7 =? 0)) with false.
  change ((Z.shiftr 21 3 =? 2) && (Z.land 21 7 =? 5)) with true. cbn iota.
  assert (Hfit : (len pre + 1 + 4 <=? len (pre ++ [x15] ++ b ++ post)) = true)
    by (apply Z.leb_le; lia).
  rewrite Hfit.
  replace (len pre + 1 + 4) with (len pre + 1 + len b) by lia.
  rewrite H2. do 3 f_equal. lia.
Qed.

Lemma dm_pass_end (data : bytes) (st : dm_state) :
  len data <= dm_pos st ->
  parse_distance_measurement_body data st = Some (Done (dm_return st)).
Proof.
  intros Hend. unfold parse_distance_measurement_body.
  apply Z.ltb_ge in Hend. rewrite Hend. reflexivity.
Qed.

(** The submessage "field 1 = varint v, field 2 = fixed32 b". *)
Lemma parse_source_id_and_distance (v : Z) (b : bytes) :
  0 <= v -> len b = 4 ->
  parse_distance_measurement
    (encode_tag 1 0 ++ encode_varint v ++ encode_tag 2 5 ++ b)
  = Some (v, unpack_f32_le b, true).
Proof.
  intros Hv Hb. unfold parse_distance_measurement.
  set (data := encode_tag 1 0 ++ encode_varint v ++ encode_tag 2 5 ++ b).
  apply (while_loop_more_fuel _ 3).
  2:{ subst data. rewrite !length_app. change (List.length (encode_tag 1 0))
        with 1%nat. change (List.length (encode_tag 2 5)) with 1%nat.
      unfold len in Hb. lia. }
  cbn [while_loop].
  pose proof (dm_pass_source_id [] (encode_tag 2 5 ++ b) v 0 float_zero false Hv)
    as P1.
  cbn [app] in P1. change (len []) with 0 in P1. fold data in P1.
  rewrite P1.
  pose proof (dm_pass_distance (encode_tag 1 0 ++ encode_varint v) [] b v
                float_zero false Hb) as P2.
  rewrite app_nil_r, <- app_assoc in P2. fold data in P2.
  rewrite len_app in P2. change (len (encode_tag 1 0)) with 1 in P2.
  replace (0 + 1 + len (encode_varint v)) with (1 + len (encode_varint v))
    by lia.
  rewrite P2. rewrite dm_pass_end; [reflexivity|].
  cbn [dm_pos]. subst data. rewrite !len_app.
  change (len (encode_tag 1 0)) with 1. change (len (encode_tag 2 5)) with 1.
  lia.
Qed.

Lemma loop_states_resume {S R : Type} (body : S -> option (flow S R))
    (fuel : nat) :
  forall s0 s,
    In s (loop_states body fuel s0) ->
    exists fuel', while_loop body fuel s0 = while_loop body fuel' s.
Proof.
  induction fuel as [|fuel IH]; intros s0 s Hin; [destruct Hin|].
  cbn [loop_states] in Hin. destruct Hin as [<-|Hin].
  - exists (Datatypes.S fuel). reflexivity.
  - cbn [while_loop].
    destruct (body s0) as [[s1|r1]|]; try destruct Hin.
    apply (IH s1 s). exact Hin.
Qed.

Example unpack_f32_le_values :
  unpack_f32_le [x00; x00; x50; x40] = S754_finite false 13631488 (-22)
  /\ unpack_f32_le [x00; x00; x80; x3f] = S754_finite false 8388608 (-23)
  /\ unpack_f32_le [x00; x00; x20; xc0] = S754_finite true 10485760 (-22)
  /\ unpack_f32_le [x00; x00; x00; x00] = S754_zero false
  /\ unpack_f32_le [x00; x00; x00; x80] = S754_zero true
  /\ unpack_f32_le [x01; x00; x00; x00] = S754_finite false 1 (-149)
  /\ unpack_f32_le [x00; x00; x80; x7f] = S754_infinity false
  /\ unpack_f32_le [x00; x00; xc0; x7f] = S754_nan.
Proof. repeat split. Qed.

(** C6: [parse_distance_measurement] takes field 1 with wire type 0 as
    [source_id] and field 2 with wire type 5 as the little-endian binary32
    [distance], with [has_distance] true: the submessage made of field 1 =
    varint [v] and field 2 = the four bytes [b] decodes to [(v, the float
    of b, True)]; with [v = 7] and the bytes of 3.25 that is [(7, 3.25,
    True)]. In every byte string in which the decoder reads no tag with
    field number 2, the result has [distance] 0.0 and [has_distance]
    False. *)
Theorem distance_measurement_fields :
  (forall v b, 0 <= v -> len b = 4 ->
     parse_distance_measurement
       (encode_tag 1 0 ++ encode_varint v ++ encode_tag 2 5 ++ b)
     = Some (v, unpack_f32_le b, true))
  /\ (exists d,
        parse_distance_measurement [x08; x07; x15; x00; x00; x50; x40]
        = Some (7, d, true)
        /\ d = S754_finite false 13631488 (-22)
        /\ exists q, float_to_Q d = Some q /\ (q == 13 # 4)%Q)
  /\ (forall data,
        (forall w, ~ In (2, w) (dm_fields_read data)) ->
        exists sid,
          parse_distance_measurement data = Some (sid, float_zero, false)).
Proof.
  split; [|split].
  - exact parse_source_id_and_distance.
  - exists (S754_finite false 13631488 (-22)).
    split; [reflexivity|]. split; [reflexivity|].
    eexists. split; [reflexivity|]. reflexivity.
  - intros data Hno.
    destruct (parse_distance_measurement_returns data) as [[[sid dist] has] Hrun].
    exists sid. rewrite Hrun.
    destruct (dm_loop_without_distance data _ (mk_dm 0 float_zero false 0)
                sid dist has (Z.le_refl 0) Hrun (Hno 5)) as [-> ->].
    reflexivity.
Qed.

Lemma distance_measurement_fields_witness :
  parse_distance_measurement
    (encode_tag 1 0 ++ encode_varint 7 ++ encode_tag 2 5 ++ [x00; x00; x50; x40])
  = Some (7, unpack_f32_le [x00; x00; x50; x40], true)
  /\ exists sid, parse_distance_measurement [x08; x01]
                 = Some (sid, float_zero, false).
Proof.
  split.
  - apply (proj1 distance_measurement_fields 7 [x00; x00; x50; x40]).
    + lia.
    + reflexivity.
  - apply (proj2 (proj2 distance_measurement_fields) [x08; x01]).
    intros w Hin. vm_compute in Hin. destruct Hin as [Hin|[]]. discriminate.
Defined.

(** C7, as the code has it: when [parse_distance_measurement] has read the
    tag of field 2 with wire type 5 and fewer than four bytes follow it,
    the pass changes neither [distance] nor [has_distance] (nor
    [source_id]) and the function returns, with the [distance] and
    [has_distance] it had before that field. The field is not skipped:
    only the tag is consumed, and decoding goes on right behind it, so the
    one to three bytes that are left are read as further fields. *)
Theorem short_fixed32_not_decoded (data : bytes) (st : dm_state)
    (tag p1 : Z) :
  0 <= dm_pos st < len data ->
  decode_varint data (dm_pos st) = Some (tag, p1) ->
  Z.shiftr tag 3 = 2 -> Z.land tag 7 = 5 ->
  len data < p1 + 4 ->
  parse_distance_measurement_body data st
  = Some (Next (mk_dm (dm_source_id st) (dm_distance st)
                  (dm_has_distance st) p1))
  /\ dm_pos st < p1 <= len data
  /\ (In st (loop_states (parse_distance_measurement_body data)
               (S (List.length data)) (mk_dm 0 float_zero false 0)) ->
      parse_distance_measurement data
      = while_loop (parse_distance_measurement_body data)
          (S (List.length data))
          (mk_dm (dm_source_id st) (dm_distance st) (dm_has_distance st) p1)
      /\ exists sid,
           parse_distance_measurement data
           = Some (sid, dm_distance st, dm_has_distance st)).
Proof.
  intros Hpos Htag Hnum Hwire Hshort.
  assert (Hpass : parse_distance_measurement_body data st
                  = Some (Next (mk_dm (dm_source_id st) (dm_distance st)
                                  (dm_has_distance st) p1))).
  { unfold parse_distance_measurement_body.
    assert (Hguard : (dm_pos st <? len data) = true) by (apply Z.ltb_lt; lia).
    rewrite Hguard, Htag. cbn beta iota. rewrite Hnum, Hwire.
    cbn [Z.eqb Pos.eqb andb].
    assert (Hnofit : (p1 + 4 <=? len data) = false) by (apply Z.leb_gt; lia).
    rewrite Hnofit. reflexivity. }
  destruct (decode_varint_spec data (dm_pos st) (proj1 Hpos))
    as (v & p & E & _ & Hle & Hin1 & Hlt1).
  rewrite Htag in E. injection E as <- <-.
  split; [exact Hpass|]. split; [lia|].
  intros Hin.
  destruct (parse_distance_measurement_returns data) as [[[sid dist] has] Hrun].
  rewrite Hrun. unfold parse_distance_measurement in Hrun.
  destruct (loop_states_resume _ _ _ _ Hin) as [fuel' Hresume].
  rewrite Hresume in Hrun. destruct fuel' as [|fuel']; [discriminate|].
  cbn [while_loop] in Hrun. rewrite Hpass in Hrun.
  split.
  - destruct (dm_loop_returns data (S (List.length data))
                (mk_dm (dm_source_id st) (dm_distance st)
                   (dm_has_distance st) p1)) as [r Hr].
    { cbn [dm_pos]. lia. }
    { cbn [dm_pos]. unfold len. lia. }
    rewrite Hr. f_equal.
    destruct (Nat.le_ge_cases fuel' (S (List.length data))) as [Hfuel|Hfuel].
    + pose proof (while_loop_more_fuel _ _ _ _ _ Hrun Hfuel) as Hsame.
      rewrite Hr in Hsame. injection Hsame as <-. reflexivity.
    + pose proof (while_loop_more_fuel _ _ _ _ _ Hr Hfuel) as Hsame.
      rewrite Hrun in Hsame. injection Hsame as <-. reflexivity.
  - exists sid.
    assert (Hkeep := fun H1 H2 =>
              dm_loop_short_tail data fuel' _ sid dist has H1 H2 Hrun).
    cbn [dm_pos dm_distance dm_has_distance] in Hkeep.
    destruct Hkeep as [-> ->]; [lia | lia |]. reflexivity.
Qed.

Lemma short_fixed32_not_decoded_witness :
  parse_distance_measurement_body [x08; x01; x15; x08; x07]
    (mk_dm 1 float_zero false 2)
  = Some (Next (mk_dm 1 float_zero false 3))
  /\ parse_distance_measurement [x08; x01; x15; x08; x07]
     = while_loop (parse_distance_measurement_body [x08; x01; x15; x08; x07])
         6 (mk_dm 1 float_zero false 3)
  /\ exists sid,
       parse_distance_measurement [x08; x01; x15; x08; x07]
       = Some (sid, float_zero, false).
Proof.
  destruct (short_fixed32_not_decoded [x08; x01; x15; x08; x07]
              (mk_dm 1 float_zero false 2) 21 3) as (Hpass & _ & Hrun).
  - cbn. lia.
  - reflexivity.
  - reflexivity.
  - reflexivity.
  - reflexivity.
  - split; [exact Hpass|]. apply Hrun. right. left. reflexivity.
Defined.

(** The field is not skipped. In the submessage 08 01 15 08 07 the tag of
    field 2 (15, at position 2) is followed by two bytes. The pass leaves
    the position at 3, right behind the tag, and the two bytes are read as
    a second field 1: the function returns the source id 7. Had the pass
    skipped the field, adding 4 to the position as for any other field of
    wire type 5, the loop would have ended there with the source id 1. *)
Lemma short_fixed32_field_not_skipped :
  tag_at [x08; x01; x15; x08; x07] 2 = [(2, 5)]
  /\ parse_distance_measurement_body [x08; x01; x15; x08; x07]
       (mk_dm 1 float_zero false 2)
     = Some (Next (mk_dm 1 float_zero false 3))
  /\ parse_distance_measurement [x08; x01; x15; x08; x07]
     = Some (7, float_zero, false)
  /\ while_loop (parse_distance_measurement_body [x08; x01; x15; x08; x07])
       6 (mk_dm 1 float_zero false (3 + 4))
     = Some (1, float_zero, false)
  /\ dm_fields_read [x08; x01; x15; x08; x07] = [(1, 0); (2, 5); (1, 0)].
Proof.
  repeat split.
Qed.

(** After the tag only: the bytes that follow a cut-short field 2 are read
    as further fields, here as a second field 1. *)
Example short_fixed32_tail_reread :
  parse_distance_measurement [x08; x01; x15; x08; x07]
  = Some (7, float_zero, false)
  /\ parse_distance_measurement [x08; x01; x15; x00; x00; x50]
     = Some (1, float_zero, false).
Proof. split; reflexivity. Qed.

(** ** Classification of distance records *)

(** C8: for every frame that [parse_event] reads as a distance event,
    [handle_notification] of read_ble.py returns, and of its three
    classification counters it raises exactly the one the rule names:
    ZERO_NO_FIELD when [distance == 0.0] and the field was absent,
    ZERO_EXPLICIT when [distance == 0.0] and the field was present, OK
    otherwise. A frame whose submessage holds only field 1 = varint 1
    counts as ZERO_NO_FIELD; one with the fixed32 encoding of 0.0 as well
    counts as ZERO_EXPLICIT. *)
Theorem distance_classification :
  (forall st data det,
     Ble.parse_event data = Some (Some "distance"%string, det) ->
     exists sid distance has raw n st' out,
       det = Some (Ble.DistanceDetails sid distance has raw n)
       /\ Ble.handle_notification st data = Some (st', out)
       /\ (Ble.dist_zero_no_field st', Ble.dist_zero_explicit st',
           Ble.dist_ok st')
          = count_class (classification_rule distance has) st
       /\ Ble.truncated st' = Ble.truncated st)
  /\ (parse_distance_measurement [x08; x01] = Some (1, float_zero, false)
      /\ classification_rule float_zero false = ZERO_NO_FIELD
      /\ exists st' out,
           Ble.handle_notification Ble.stats_init [x52; x02; x08; x01]
           = Some (st', out)
           /\ (Ble.dist_zero_no_field st', Ble.dist_zero_explicit st',
               Ble.dist_ok st') = (1, 0, 0))
  /\ (parse_distance_measurement [x08; x01; x15; x00; x00; x00; x00]
      = Some (1, float_zero, true)
      /\ classification_rule float_zero true = ZERO_EXPLICIT
      /\ exists st' out,
           Ble.handle_notification Ble.stats_init
             [x52; x07; x08; x01; x15; x00; x00; x00; x00]
           = Some (st', out)
           /\ (Ble.dist_zero_no_field st', Ble.dist_zero_explicit st',
               Ble.dist_ok st') = (0, 1, 0)).
Proof.
  split; [|split].
  - intros st data det Hparse.
    destruct (ble_parse_event_fit data) as (et & det1 & Hparse1 & Hshape).
    rewrite Hparse in Hparse1. injection Hparse1 as <- <-.
    destruct Hshape as [(_ & Hdist & _)|(Habs & _)]; [|discriminate].
    destruct (Hdist eq_refl) as (sid & dist & has & raw & n & ->).
    exists sid, dist, has, raw, n.
    unfold Ble.handle_notification. rewrite Hparse. cbn beta iota.
    change (is_type (Some "distance"%string) "TRUNCATED") with false.
    change (is_type (Some "distance"%string) "distance") with true.
    cbn iota. unfold classification_rule.
    destruct (float_is_zero dist); destruct has; cbn [andb negb];
      do 2 eexists; repeat split.
  - split; [reflexivity|]. split; [reflexivity|].
    do 2 eexists. split; reflexivity.
  - split; [reflexivity|]. split; [reflexivity|].
    do 2 eexists. split; reflexivity.
Qed.

Lemma distance_classification_witness :
  exists sid distance has raw n st' out,
    Some (Ble.DistanceDetails 1 float_zero false "0801" 2)
    = Some (Ble.DistanceDetails sid distance has raw n)
    /\ Ble.handle_notification Ble.stats_init [x52; x02; x08; x01]
       = Some (st', out)
    /\ (Ble.dist_zero_no_field st', Ble.dist_zero_explicit st',
        Ble.dist_ok st')
       = count_class (classification_rule distance has) Ble.stats_init
    /\ Ble.truncated st' = Ble.truncated Ble.stats_init.
Proof.
  apply (proj1 distance_classification Ble.stats_init [x52; x02; x08; x01]).
  reflexivity.
Defined.

(** A distance that is not zero counts as OK. *)
Example classification_ok :
  exists st' out,
    Ble.handle_notification Ble.stats_init
      [x52; x07; x08; x07; x15; x00; x00; x50; x40]
    = Some (st', out)
    /\ (Ble.dist_zero_no_field st', Ble.dist_zero_explicit st',
        Ble.dist_ok st') = (0, 0, 1)
    /\ Ble.sid2_ok st' = 1.
Proof. do 2 eexists. repeat split. Qed.

(** ** COBS: decoding an encoding *)

Lemma cobs_copy_run (run : bytes) :
  forall pre post out,
    Esp.cobs_copy (List.length run) (pre ++ run ++ post) (len pre) out
    = Some (len pre + len run, out ++ run).
Proof.
  induction run as [|b run IH]; intros pre post out.
  - cbn [List.length Esp.cobs_copy]. rewrite len_nil, Z.add_0_r, app_nil_r.
    reflexivity.
  - cbn [List.length Esp.cobs_copy].
    assert (Hin : (len pre >=? len (pre ++ (b :: run) ++ post)) = false).
    { rewrite Z.geb_leb. apply Z.leb_gt. rewrite !len_app, len_cons.
      pose proof (len_nonneg run). pose proof (len_nonneg post). lia. }
    rewrite Hin.
    assert (Hnth : nth (Z.to_nat (len pre)) (pre ++ (b :: run) ++ post) x00 = b).
    { unfold len. rewrite Nat2Z.id. apply nth_middle. }
    rewrite Hnth.
    replace (pre ++ (b :: run) ++ post) with ((pre ++ [b]) ++ run ++ post)
      by (rewrite <- app_assoc; reflexivity).
    replace (len pre + 1) with (len (pre ++ [b]))
      by (rewrite len_app; reflexivity).
    rewrite IH. f_equal. f_equal.
    + rewrite len_app, !len_cons, len_nil. lia.
    + rewrite <- app_assoc. reflexivity.
Qed.

(** One pass of [cobs_decode] over a block: the code byte and the
    [code - 1] bytes after it. *)
Lemma cobs_block_pass (pre run post out : bytes) (c : byte) :
  byte_val c = 1 + len run ->
  Esp.cobs_decode_body (pre ++ c :: run ++ post) (len pre, out)
  = Some (Next (len pre + 1 + len run,
                if (byte_val c <? 255)
                   && match post with [] => false | _ :: _ => true end
                then (out ++ run) ++ [x00] else out ++ run)).
Proof.
  intros Hc. pose proof (len_nonneg run) as Hrun.
  pose proof (len_nonneg post) as Hpost.
  unfold Esp.cobs_decode_body.
  assert (Hlen : len (pre ++ c :: run ++ post)
                 = len pre + 1 + len run + len post).
  { rewrite len_app, len_cons, len_app. lia. }
  assert (Hguard : (len pre <? len (pre ++ c :: run ++ post)) = true)
    by (apply Z.ltb_lt; lia).
  rewrite Hguard. unfold byte_at.
  assert (Hnth : nth (Z.to_nat (len pre)) (pre ++ c :: run ++ post) x00 = c).
  { unfold len. rewrite Nat2Z.id. apply nth_middle. }
  rewrite Hnth.
  assert (Hnz : (byte_val c =? 0) = false) by (apply Z.eqb_neq; lia).
  rewrite Hnz.
  replace (Z.to_nat (byte_val c - 1)) with (List.length run)
    by (unfold len in Hc; lia).
  pose proof (cobs_copy_run run (pre ++ [c]) post out) as Hcopy.
  rewrite <- app_assoc, len_app in Hcopy. change (len [c]) with 1 in Hcopy.
  cbn [app] in Hcopy. rewrite Hcopy.
  replace (len pre + 1 + len run <? len (pre ++ c :: run ++ post))
    with (match post with [] => false | _ :: _ => true end).
  - destruct ((byte_val c <? 255)
              && match post with [] => false | _ :: _ => true end);
      reflexivity.
  - symmetry. destruct post as [|p post'].
    + apply Z.ltb_ge. rewrite Hlen, len_nil. lia.
    + apply Z.ltb_lt. rewrite Hlen, len_cons. pose proof (len_nonneg post'). lia.
Qed.

Lemma cobs_encode_from_cons (pad : bool) (payload run : bytes) :
  exists c tail, cobs_encode_from pad run payload = c :: tail.
Proof.
  revert run. induction payload as [|b rest IH]; intros run.
  - cbn [cobs_encode_from]. eauto.
  - cbn [cobs_encode_from]. destruct (byte_val b =? 0); [eauto|].
    destruct (len (run ++ [b]) =? 254); [eauto|]. apply IH.
Qed.

Lemma cobs_end_pass (data : bytes) (out : bytes) :
  Esp.cobs_decode_body data (len data, out)
  = Some (Done (Some (Esp.strip_last_zero out))).
Proof.
  unfold Esp.cobs_decode_body. rewrite Z.ltb_irrefl. reflexivity.
Qed.

Lemma cobs_loop_block (pre run post out : bytes) (c : byte) (fuel : nat) :
  byte_val c = 1 + len run ->
  while_loop (Esp.cobs_decode_body (pre ++ c :: run ++ post)) (S fuel)
    (len pre, out)
  = while_loop (Esp.cobs_decode_body ((pre ++ c :: run) ++ post)) fuel
      (len (pre ++ c :: run),
       if (byte_val c <? 255)
          && match post with [] => false | _ :: _ => true end
       then (out ++ run) ++ [x00] else out ++ run).
Proof.
  intros Hc. cbn [while_loop]. rewrite (cobs_block_pass pre run post out c Hc).
  assert (Hdata : (pre ++ c :: run) ++ post = pre ++ c :: run ++ post)
    by (rewrite <- app_assoc; reflexivity).
  rewrite Hdata, len_app, len_cons.
  replace (len pre + (1 + len run)) with (len pre + 1 + len run) by lia.
  reflexivity.
Qed.

Lemma byte_zero (b : byte) : byte_val b = 0 -> b = x00.
Proof.
  intros Hb. rewrite <- (byte_of_Z_val b), Hb. reflexivity.
Qed.

(** The decoder's loop, started on the encoding of [payload] with [run]
    pending, adds [run ++ payload] to its output. *)
Lemma cobs_decode_loop_encode (pad : bool) (payload : bytes) :
  forall run pre out fuel,
    len run < 254 ->
    (List.length (cobs_encode_from pad run payload) < fuel)%nat ->
    while_loop (Esp.cobs_decode_body (pre ++ cobs_encode_from pad run payload))
      fuel (len pre, out)
    = Some (Some (Esp.strip_last_zero (out ++ run ++ payload))).
Proof.
  induction payload as [|b rest IH]; intros run pre out fuel Hrun Hfuel.
  - cbn [cobs_encode_from] in Hfuel |- *. pose proof (len_nonneg run) as H0.
    assert (Hc : byte_val (byte_of_Z (1 + len run)) = 1 + len run)
      by (apply byte_val_of_Z; lia).
    cbn [List.length] in Hfuel.
    destruct fuel as [|[|fuel]]; [lia | lia |].
    rewrite <- (app_nil_r run) at 2.
    rewrite (cobs_loop_block pre run [] out _ _ Hc).
    rewrite andb_false_r. cbn [while_loop].
    rewrite (app_nil_r (pre ++ _ :: run)). rewrite cobs_end_pass.
    rewrite !app_nil_r. reflexivity.
  - cbn [cobs_encode_from] in Hfuel |- *. pose proof (len_nonneg run) as H0.
    destruct (byte_val b =? 0) eqn:Hb.
    + apply Z.eqb_eq in Hb. apply byte_zero in Hb. subst b.
      assert (Hc : byte_val (byte_of_Z (1 + len run)) = 1 + len run)
        by (apply byte_val_of_Z; lia).
      cbn [List.length] in Hfuel. rewrite length_app in Hfuel.
      destruct fuel as [|fuel]; [lia|].
      rewrite (cobs_loop_block pre run _ out _ _ Hc).
      destruct (cobs_encode_from_cons pad rest []) as (c' & tail & Henc).
      rewrite Hc.
      assert (Hlt : (1 + len run <? 255) = true) by (apply Z.ltb_lt; lia).
      assert (Hmore : match cobs_encode_from pad [] rest with
                      | [] => false
                      | _ :: _ => true
                      end = true) by (rewrite Henc; reflexivity).
      rewrite Hlt, Hmore. cbn [andb].
      rewrite IH; [| rewrite len_nil; lia | lia].
      do 2 f_equal. rewrite <- !app_assoc. reflexivity.
    + destruct (len (run ++ [b]) =? 254) eqn:Hfull.
      * apply Z.eqb_eq in Hfull.
        assert (Hc : byte_val xff = 1 + len (run ++ [b]))
          by (rewrite Hfull; reflexivity).
        cbn [List.length] in Hfuel. rewrite length_app in Hfuel.
        destruct fuel as [|fuel]; [lia|].
        rewrite (cobs_loop_block pre (run ++ [b]) _ out _ _ Hc).
        change (byte_val xff <? 255) with false. cbn [andb].
        assert (Hgoal : out ++ run ++ b :: rest
                        = (out ++ run ++ [b]) ++ [] ++ rest).
        { rewrite <- !app_assoc. reflexivity. }
        rewrite Hgoal.
        destruct rest as [|b' rest']; [destruct pad|].
        -- apply IH; [rewrite len_nil; lia | lia].
        -- destruct fuel as [|fuel];
             [unfold len in Hfull; lia|].
           rewrite app_nil_r. cbn [while_loop]. rewrite cobs_end_pass.
           rewrite !app_nil_r. reflexivity.
        -- apply IH; [rewrite len_nil; lia | lia].
      * apply Z.eqb_neq in Hfull.
        rewrite IH; [| | exact Hfuel].
        -- do 2 f_equal. rewrite <- !app_assoc. reflexivity.
        -- rewrite len_app in Hfull |- *. change (len [b]) with 1 in *. lia.
Qed.

(** What [cobs_decode] makes of an encoding: the payload, without its
    last byte when that byte is zero. *)
Lemma cobs_decode_of_encoding (pad : bool) (payload : bytes) :
  Esp.cobs_decode (cobs_encode pad payload)
  = Some (Some (Esp.strip_last_zero payload)).
Proof.
  unfold Esp.cobs_decode, cobs_encode.
  apply (cobs_decode_loop_encode pad payload [] [] []).
  - rewrite len_nil. lia.
  - lia.
Qed.

Lemma strip_last_zero_snoc (p : bytes) (b : byte) :
  Esp.strip_last_zero (p ++ [b]) = if byte_val b =? 0 then p else p ++ [b].
Proof.
  unfold Esp.strip_last_zero. rewrite rev_app_distr. cbn [rev app].
  rewrite removelast_last. reflexivity.
Qed.

Lemma strip_last_zero_same (payload : bytes) :
  byte_val (last payload x01) <> 0 -> Esp.strip_last_zero payload = payload.
Proof.
  intros Hlast. destruct payload as [|b0 rest] using rev_ind; [reflexivity|].
  rewrite last_last in Hlast. rewrite strip_last_zero_snoc.
  apply Z.eqb_neq in Hlast. rewrite Hlast. reflexivity.
Qed.

(** C4, as the code has it: decoding the COBS encoding of a payload gives
    the payload back when its last byte is not zero (zero bytes anywhere
    else, and the empty payload, included). [cobs_decode] drops a final
    zero of its output, so a payload that ends in a zero byte comes back
    one byte short. This holds for both conventions of closing a full
    254-byte block. *)
Theorem cobs_decode_encode (pad : bool) (payload : bytes) :
  (byte_val (last payload x01) <> 0 ->
   Esp.cobs_decode (cobs_encode pad payload) = Some (Some payload))
  /\ (forall p, payload = p ++ [x00] ->
      Esp.cobs_decode (cobs_encode pad payload) = Some (Some p))
  /\ Esp.cobs_decode (cobs_encode pad payload)
     = Some (Some (Esp.strip_last_zero payload)).
Proof.
  split; [|split].
  - intros Hlast. rewrite cobs_decode_of_encoding.
    rewrite (strip_last_zero_same payload Hlast). reflexivity.
  - intros p ->. rewrite cobs_decode_of_encoding, strip_last_zero_snoc.
    reflexivity.
  - apply cobs_decode_of_encoding.
Qed.

Lemma cobs_decode_encode_witness :
  Esp.cobs_decode (cobs_encode false [x11; x00; x00; x22])
  = Some (Some [x11; x00; x00; x22]).
Proof.
  apply (proj1 (cobs_decode_encode false [x11; x00; x00; x22])).
  cbn. lia.
Defined.

(** The payload 01 00 encodes to 02 01 01 and decodes to 01 alone. *)
Lemma cobs_trailing_zero_lost :
  cobs_encode false [x01; x00] = [x02; x01; x01]
  /\ cobs_encode true [x01; x00] = [x02; x01; x01]
  /\ Esp.cobs_decode (cobs_encode false [x01; x00]) = Some (Some [x01])
  /\ Esp.cobs_decode (cobs_encode true [x01; x00]) = Some (Some [x01])
  /\ Some (Some [x01]) <> Some (Some [x01; x00]).
Proof.
  repeat split; try reflexivity. discriminate.
Qed.

Example cobs_encode_full_block :
  cobs_encode false (repeat x05 254) = xff :: repeat x05 254
  /\ cobs_encode true (repeat x05 254) = xff :: repeat x05 254 ++ [x01]
  /\ cobs_encode false (repeat x05 255) = xff :: repeat x05 254 ++ [x02; x05].
Proof. repeat split; vm_compute; reflexivity. Qed.

(** Two delimiters in a row on the serial line: nothing is decoded, counted
    or printed. *)
Example two_delimiters_no_event :
  Esp.read_chunks Esp.reader_init [[x00; x00]] = Some Esp.reader_init.
Proof. reflexivity. Qed.

(** A frame on the serial line, with an empty frame after it. *)
Example serial_frame_then_empty :
  Esp.read_chunks Esp.reader_init [[x02; x62; x01; x00; x00; x00]; [x02]]
  = Some (Esp.mk_reader [x02] 1 0 0 [Esp.PrintGeo 1]).
Proof. reflexivity. Qed.

(** What the dropped zero does on the serial line: an event whose last
    field is an explicit distance of 0.0 ends in zero bytes, reaches
    [parse_event] one byte short, and is printed as a record without a
    distance field; the same event with a distance of 3.25 is read in
    full. *)
Example serial_explicit_zero_distance :
  Esp.read_chunks Esp.reader_init
    [cobs_encode false [x52; x07; x08; x01; x15; x00; x00; x00; x00] ++ [x00]]
  = Some (Esp.mk_reader [] 1 1 0
            [Esp.PrintDist 1 1 float_zero false "080115000000"
               " *** ZERO (no distance field) ***"])
  /\ Esp.read_chunks Esp.reader_init
       [cobs_encode false [x52; x07; x08; x01; x15; x00; x00; x50; x40]
        ++ [x00]]
     = Some (Esp.mk_reader [] 1 0 1
               [Esp.PrintDist 1 1 (S754_finite false 13631488 (-22)) true
                  "08011500005040" EmptyString]).
Proof. split; reflexivity. Qed.

(** * Further properties of the readers *)

(** ** Invariants of a loop *)

Lemma while_loop_invariant {S R : Type} (body : S -> option (flow S R))
    (inv : S -> Prop) (post : R -> Prop) :
  (forall s, inv s ->
     match body s with
     | Some (Next s') => inv s'
     | Some (Done r) => post r
     | None => True
     end) ->
  forall fuel s r, inv s -> while_loop body fuel s = Some r -> post r.
Proof.
  intros Hbody. induction fuel as [|fuel IH]; intros s r Hinv Hrun;
    [discriminate|].
  cbn [while_loop] in Hrun. specialize (Hbody s Hinv).
  destruct (body s) as [[s'|r']|]; [| |discriminate].
  - apply (IH s'); assumption.
  - injection Hrun as <-. exact Hbody.
Qed.

(** ** A record without the distance field has distance 0.0 *)

Lemma dm_body_keeps_default (data : bytes) (st : dm_state) :
  0 <= dm_pos st /\ 0 <= dm_source_id st
  /\ (dm_has_distance st = false -> dm_distance st = float_zero) ->
  match parse_distance_measurement_body data st with
  | Some (Next st') =>
      0 <= dm_pos st' /\ 0 <= dm_source_id st'
      /\ (dm_has_distance st' = false -> dm_distance st' = float_zero)
  | Some (Done (sid, dist, has)) =>
      0 <= sid /\ (has = false -> dist = float_zero)
  | None => True
  end.
Proof.
  intros (H0 & Hsid & Hdef). unfold parse_distance_measurement_body.
  destruct (dm_pos st <? len data); [|cbn; auto].
  call_varint data (dm_pos st).
  destruct ((Z.shiftr v 3 =? 1) && (Z.land v 7 =? 0)).
  { call_varint data p. cbn. repeat split; try lia; auto. }
  destruct ((Z.shiftr v 3 =? 2) && (Z.land v 7 =? 5)).
  { destruct (p + 4 <=? len data); cbn; repeat split; try lia; auto;
      try discriminate. }
  destruct (Z.land v 7 =? 0).
  { call_varint data p. cbn. repeat split; try lia; auto. }
  destruct (Z.land v 7 =? 1); [cbn; repeat split; try lia; auto|].
  destruct (Z.land v 7 =? 2).
  { call_varint data p. cbn. repeat split; try lia; auto. }
  destruct (Z.land v 7 =? 5); cbn; repeat split; try lia; auto.
Qed.

Lemma parse_distance_measurement_default (data : bytes) (sid : Z)
    (dist : py_float) (has : bool) :
  parse_distance_measurement data = Some (sid, dist, has) ->
  0 <= sid /\ (has = false -> dist = float_zero).
Proof.
  intros Hrun.
  apply (while_loop_invariant (parse_distance_measurement_body data)
           (fun st => 0 <= dm_pos st /\ 0 <= dm_source_id st
                      /\ (dm_has_distance st = false ->
                          dm_distance st = float_zero))
           (fun r => 0 <= fst (fst r)
                     /\ (snd r = false -> snd (fst r) = float_zero)))
    with (r := (sid, dist, has)) in Hrun.
  - exact Hrun.
  - intros s Hs. pose proof (dm_body_keeps_default data s Hs) as H.
    destruct (parse_distance_measurement_body data s)
      as [[st'|[[sid' d'] h']]|]; cbn; exact H.
  - cbn. repeat split; try lia.
Qed.

Lemma hex_length (data : bytes) :
  Z.of_nat (String.length (hex data)) = 2 * len data.
Proof.
  induction data as [|b data IH]; [reflexivity|].
  cbn [hex String.length]. rewrite len_cons. lia.
Qed.

Lemma slice_len (data : bytes) (a b : Z) :
  0 <= a -> len (slice data a b) <= Z.max 0 (Z.min b (len data) - a).
Proof.
  intros Ha. unfold slice, len. rewrite length_firstn. lia.
Qed.

Lemma slice_len_inside (data : bytes) (a b : Z) :
  0 <= a <= b -> b <= len data -> len (slice data a b) = b - a.
Proof.
  intros Hab Hb. unfold slice, len in *. rewrite length_firstn, length_skipn.
  lia.
Qed.

(** What a pass of read_ble.py's [parse_event] does to the details, and
    what it returns when it ends the function. *)
Lemma ble_body_details (data : bytes) (pos : Z) (et : option string)
    (det : option Ble.details) :
  0 <= pos -> ble_details_sound data det ->
  match Ble.parse_event_body data (pos, et, det) with
  | Some (Next (pos', et', det')) => ble_details_sound data det'
  | Some (Done (et', det')) =>
      (et' = et /\ det' = det)
      \/ (et' = Some "TRUNCATED"%string
          /\ exists field expected available,
              det' = Some (Ble.TruncatedDetails field expected available
                             (hex data))
              /\ 0 <= field /\ 0 <= available < expected
              /\ available < len data)
  | None => True
  end.
Proof.
  intros H0 Hsound. unfold Ble.parse_event_body.
  destruct (pos <? len data) eqn:Hguard; [|left; auto].
  apply Z.ltb_lt in Hguard.
  destruct (pos >=? len data); [left; auto|].
  call_varint data pos.
  destruct (Z.land v 7 =? 2).
  - call_varint data p.
    destruct (p0 + v0 >? len data) eqn:Htr.
    { rewrite Z.gtb_ltb in Htr. apply Z.ltb_lt in Htr.
      right. split; [reflexivity|]. do 3 eexists. split; [reflexivity|].
      split; [apply Z.shiftr_nonneg; exact Hv|]. lia. }
    rewrite Z.gtb_ltb in Htr. apply Z.ltb_ge in Htr.
    pose proof (slice_len_inside data p0 (p0 + v0)) as Hslice.
    field_cases (Z.shiftr v 3); try exact Hsound.
    + destruct (parse_distance_measurement (slice data p0 (p0 + v0)))
        as [[[sid dist] has]|] eqn:Edm; [|exact I].
      apply parse_distance_measurement_default in Edm.
      cbn [ble_details_sound]. rewrite hex_length.
      rewrite Hslice by lia. repeat split; try tauto; lia.
    + cbn [ble_details_sound]. rewrite Hslice by lia. lia.
    + destruct et; exact Hsound.
  - destruct (Z.land v 7 =? 0).
    { call_varint data p. exact Hsound. }
    destruct (Z.land v 7 =? 1); [exact Hsound|].
    destruct (Z.land v 7 =? 5); [exact Hsound|]. left; auto.
Qed.

Lemma ble_parse_event_details (data : bytes) (et : option string)
    (det : option Ble.details) :
  Ble.parse_event data = Some (et, det) ->
  (is_type et "TRUNCATED" = false /\ ble_details_sound data det)
  \/ (et = Some "TRUNCATED"%string
      /\ exists field expected available,
          det = Some (Ble.TruncatedDetails field expected available
                        (hex data))
          /\ 0 <= field /\ 0 <= available < expected
          /\ available < len data).
Proof.
  intros Hrun.
  apply (while_loop_invariant (Ble.parse_event_body data)
           (fun st : Ble.event_state =>
              0 <= fst (fst st)
              /\ ble_details_fit (snd (fst st)) (snd st)
              /\ ble_details_sound data (snd st))
           (fun r : Ble.event_result =>
              (is_type (fst r) "TRUNCATED" = false
               /\ ble_details_sound data (snd r))
              \/ (fst r = Some "TRUNCATED"%string
                  /\ exists field expected available,
                      snd r = Some (Ble.TruncatedDetails field expected
                                      available (hex data))
                      /\ 0 <= field /\ 0 <= available < expected
                      /\ available < len data)))
    with (r := (et, det)) in Hrun.
  - exact Hrun.
  - intros [[pos et0] det0]. cbn [fst snd]. intros (H0 & Hfit & Hsound).
    pose proof (ble_body_details data pos et0 det0 H0 Hsound) as Hd.
    destruct (ble_body_pass data pos et0 det0 H0) as [f [Hf Hcase]].
    rewrite Hf in Hd |- *. destruct f as [[[pos1 et1] det1]|[et1 det1]].
    + cbn [fst snd]. destruct Hcase as (Hlt & _ & _ & Hfit1).
      split; [lia|]. split; [auto | exact Hd].
    + cbn [fst snd]. destruct Hd as [[-> ->]|Htr]; [left | right; exact Htr].
      split; [exact (proj1 Hfit) | exact Hsound].
  - cbn [fst snd]. split; [lia|]. split; [exact ble_fit_init | exact I].
Qed.

Lemma esp_body_details (data : bytes) (pos : Z) (et : option string)
    (det : option Esp.details) :
  0 <= pos -> esp_details_sound data det ->
  match Esp.parse_event_body data (pos, et, det) with
  | Some (Next (pos', et', det')) => esp_details_sound data det'
  | Some (Done (et', det')) => et' = et /\ det' = det
  | None => True
  end.
Proof.
  intros H0 Hsound. unfold Esp.parse_event_body.
  destruct (pos <? len data) eqn:Hguard; [|auto].
  apply Z.ltb_lt in Hguard.
  call_varint data pos.
  destruct (Z.land v 7 =? 2).
  - call_varint data p.
    pose proof (slice_len data p0 (p0 + v0)) as Hslice.
    field_cases (Z.shiftr v 3); try exact Hsound.
    + destruct (parse_distance_measurement (slice data p0 (p0 + v0)))
        as [[[sid dist] has]|] eqn:Edm; [|exact I].
      apply parse_distance_measurement_default in Edm.
      cbn [esp_details_sound]. rewrite hex_length.
      repeat split; try tauto; lia.
    + cbn [esp_details_sound]. lia.
    + destruct et; exact Hsound.
  - destruct (Z.land v 7 =? 0).
    { call_varint data p. exact Hsound. }
    destruct (Z.land v 7 =? 1); [exact Hsound|].
    destruct (Z.land v 7 =? 5); [exact Hsound|]. auto.
Qed.

Lemma esp_parse_event_details (data : bytes) (et : option string)
    (det : option Esp.details) :
  Esp.parse_event data = Some (et, det) -> esp_details_sound data det.
Proof.
  intros Hrun.
  apply (while_loop_invariant (Esp.parse_event_body data)
           (fun st : Esp.event_state =>
              0 <= fst (fst st) /\ esp_details_sound data (snd st))
           (fun r : Esp.event_result => esp_details_sound data (snd r)))
    with (r := (et, det)) in Hrun.
  - exact Hrun.
  - intros [[pos et0] det0]. cbn [fst snd]. intros (H0 & Hsound).
    pose proof (esp_body_details data pos et0 det0 H0 Hsound) as Hd.
    destruct (esp_body_pass data pos et0 det0 H0) as [f [Hf Hcase]].
    rewrite Hf in Hd |- *. destruct f as [[[pos1 et1] det1]|[et1 det1]].
    + cbn [fst snd]. destruct Hcase as (Hlt & _). split; [lia | exact Hd].
    + cbn [snd]. destruct Hd as [_ ->]. exact Hsound.
  - cbn [fst snd]. split; [lia | exact I].
Qed.

(** In read_ble.py a truncation report and the event type TRUNCATED go
    together, and the report is consistent: it carries the hex dump of the
    whole frame, a field number that is not negative, and fewer available
    bytes than expected ones. *)
Theorem ble_truncation_report (data : bytes) (et : option string)
    (det : option Ble.details) :
  Ble.parse_event data = Some (et, det) ->
  (et = Some "TRUNCATED"%string <->
   exists field expected available raw,
     det = Some (Ble.TruncatedDetails field expected available raw))
  /\ (forall field expected available raw,
        det = Some (Ble.TruncatedDetails field expected available raw) ->
        raw = hex data /\ 0 <= field /\ 0 <= available < expected
        /\ available < len data).
Proof.
  intros Hrun.
  destruct (ble_parse_event_details data et det Hrun)
    as [[Hno Hsound]|(-> & f & e & a & -> & Hf & Ha & Hlen)].
  - split.
    + split.
      * intros ->. discriminate.
      * intros (f & e & a & raw & ->). destruct Hsound.
    + intros f e a raw ->. destruct Hsound.
  - split.
    + split; [intros _; eauto | reflexivity].
    + intros f' e' a' raw' H. injection H as <- <- <- <-. auto.
Qed.

Lemma ble_truncation_report_witness :
  (Some "TRUNCATED"%string = Some "TRUNCATED"%string <->
   exists field expected available raw,
     Some (Ble.TruncatedDetails 10 20 5 "52140807150000")
     = Some (Ble.TruncatedDetails field expected available raw))
  /\ (forall field expected available raw,
        Some (Ble.TruncatedDetails 10 20 5 "52140807150000")
        = Some (Ble.TruncatedDetails field expected available raw) ->
        raw = hex [x52; x14; x08; x07; x15; x00; x00]
        /\ 0 <= field /\ 0 <= available < expected
        /\ available < len [x52; x14; x08; x07; x15; x00; x00]).
Proof.
  apply (ble_truncation_report [x52; x14; x08; x07; x15; x00; x00]).
  reflexivity.
Defined.

(** A distance record whose field 2 was not decoded has distance 0.0, in
    [parse_distance_measurement] and in the details of both readers; the
    source id is never negative, and in read_ble.py [dm_bytes] is the number
    of bytes behind [raw_hex], fewer than the frame has. *)
Theorem distance_absent_is_zero (data : bytes) :
  (forall sid dist has,
     parse_distance_measurement data = Some (sid, dist, has) ->
     0 <= sid /\ (has = false -> dist = float_zero))
  /\ (forall et sid dist has raw n,
        Ble.parse_event data
        = Some (et, Some (Ble.DistanceDetails sid dist has raw n)) ->
        0 <= sid /\ (has = false -> dist = float_zero)
        /\ 0 <= n < len data /\ Z.of_nat (String.length raw) = 2 * n)
  /\ (forall et sid dist has raw,
        Esp.parse_event data
        = Some (et, Some (Esp.DistanceDetails sid dist has raw)) ->
        0 <= sid /\ (has = false -> dist = float_zero)).
Proof.
  split; [|split].
  - intros sid dist has. apply parse_distance_measurement_default.
  - intros et sid dist has raw n Hrun.
    destruct (ble_parse_event_details data _ _ Hrun)
      as [[_ Hsound]|(_ & f & e & a & Habs & _)]; [exact Hsound | discriminate].
  - intros et sid dist has raw Hrun.
    pose proof (esp_parse_event_details data _ _ Hrun) as Hsound.
    cbn [esp_details_sound] in Hsound. tauto.
Qed.

Lemma distance_absent_is_zero_witness :
  0 <= 7 /\ (false = false -> float_zero = float_zero).
Proof.
  apply (proj1 (distance_absent_is_zero [x08; x07; x15; x00]) 7 float_zero false).
  reflexivity.
Defined.

(** ** The counters of read_ble.py *)

Lemma handle_notification_consistent (st st' : Ble.stats) (data : bytes)
    (out : list Ble.line) :
  stats_consistent st ->
  Ble.handle_notification st data = Some (st', out) ->
  stats_consistent st' /\ Ble.count st' = Ble.count st + 1
  /\ (List.length out <= 1)%nat.
Proof.
  unfold stats_consistent, Ble.handle_notification.
  intros Hc. destruct (Ble.parse_event data) as [[et det]|]; [|discriminate].
  destruct (is_type et "TRUNCATED").
  { destruct det as [[f e a raw|sid dist has raw n|raw]|]; try discriminate.
    intros H; injection H as <- <-. cbn. repeat split; lia. }
  destruct (is_type et "distance").
  { destruct det as [[f e a raw|sid dist has raw n|raw]|]; try discriminate.
    destruct (float_is_zero dist && negb has);
      [|destruct (float_is_zero dist)];
      intros H; injection H as <- <-; cbn [Ble.count Ble.dist_zero_no_field
        Ble.dist_zero_explicit Ble.dist_ok Ble.truncated Ble.sid1_zero
        Ble.sid1_ok Ble.sid2_zero Ble.sid2_ok];
      destruct (sid =? 1);
      try destruct ((Ble.dist_ok st + 1) mod 50 =? 1);
      cbn [List.length]; repeat split; lia. }
  destruct (is_type et "geolocation");
    [|destruct (is_type et "userInput");
      [|destruct (is_type et "textMessage")]];
    intros H; injection H as <- <-; cbn; repeat split; lia.
Qed.

Lemma handle_notifications_consistent (datas : list bytes) :
  forall st,
    stats_consistent st ->
    exists st' out,
      handle_notifications st datas = Some (st', out)
      /\ stats_consistent st'
      /\ Ble.count st' = Ble.count st + len datas
      /\ (List.length out <= List.length datas)%nat.
Proof.
  induction datas as [|data rest IH]; intros st Hc.
  - exists st, []. cbn. repeat split; try apply Hc; lia.
  - cbn [handle_notifications].
    destruct (handle_notification_returns st data)
      as (et & det & st1 & out1 & _ & Hcall & _ & _).
    rewrite Hcall.
    destruct (handle_notification_consistent st st1 data out1 Hc Hcall)
      as (Hc1 & Hcount1 & Hout1).
    destruct (IH st1 Hc1) as (st2 & out2 & Hrest & Hc2 & Hcount2 & Hout2).
    rewrite Hrest. exists st2, (out1 ++ out2). split; [reflexivity|].
    split; [exact Hc2|]. rewrite len_cons, length_app. cbn [List.length].
    split; lia.
Qed.

(** The handler never fails and keeps its counters consistent: after any
    sequence of notifications, starting from the initial counters, [count]
    is the number of notifications, the per-source counters add up to the
    classification counters (every source id other than 1 is counted under
    [sid2]), the classified and truncated events are no more than [count],
    and at most one line was printed per notification. *)
Theorem ble_counters_consistent (datas : list bytes) :
  exists st out,
    handle_notifications Ble.stats_init datas = Some (st, out)
    /\ Ble.count st = len datas
    /\ Ble.sid1_zero st + Ble.sid2_zero st
       = Ble.dist_zero_no_field st + Ble.dist_zero_explicit st
    /\ Ble.sid1_ok st + Ble.sid2_ok st = Ble.dist_ok st
    /\ Ble.dist_ok st + Ble.dist_zero_no_field st + Ble.dist_zero_explicit st
       + Ble.truncated st <= Ble.count st
    /\ (List.length out <= List.length datas)%nat.
Proof.
  assert (Hinit : stats_consistent Ble.stats_init)
    by (unfold stats_consistent; cbn; repeat split; lia).
  destruct (handle_notifications_consistent datas Ble.stats_init Hinit)
    as (st & out & Hrun & Hc & Hcount & Hout).
  exists st, out. destruct Hc as (H1 & H2 & H3 & _).
  cbn [Ble.count Ble.stats_init] in Hcount. repeat split; try assumption; lia.
Qed.

(** [dist_ok] is raised only by a distance record that has the distance
    field and whose distance is not zero: a record without the field is
    never counted as OK. *)
Theorem ok_needs_distance_field (st st' : Ble.stats) (data : bytes)
    (out : list Ble.line) :
  Ble.handle_notification st data = Some (st', out) ->
  Ble.dist_ok st' <> Ble.dist_ok st ->
  exists sid dist raw n,
    Ble.parse_event data
    = Some (Some "distance"%string,
            Some (Ble.DistanceDetails sid dist true raw n))
    /\ float_is_zero dist = false
    /\ Ble.dist_ok st' = Ble.dist_ok st + 1.
Proof.
  unfold Ble.handle_notification.
  destruct (Ble.parse_event data) as [[et det]|] eqn:Hparse; [|discriminate].
  destruct (is_type et "TRUNCATED").
  { destruct det as [[f e a raw|sid dist has raw n|raw]|]; try discriminate.
    intros H; injection H as <- <-. cbn. congruence. }
  destruct (is_type et "distance") eqn:Ed.
  - destruct det as [[f e a raw|sid dist has raw n|raw]|]; try discriminate.
    destruct (ble_parse_event_details data _ _ Hparse)
      as [[_ Hsound]|(_ & f & e & a & Habs & _)]; [|discriminate].
    destruct Hsound as (_ & Hdef & _).
    destruct et as [name|]; [|discriminate]. cbn [is_type] in Ed.
    apply String.eqb_eq in Ed. subst name.
    destruct (float_is_zero dist) eqn:Ez; destruct has; cbn [andb negb];
      intros H; injection H as <- <-; cbn [Ble.dist_ok]; intros Hne;
      try congruence.
    + exists sid, dist, raw, n. auto.
    + rewrite (Hdef eq_refl) in Ez. discriminate.
  - destruct (is_type et "geolocation");
      [|destruct (is_type et "userInput");
        [|destruct (is_type et "textMessage")]];
      intros H; injection H as <- <-; cbn; congruence.
Qed.

Lemma ok_needs_distance_field_witness :
  exists sid dist raw n,
    Ble.parse_event [x52; x07; x08; x07; x15; x00; x00; x50; x40]
    = Some (Some "distance"%string,
            Some (Ble.DistanceDetails sid dist true raw n))
    /\ float_is_zero dist = false
    /\ Ble.dist_ok (Ble.mk_stats 1 0 0 1 0 0 0 0 1)
       = Ble.dist_ok Ble.stats_init + 1.
Proof.
  apply (ok_needs_distance_field Ble.stats_init
           (Ble.mk_stats 1 0 0 1 0 0 0 0 1)
           [x52; x07; x08; x07; x15; x00; x00; x50; x40]
           [Ble.PrintOk 1 7 (S754_finite false 13631488 (-22))]).
  - reflexivity.
  - cbn. lia.
Defined.

(** ** [cobs_decode] on any frame *)

Lemma loop_states_done_inv {S R : Type} (body : S -> option (flow S R))
    (fuel : nat) :
  forall s0 r,
    while_loop body fuel s0 = Some r ->
    exists s, In s (loop_states body fuel s0) /\ body s = Some (Done r).
Proof.
  induction fuel as [|fuel IH]; intros s0 r Hrun; [discriminate|].
  cbn [while_loop loop_states] in Hrun |- *.
  destruct (body s0) as [[s1|r1]|] eqn:Hbody; [| |discriminate].
  - destruct (IH s1 r Hrun) as (s & Hin & Hdone).
    exists s. split; [right; exact Hin | exact Hdone].
  - injection Hrun as <-. exists s0. split; [left; reflexivity | exact Hbody].
Qed.

Lemma cobs_copy_some (n : nat) :
  forall data i out i' out',
    Esp.cobs_copy n data i out = Some (i', out') ->
    i' = i + Z.of_nat n /\ len out' = len out + Z.of_nat n
    /\ ((0 < n)%nat -> i' <= len data).
Proof.
  induction n as [|n IH]; intros data i out i' out' Hcopy.
  - cbn in Hcopy. injection Hcopy as <- <-. repeat split; lia.
  - cbn [Esp.cobs_copy] in Hcopy.
    destruct (i >=? len data) eqn:Hend; [discriminate|].
    rewrite Z.geb_leb in Hend. apply Z.leb_gt in Hend.
    apply IH in Hcopy. destruct Hcopy as (-> & Hout & Hin).
    rewrite len_app in Hout. change (len [nth (Z.to_nat i) data x00]) with 1 in Hout.
    repeat split; lia.
Qed.

Lemma cobs_copy_none (n : nat) :
  forall data i out,
    i <= len data ->
    (Esp.cobs_copy n data i out = None <-> len data < i + Z.of_nat n).
Proof.
  induction n as [|n IH]; intros data i out Hi.
  - cbn. split; [discriminate | lia].
  - cbn [Esp.cobs_copy]. destruct (i >=? len data) eqn:Hend.
    + rewrite Z.geb_leb in Hend. apply Z.leb_le in Hend. split; [lia | reflexivity].
    + rewrite Z.geb_leb in Hend. apply Z.leb_gt in Hend.
      rewrite IH by lia. lia.
Qed.

Lemma strip_last_zero_len (out : bytes) :
  len (Esp.strip_last_zero out) <= len out.
Proof.
  destruct out as [|b0 rest] using rev_ind; [cbn; lia|].
  rewrite strip_last_zero_snoc, len_app. change (len [b0]) with 1.
  destruct (byte_val b0 =? 0); [lia | rewrite len_app; change (len [b0]) with 1; lia].
Qed.

(** A pass of [cobs_decode]: the position moves forward by the code, and
    the output never gets ahead of the position. *)
Lemma cobs_body_pass (data : bytes) (i : Z) (out : bytes) :
  0 <= i <= len data -> len out <= i ->
  (0 < i -> i = len data -> len out < i) ->
  exists f, Esp.cobs_decode_body data (i, out) = Some f /\
    match f with
    | Next (i', out') =>
        i < i' <= len data /\ len out' <= i'
        /\ (i' = len data -> len out' < i')
    | Done (Some res) =>
        len res <= len data /\ (data <> [] -> len res < len data)
    | Done None => True
    end.
Proof.
  intros Hi Hout Hend. unfold Esp.cobs_decode_body.
  pose proof (strip_last_zero_len out) as Hstrip.
  assert (Hdata : data <> [] -> 0 < len data).
  { destruct data; [congruence | intros _; rewrite len_cons;
                                   pose proof (len_nonneg data); lia]. }
  destruct (i <? len data) eqn:Hguard.
  2:{ apply Z.ltb_ge in Hguard. eexists; split; [reflexivity|].
      split; [lia|]. intros Hne. specialize (Hdata Hne). lia. }
  apply Z.ltb_lt in Hguard. pose proof (byte_val_range (nth (Z.to_nat i) data x00))
    as Hcode. fold (byte_at data i) in Hcode.
  destruct (byte_at data i =? 0) eqn:Hz.
  { eexists; split; [reflexivity|]. split; lia. }
  apply Z.eqb_neq in Hz.
  destruct (Esp.cobs_copy (Z.to_nat (byte_at data i - 1)) data (i + 1) out)
    as [[i' out']|] eqn:Hcopy; [|eexists; split; [reflexivity | exact I]].
  destruct (cobs_copy_some _ _ _ _ _ _ Hcopy) as (Hi' & Hout' & Hin).
  assert (Hle : i' <= len data).
  { destruct (Z.to_nat (byte_at data i - 1)) eqn:En; [lia | apply Hin; lia]. }
  destruct ((byte_at data i <? 255) && (i' <? len data)) eqn:Hzero.
  - apply andb_prop in Hzero. destruct Hzero as [_ Hmore].
    apply Z.ltb_lt in Hmore. eexists; split; [reflexivity|].
    cbn beta iota. rewrite len_app. change (len [x00]) with 1. repeat split; lia.
  - eexists; split; [reflexivity|]. repeat split; lia.
Qed.

Lemma cobs_decode_returns (data : bytes) :
  exists r, Esp.cobs_decode data = Some r.
Proof.
  unfold Esp.cobs_decode.
  apply (while_loop_terminates (Esp.cobs_decode_body data)
           (fun st => 0 <= fst st <= len data /\ len (snd st) <= fst st
                      /\ (0 < fst st -> fst st = len data ->
                          len (snd st) < fst st))
           (fun st => Z.to_nat (len data - fst st))).
  - intros [i out]. cbn [fst snd]. intros (Hi & Hout & Hend).
    destruct (cobs_body_pass data i out Hi Hout Hend) as [f [Hf Hcase]].
    exists f. split; [exact Hf|]. destruct f as [[i' out']|r]; [|exact I].
    cbn [fst snd]. repeat split; lia.
  - pose proof (len_nonneg data). cbn [fst snd].
    change (len (@nil byte)) with 0. repeat split; lia.
  - cbn [fst]. unfold len. lia.
Qed.

Lemma cobs_decode_len (data res : bytes) :
  Esp.cobs_decode data = Some (Some res) ->
  len res <= len data /\ (data <> [] -> len res < len data).
Proof.
  intros Hrun.
  apply (while_loop_invariant (Esp.cobs_decode_body data)
           (fun st => 0 <= fst st <= len data /\ len (snd st) <= fst st
                      /\ (0 < fst st -> fst st = len data ->
                          len (snd st) < fst st))
           (fun r => match r with
                     | Some res =>
                         len res <= len data
                         /\ (data <> [] -> len res < len data)
                     | None => True
                     end))
    with (r := Some res) in Hrun.
  - exact Hrun.
  - intros [i out]. cbn [fst snd]. intros (Hi & Hout & Hend).
    destruct (cobs_body_pass data i out Hi Hout Hend) as [f [Hf Hcase]].
    rewrite Hf. destruct f as [[i' out']|[r|]].
    + cbn [fst snd]. repeat split; lia.
    + exact Hcase.
    + exact I.
  - pose proof (len_nonneg data). cbn [fst snd].
    change (len (@nil byte)) with 0. repeat split; lia.
Qed.

(** [cobs_decode] returns on every frame, and what it decodes is never
    longer than the frame: for a frame that is not empty it is shorter. *)
Theorem cobs_decode_never_expands (data : bytes) :
  exists r,
    Esp.cobs_decode data = Some r
    /\ forall res, r = Some res ->
         len res <= len data /\ (data <> [] -> len res < len data).
Proof.
  destruct (cobs_decode_returns data) as [r Hr]. exists r.
  split; [exact Hr|]. intros res ->. apply cobs_decode_len. exact Hr.
Qed.

Lemma cobs_body_rejects (data : bytes) (i : Z) (out : bytes) :
  Esp.cobs_decode_body data (i, out) = Some (Done None)
  <-> i < len data /\ byte_at data i <> 0 /\ len data < i + byte_at data i.
Proof.
  unfold Esp.cobs_decode_body.
  pose proof (byte_val_range (nth (Z.to_nat i) data x00)) as Hcode.
  fold (byte_at data i) in Hcode.
  destruct (i <? len data) eqn:Hguard.
  2:{ apply Z.ltb_ge in Hguard. split; [discriminate | lia]. }
  apply Z.ltb_lt in Hguard.
  destruct (byte_at data i =? 0) eqn:Hz.
  { apply Z.eqb_eq in Hz. split; [discriminate | lia]. }
  apply Z.eqb_neq in Hz.
  destruct (Esp.cobs_copy (Z.to_nat (byte_at data i - 1)) data (i + 1) out)
    as [[i' out']|] eqn:Hcopy.
  - split.
    + destruct ((byte_at data i <? 255) && (i' <? len data)); discriminate.
    + intros (_ & _ & Hshort).
      assert (Hnone : Esp.cobs_copy (Z.to_nat (byte_at data i - 1)) data
                        (i + 1) out = None) by (apply cobs_copy_none; lia).
      congruence.
  - apply cobs_copy_none in Hcopy; [|lia]. split; [intros _; lia | reflexivity].
Qed.

(** [cobs_decode] returns [None] exactly when it comes to a code byte that
    announces more bytes than the frame has left. *)
Theorem cobs_decode_rejects_short_block (data : bytes) :
  Esp.cobs_decode data = Some None
  <-> exists i out,
        In (i, out)
           (loop_states (Esp.cobs_decode_body data) (S (List.length data))
              (0, []))
        /\ i < len data /\ byte_at data i <> 0
        /\ len data < i + byte_at data i.
Proof.
  unfold Esp.cobs_decode. split.
  - intros Hrun.
    destruct (loop_states_done_inv _ _ _ _ Hrun) as ([i out] & Hin & Hdone).
    exists i, out. split; [exact Hin|]. apply (cobs_body_rejects data i out).
    exact Hdone.
  - intros (i & out & Hin & Hcut).
    apply (loop_states_done _ _ _ (i, out)); [exact Hin|].
    apply cobs_body_rejects. exact Hcut.
Qed.

Example cobs_decode_short_block :
  Esp.cobs_decode [x03; x11] = Some None
  /\ Esp.cobs_decode [x02; x11; x05; x22] = Some None
  /\ Esp.cobs_decode [x02; x11; x00; x22] = Some (Some [x11]).
Proof. repeat split. Qed.

(** ** The frame loop of read_esp.py on any buffer *)

Lemma has_zero_split (b : bytes) :
  Esp.has_zero b = true ->
  exists frame rest, b = frame ++ x00 :: rest /\ Esp.has_zero frame = false.
Proof.
  induction b as [|c b IH]; intros Hz; [discriminate|].
  cbn [Esp.has_zero existsb] in Hz.
  destruct (byte_val c =? 0) eqn:Hc.
  - apply Z.eqb_eq, byte_zero in Hc. subst c. exists [], b. auto.
  - cbn [orb] in Hz. destruct (IH Hz) as (frame & rest & -> & Hf).
    exists (c :: frame), rest. split; [reflexivity|].
    cbn [Esp.has_zero existsb]. rewrite Hc. exact Hf.
Qed.

(** A pass works on the first frame only: what follows the delimiter is
    handed on untouched. *)
Lemma frame_pass_rest (frame rest : bytes) (c z k : Z) (pr : list Esp.line) :
  Esp.has_zero frame = false ->
  Esp.frame_loop_body (Esp.mk_reader (frame ++ x00 :: rest) c z k pr)
  = match Esp.frame_loop_body (Esp.mk_reader (frame ++ [x00]) c z k pr) with
    | Some (Next s) => Some (Next (with_buf s rest))
    | other => other
    end.
Proof.
  intros Hz. unfold Esp.frame_loop_body.
  cbn [Esp.buf Esp.count Esp.dist_zero Esp.dist_ok Esp.printed].
  rewrite !has_zero_delimited, !(index_zero_delimited frame _ Hz).
  rewrite !frame_of_delimited, !rest_of_delimited.
  destruct frame as [|b frame']; [reflexivity|].
  destruct (Esp.cobs_decode (b :: frame')) as [[decoded|]|]; try reflexivity.
  destruct (Esp.parse_event decoded) as [[et det]|]; [|reflexivity].
  cbn beta iota. destruct (is_type et "distance").
  - destruct det as [[sid dist has raw|raw]|]; try reflexivity.
    destruct (float_is_zero dist && negb has);
      [|destruct (float_is_zero dist)]; reflexivity.
  - destruct (is_type et "geolocation");
      [|destruct (is_type et "userInput");
        [|destruct (is_type et "textMessage")]]; reflexivity.
Qed.

(** What a pass does to the counters and to the lines printed. *)
Lemma frame_pass_counts (frame : bytes) (c z k : Z) (pr : list Esp.line) :
  Esp.has_zero frame = false ->
  exists c' z' k' new,
    Esp.frame_loop_body (Esp.mk_reader (frame ++ [x00]) c z k pr)
    = Some (Next (Esp.mk_reader [] c' z' k' (pr ++ new)))
    /\ c' = c + Z.of_nat (List.length (filter is_event_line new))
    /\ z' + k' = z + k + Z.of_nat (List.length (filter is_dist_line new))
    /\ z <= z' /\ k <= k'
    /\ (frame = [] -> new = [])
    /\ (frame <> [] -> List.length new = 1%nat).
Proof.
  intros Hz. unfold Esp.frame_loop_body.
  cbn [Esp.buf Esp.count Esp.dist_zero Esp.dist_ok Esp.printed].
  rewrite has_zero_delimited, (index_zero_delimited frame _ Hz).
  rewrite frame_of_delimited, rest_of_delimited.
  destruct frame as [|b frame'].
  { exists c, z, k, []. rewrite app_nil_r. cbn. repeat split; try lia. congruence. }
  destruct (cobs_decode_returns (b :: frame')) as [[decoded|] Hcobs];
    rewrite Hcobs.
  2:{ do 4 eexists. split; [reflexivity|]. cbn. repeat split; try lia.
      discriminate. }
  destruct (esp_parse_event_fit decoded) as (et & det & Hparse & Hfit).
  rewrite Hparse. cbn beta iota. destruct (is_type et "distance") eqn:Ed.
  - destruct (proj1 Hfit Ed) as (sid & dist & has & raw & ->).
    destruct (float_is_zero dist && negb has);
      [|destruct (float_is_zero dist)];
      do 4 eexists; (split; [reflexivity|]); cbn; repeat split; try lia;
      discriminate.
  - destruct (is_type et "geolocation");
      [|destruct (is_type et "userInput");
        [|destruct (is_type et "textMessage")]];
      do 4 eexists; (split; [reflexivity|]); cbn; repeat split; try lia;
      discriminate.
Qed.

Lemma frame_pass_done (st : Esp.reader) :
  Esp.has_zero (Esp.buf st) = false -> Esp.frame_loop_body st = Some (Done st).
Proof.
  intros Hz. unfold Esp.frame_loop_body. rewrite Hz. reflexivity.
Qed.

Lemma filter_length_app {A : Type} (f : A -> bool) (l1 l2 : list A) :
  Z.of_nat (List.length (filter f (l1 ++ l2)))
  = Z.of_nat (List.length (filter f l1))
    + Z.of_nat (List.length (filter f l2)).
Proof.
  rewrite filter_app, length_app. lia.
Qed.

(** Every pass either ends the loop, on a buffer without a delimiter, or
    takes the first frame and its delimiter off the buffer and keeps the
    counters consistent with the lines printed. *)
Lemma frame_body_pass (st : Esp.reader) :
  exists f, Esp.frame_loop_body st = Some f /\
    match f with
    | Done r => r = st /\ Esp.has_zero (Esp.buf st) = false
    | Next st' =>
        exists frame new,
          Esp.has_zero frame = false
          /\ Esp.buf st = frame ++ x00 :: Esp.buf st'
          /\ Esp.printed st' = Esp.printed st ++ new
          /\ (frame = [] -> new = [])
          /\ (frame <> [] -> List.length new = 1%nat)
          /\ (reader_consistent st -> reader_consistent st')
    end.
Proof.
  destruct (Esp.has_zero (Esp.buf st)) eqn:Hz.
  2:{ exists (Done st). split; [apply frame_pass_done; exact Hz | auto]. }
  destruct (has_zero_split _ Hz) as (frame & rest & Hbuf & Hframe).
  destruct st as [b c z k pr]. cbn [Esp.buf] in *. subst b.
  rewrite (frame_pass_rest frame rest c z k pr Hframe).
  destruct (frame_pass_counts frame c z k pr Hframe)
    as (c' & z' & k' & new & -> & Hc & Hzk & Hzle & Hkle & Hempty & Hone).
  eexists. split; [reflexivity|]. exists frame, new.
  unfold with_buf, reader_consistent.
  cbn [Esp.buf Esp.count Esp.dist_zero Esp.dist_ok Esp.printed].
  repeat split; auto; rewrite ?filter_length_app; lia.
Qed.

Lemma frame_loop_returns (fuel : nat) (st : Esp.reader) :
  (List.length (Esp.buf st) < fuel)%nat ->
  exists r, while_loop Esp.frame_loop_body fuel st = Some r.
Proof.
  apply (while_loop_terminates Esp.frame_loop_body (fun _ => True)
           (fun st => List.length (Esp.buf st))); [|exact I].
  intros s _. destruct (frame_body_pass s) as [f [Hf Hcase]].
  exists f. split; [exact Hf|]. destruct f as [st'|r]; [|exact I].
  destruct Hcase as (frame & new & _ & Hbuf & _). split; [exact I|].
  rewrite Hbuf, length_app. cbn [List.length]. lia.
Qed.

Lemma frame_loop_result (fuel : nat) (st0 st' : Esp.reader) :
  while_loop Esp.frame_loop_body fuel st0 = Some st' ->
  Esp.has_zero (Esp.buf st') = false
  /\ (exists consumed,
        Esp.buf st0 = consumed ++ Esp.buf st'
        /\ (consumed = [] \/ exists c, consumed = c ++ [x00]))
  /\ (exists new, Esp.printed st' = Esp.printed st0 ++ new)
  /\ (reader_consistent st0 -> reader_consistent st').
Proof.
  revert st0. induction fuel as [|fuel IH]; intros st0 Hrun; [discriminate|].
  cbn [while_loop] in Hrun.
  destruct (frame_body_pass st0) as [f [Hf Hcase]]. rewrite Hf in Hrun.
  destruct f as [st1|r].
  - destruct Hcase as (frame & new & _ & Hbuf & Hpr & _ & _ & Hcons).
    destruct (IH st1 Hrun) as (Hz & (consumed & Hbuf1 & Hend) & (new1 & Hpr1) & Hcons1).
    split; [exact Hz|]. split; [|split].
    + exists ((frame ++ [x00]) ++ consumed). split.
      * rewrite Hbuf, Hbuf1, <- !app_assoc. reflexivity.
      * right. destruct Hend as [->|[c ->]].
        -- exists frame. rewrite app_nil_r. reflexivity.
        -- exists ((frame ++ [x00]) ++ c). rewrite <- !app_assoc. reflexivity.
    + exists (new ++ new1). rewrite Hpr1, Hpr, <- app_assoc. reflexivity.
    + auto.
  - injection Hrun as <-. destruct Hcase as [-> Hz].
    split; [exact Hz|]. split; [|split].
    + exists []. auto.
    + exists []. rewrite app_nil_r. reflexivity.
    + auto.
Qed.

Lemma read_chunk_result (st : Esp.reader) (chunk : bytes) :
  exists st',
    Esp.read_chunk st chunk = Some st'
    /\ (Esp.has_zero (Esp.buf st) = false -> Esp.has_zero (Esp.buf st') = false)
    /\ (exists consumed,
          Esp.buf st ++ chunk = consumed ++ Esp.buf st'
          /\ (consumed = [] \/ exists c, consumed = c ++ [x00]))
    /\ (exists new, Esp.printed st' = Esp.printed st ++ new)
    /\ (reader_consistent st -> reader_consistent st').
Proof.
  destruct chunk as [|b chunk'].
  - exists st. split; [reflexivity|]. split; [auto|]. split; [|split].
    + exists []. rewrite app_nil_r. auto.
    + exists []. rewrite app_nil_r. reflexivity.
    + auto.
  - cbn [Esp.read_chunk].
    set (st0 := Esp.mk_reader (Esp.buf st ++ b :: chunk') (Esp.count st)
                  (Esp.dist_zero st) (Esp.dist_ok st) (Esp.printed st)).
    destruct (frame_loop_returns (S (List.length (Esp.buf st0))) st0)
      as [st' Hrun]; [lia|].
    exists st'. split; [exact Hrun|].
    destruct (frame_loop_result _ _ _ Hrun) as (Hz & Hbuf & Hpr & Hcons).
    split; [auto|]. split; [exact Hbuf|]. split; [exact Hpr|].
    intros Hc. apply Hcons. exact Hc.
Qed.

Lemma read_chunks_result (chunks : list bytes) :
  forall st,
    exists st',
      Esp.read_chunks st chunks = Some st'
      /\ (Esp.has_zero (Esp.buf st) = false ->
          Esp.has_zero (Esp.buf st') = false)
      /\ (exists consumed,
            Esp.buf st ++ List.concat chunks = consumed ++ Esp.buf st'
            /\ (consumed = [] \/ exists c, consumed = c ++ [x00]))
      /\ (exists new, Esp.printed st' = Esp.printed st ++ new)
      /\ (reader_consistent st -> reader_consistent st').
Proof.
  induction chunks as [|chunk rest IH]; intros st.
  - exists st. split; [reflexivity|]. split; [auto|]. split; [|split].
    + exists []. cbn [List.concat]. rewrite app_nil_r. auto.
    + exists []. rewrite app_nil_r. reflexivity.
    + auto.
  - cbn [Esp.read_chunks List.concat].
    destruct (read_chunk_result st chunk)
      as (st1 & Hrun1 & Hz1 & (c1 & Hbuf1 & Hend1) & (n1 & Hpr1) & Hcons1).
    rewrite Hrun1.
    destruct (IH st1)
      as (st2 & Hrun2 & Hz2 & (c2 & Hbuf2 & Hend2) & (n2 & Hpr2) & Hcons2).
    exists st2. split; [exact Hrun2|]. split; [auto|]. split; [|split].
    + exists (c1 ++ c2). split.
      * rewrite app_assoc, Hbuf1, <- app_assoc, Hbuf2, app_assoc. reflexivity.
      * destruct Hend2 as [->|[c ->]].
        -- rewrite app_nil_r. exact Hend1.
        -- right. exists (c1 ++ c). rewrite app_assoc. reflexivity.
    + exists (n1 ++ n2). rewrite Hpr2, Hpr1, <- app_assoc. reflexivity.
    + auto.
Qed.

(** read_esp.py's [main] on any sequence of chunks: the frame loop always
    returns; the buffer is then the part of the stream after the last
    delimiter, with no delimiter in it; [count] is the number of event
    lines printed (a COBS error prints a line and is not counted), and
    [dist_zero + dist_ok] is the number of DIST lines. *)
Theorem serial_reader_result (chunks : list bytes) :
  exists st,
    Esp.read_chunks Esp.reader_init chunks = Some st
    /\ Esp.has_zero (Esp.buf st) = false
    /\ (exists consumed,
          List.concat chunks = consumed ++ Esp.buf st
          /\ (consumed = [] \/ exists c, consumed = c ++ [x00]))
    /\ Esp.count st
       = Z.of_nat (List.length (filter is_event_line (Esp.printed st)))
    /\ Esp.dist_zero st + Esp.dist_ok st
       = Z.of_nat (List.length (filter is_dist_line (Esp.printed st)))
    /\ 0 <= Esp.dist_zero st /\ 0 <= Esp.dist_ok st.
Proof.
  destruct (read_chunks_result chunks Esp.reader_init)
    as (st & Hrun & Hz & Hbuf & _ & Hcons).
  exists st. split; [exact Hrun|]. split; [apply Hz; reflexivity|].
  split; [exact Hbuf|]. apply Hcons.
  unfold reader_consistent. cbn. repeat split; lia.
Qed.

(** ** Chunk boundaries *)

Lemma with_buf_buf (st : Esp.reader) : with_buf st (Esp.buf st) = st.
Proof. destruct st. reflexivity. Qed.

Lemma with_buf_twice (st : Esp.reader) (a b : bytes) :
  with_buf (with_buf st a) b = with_buf st b.
Proof. reflexivity. Qed.

(** Running the frame loop on [x], and then again with [y] appended to
    what it left, is running it on [x ++ y]. *)
Lemma frame_loop_app (fuel : nat) :
  forall st x y st1 fuel2 r,
    while_loop Esp.frame_loop_body fuel (with_buf st x) = Some st1 ->
    while_loop Esp.frame_loop_body fuel2 (with_buf st1 (Esp.buf st1 ++ y))
    = Some r ->
    while_loop Esp.frame_loop_body (fuel + fuel2) (with_buf st (x ++ y))
    = Some r.
Proof.
  induction fuel as [|fuel IH]; intros st x y st1 fuel2 r Hrun1 Hrun2;
    [discriminate|].
  cbn [while_loop] in Hrun1.
  destruct (Esp.has_zero x) eqn:Hz.
  - destruct (has_zero_split x Hz) as (frame & rest & -> & Hframe).
    unfold with_buf in Hrun1 at 1. rewrite frame_pass_rest in Hrun1 by exact Hframe.
    cbn [Nat.add while_loop]. unfold with_buf at 1.
    rewrite <- app_assoc. cbn [app].
    rewrite frame_pass_rest by exact Hframe.
    destruct (frame_pass_counts frame (Esp.count st) (Esp.dist_zero st)
                (Esp.dist_ok st) (Esp.printed st) Hframe)
      as (c' & z' & k' & new & Hbody & _).
    rewrite Hbody in Hrun1 |- *.
    apply (IH _ rest y st1 fuel2 r Hrun1 Hrun2).
  - rewrite frame_pass_done in Hrun1 by exact Hz. injection Hrun1 as <-.
    cbn [with_buf Esp.buf] in Hrun2. 
    apply (while_loop_more_fuel _ fuel2); [exact Hrun2 | lia].
Qed.

Lemma read_two_chunks (st : Esp.reader) (a b : bytes) :
  Esp.read_chunks st [a; b] = Esp.read_chunks st [a ++ b].
Proof.
  cbn [Esp.read_chunks].
  destruct a as [|a0 a'].
  { cbn [Esp.read_chunk app]. destruct (Esp.read_chunk st b); reflexivity. }
  destruct b as [|b0 b'].
  { rewrite app_nil_r. destruct (Esp.read_chunk st (a0 :: a')) as [st1|];
      reflexivity. }
  destruct (read_chunk_result st (a0 :: a')) as (st1 & Hrun1 & _).
  rewrite Hrun1.
  destruct (read_chunk_result st1 (b0 :: b')) as (r & Hrun2 & _).
  rewrite Hrun2.
  destruct (read_chunk_result st ((a0 :: a') ++ b0 :: b')) as (r' & Hrun & _).
  rewrite Hrun. cbn [Esp.read_chunk app Esp.buf] in Hrun1, Hrun2, Hrun.
  pose proof (frame_loop_app _ st (Esp.buf st ++ a0 :: a') (b0 :: b') st1 _ r
                Hrun1 Hrun2) as Hboth.
  assert (Hsame : with_buf st ((Esp.buf st ++ a0 :: a') ++ b0 :: b')
                  = Esp.mk_reader (Esp.buf st ++ a0 :: a' ++ b0 :: b')
                      (Esp.count st) (Esp.dist_zero st) (Esp.dist_ok st)
                      (Esp.printed st)).
  { unfold with_buf. rewrite <- app_assoc. reflexivity. }
  rewrite Hsame in Hboth.
  apply (while_loop_more_fuel _ _ (Nat.max
           (S (List.length (Esp.buf st ++ a0 :: a')) +
            S (List.length (Esp.buf st1 ++ b0 :: b')))
           (S (List.length (Esp.buf st ++ a0 :: a' ++ b0 :: b')))))
    in Hboth; [|lia].
  apply (while_loop_more_fuel _ _ (Nat.max
           (S (List.length (Esp.buf st ++ a0 :: a')) +
            S (List.length (Esp.buf st1 ++ b0 :: b')))
           (S (List.length (Esp.buf st ++ a0 :: a' ++ b0 :: b')))))
    in Hrun; [|lia].
  cbn [Esp.buf] in Hboth, Hrun. congruence.
Qed.

Lemma read_chunks_concat (chunks : list bytes) :
  forall st,
    Esp.read_chunks st chunks = Esp.read_chunks st [List.concat chunks].
Proof.
  induction chunks as [|a rest IH]; intros st; [reflexivity|].
  cbn [List.concat]. rewrite <- read_two_chunks.
  cbn [Esp.read_chunks]. destruct (Esp.read_chunk st a) as [st1|];
    [|reflexivity].
  rewrite (IH st1). cbn [Esp.read_chunks].
  destruct (Esp.read_chunk st1 (List.concat rest)); reflexivity.
Qed.

(** How the serial stream is cut into chunks makes no difference to
    read_esp.py's [main]: reading the chunks one after the other leaves the
    same buffer, counters and printed lines as reading all their bytes in
    one chunk. *)
Theorem chunk_boundaries_do_not_matter (st : Esp.reader)
    (chunks : list bytes) :
  Esp.read_chunks st chunks = Esp.read_chunks st [List.concat chunks]
  /\ forall chunks',
       List.concat chunks = List.concat chunks' ->
       Esp.read_chunks st chunks = Esp.read_chunks st chunks'.
Proof.
  split; [apply read_chunks_concat|].
  intros chunks' Hsame.
  rewrite (read_chunks_concat chunks), (read_chunks_concat chunks'), Hsame.
  reflexivity.
Qed.

Lemma chunk_boundaries_do_not_matter_witness :
  Esp.read_chunks Esp.reader_init [[x02; x62]; [x01; x00; x00]]
  = Esp.read_chunks Esp.reader_init [[x02]; [x62; x01]; [x00; x00]].
Proof.
  apply (proj2 (chunk_boundaries_do_not_matter Esp.reader_init
                  [[x02; x62]; [x01; x00; x00]])).
  reflexivity.
Defined.

(** ** read_ble.py and read_esp.py on the same frame *)

Lemma ble_esp_body (data : bytes) (pos : Z) (et : option string)
    (det : option Ble.details) :
  match Ble.parse_event_body data (pos, et, det) with
  | Some (Next (pos', et', det')) =>
      Esp.parse_event_body data (pos, et, esp_details_of det)
      = Some (Next (pos', et', esp_details_of det'))
  | Some (Done (et', det')) =>
      et' = Some "TRUNCATED"%string
      \/ Esp.parse_event_body data (pos, et, esp_details_of det)
         = Some (Done (et', esp_details_of det'))
  | None => True
  end.
Proof.
  unfold Ble.parse_event_body, Esp.parse_event_body.
  destruct (pos <? len data) eqn:Hguard; [|right; reflexivity].
  destruct (pos >=? len data) eqn:Hdead.
  { apply Z.ltb_lt in Hguard. apply Z.geb_le in Hdead. lia. }
  destruct (decode_varint data pos) as [[tag p1]|]; [|exact I].
  destruct (Z.land tag 7 =? 2).
  - destruct (decode_varint data p1) as [[length p2]|]; [|exact I].
    destruct (p2 + length >? len data); [left; reflexivity|].
    field_cases (Z.shiftr tag 3); try reflexivity.
    + destruct (parse_distance_measurement (slice data p2 (p2 + length)))
        as [[[sid dist] has]|]; [reflexivity | exact I].
    + destruct et; reflexivity.
  - destruct (Z.land tag 7 =? 0).
    { destruct (decode_varint data p1) as [[v p2]|]; [reflexivity | exact I]. }
    destruct (Z.land tag 7 =? 1); [reflexivity|].
    destruct (Z.land tag 7 =? 5); [reflexivity|]. right; reflexivity.
Qed.

Lemma ble_esp_loop (data : bytes) (fuel : nat) :
  forall pos et det et' det',
    while_loop (Ble.parse_event_body data) fuel (pos, et, det)
    = Some (et', det') ->
    et' <> Some "TRUNCATED"%string ->
    while_loop (Esp.parse_event_body data) fuel (pos, et, esp_details_of det)
    = Some (et', esp_details_of det').
Proof.
  induction fuel as [|fuel IH]; intros pos et det et' det' Hrun Hnot;
    [discriminate|].
  cbn [while_loop] in Hrun |- *.
  pose proof (ble_esp_body data pos et det) as Hsim.
  destruct (Ble.parse_event_body data (pos, et, det))
    as [[[[pos1 et1] det1]|[et1 det1]]|]; [| |discriminate].
  - rewrite Hsim. apply IH; assumption.
  - injection Hrun as <- <-. destruct Hsim as [Htr|Hsim]; [contradiction|].
    rewrite Hsim. reflexivity.
Qed.

(** Unless read_ble.py reports the frame as truncated, read_esp.py's
    [parse_event] returns the same event type and the same details, but for
    the key [dm_bytes], which only read_ble.py records. *)
Theorem readers_agree_unless_truncated (data : bytes) (et : option string)
    (det : option Ble.details) :
  Ble.parse_event data = Some (et, det) ->
  et <> Some "TRUNCATED"%string ->
  Esp.parse_event data = Some (et, esp_details_of det).
Proof.
  intros Hrun Hnot. unfold Esp.parse_event.
  exact (ble_esp_loop data _ 0 None None et det Hrun Hnot).
Qed.

Lemma readers_agree_unless_truncated_witness :
  Esp.parse_event [x52; x02; x08; x01]
  = Some (Some "distance"%string,
          esp_details_of
            (Some (Ble.DistanceDetails 1 float_zero false "0801" 2))).
Proof.
  apply (readers_agree_unless_truncated [x52; x02; x08; x01]).
  - reflexivity.
  - discriminate.
Defined.

(** ** Well-formed messages *)

Lemma tag_value (n w : Z) :
  0 <= n -> 0 <= w < 8 ->
  0 <= Z.lor (Z.shiftl n 3) w
  /\ Z.shiftr (Z.lor (Z.shiftl n 3) w) 3 = n
  /\ Z.land (Z.lor (Z.shiftl n 3) w) 7 = w.
Proof.
  intros Hn Hw. split; [|split].
  - apply Z.lor_nonneg. split; [apply Z.shiftl_nonneg; exact Hn | lia].
  - rewrite Z.shiftr_lor, Z.shiftr_shiftl_l by lia.
    replace (3 - 3) with 0 by lia. rewrite Z.shiftl_0_r.
    rewrite (Z.shiftr_div_pow2 w 3) by lia. rewrite Z.div_small by lia.
    apply Z.lor_0_r.
  - rewrite Z.land_lor_distr_l. change 7 with (Z.ones 3).
    rewrite !Z.land_ones by lia. rewrite Z.shiftl_mul_pow2 by lia.
    rewrite Z.mod_mul by (change (2 ^ 3) with 8; lia).
    rewrite Z.mod_small by (change (2 ^ 3) with 8; lia). reflexivity.
Qed.

(** The tag of a field, read where the field stands. *)
Lemma decode_tag (pre post : bytes) (n w : Z) :
  0 <= n -> 0 <= w < 8 ->
  exists tag,
    decode_varint (pre ++ encode_tag n w ++ post) (len pre)
    = Some (tag, len pre + len (encode_tag n w))
    /\ Z.shiftr tag 3 = n /\ Z.land tag 7 = w
    /\ 0 < len (encode_tag n w).
Proof.
  intros Hn Hw. destruct (tag_value n w Hn Hw) as (H0 & Hnum & Hwire).
  exists (Z.lor (Z.shiftl n 3) w). unfold encode_tag.
  split; [apply decode_varint_encoding; exact H0|].
  split; [exact Hnum|]. split; [exact Hwire|].
  pose proof (decode_varint_spec (encode_varint (Z.lor (Z.shiftl n 3) w)) 0
                (Z.le_refl 0)) as (v & p' & E & _ & _ & Hin & Hlt).
  pose proof (decode_varint_encoding [] [] _ H0) as E'.
  rewrite app_nil_r in E'. change (len []) with 0 in E'. cbn [app] in E'.
  rewrite E in E'. injection E' as _ ->.
  destruct (Z.eq_dec (len (encode_varint (Z.lor (Z.shiftl n 3) w))) 0) as [Hz|Hz].
  - exfalso. unfold encode_varint in Hz. cbn [encode_varint_groups] in Hz.
    destruct (Z.lor (Z.shiftl n 3) w <? 128); rewrite len_cons in Hz;
      match type of Hz with context [len ?l] => pose proof (len_nonneg l) end;
      lia.
  - pose proof (len_nonneg (encode_varint (Z.lor (Z.shiftl n 3) w))). lia.
Qed.

Lemma decode_value_after_tag (pre tagb post : bytes) (v : Z) :
  0 <= v ->
  decode_varint (pre ++ tagb ++ encode_varint v ++ post) (len pre + len tagb)
  = Some (v, len pre + len tagb + len (encode_varint v)).
Proof.
  intros Hv. pose proof (decode_varint_encoding (pre ++ tagb) post v Hv) as H.
  rewrite <- app_assoc, len_app in H. exact H.
Qed.

Lemma slice_after_tag (pre tagb payload post : bytes) :
  slice (pre ++ tagb ++ payload ++ post) (len pre + len tagb)
    (len pre + len tagb + len payload)
  = payload.
Proof.
  pose proof (slice_app (pre ++ tagb) payload post) as H.
  rewrite <- app_assoc, len_app in H. exact H.
Qed.

Ltac len_simpl :=
  rewrite ?len_app, ?len_cons, ?len_nil;
  repeat match goal with
         | |- context [len ?l] =>
             lazymatch goal with
             | H : 0 <= len l |- _ => fail
             | _ => pose proof (len_nonneg l)
             end
         end.

(** A pass of [parse_distance_measurement] over a well-formed field: the
    field is read whole, and the state afterwards is what the field says. *)
Lemma dm_pass_field (pre post : bytes) (f : wire_field) (sid : Z)
    (dist : py_float) (has : bool) :
  field_ok f ->
  parse_distance_measurement_body (pre ++ encode_field f ++ post)
    (mk_dm sid dist has (len pre))
  = Some (Next (mk_dm (fst (fst (dm_apply (sid, dist, has) f)))
                  (snd (fst (dm_apply (sid, dist, has) f)))
                  (snd (dm_apply (sid, dist, has) f))
                  (len pre + len (encode_field f))))
  /\ tag_at (pre ++ encode_field f ++ post) (len pre) = [field_tag f].
Proof.
  intros Hok. unfold parse_distance_measurement_body, tag_at.
  cbn [dm_pos dm_source_id dm_distance dm_has_distance].
  destruct f as [n v|n b|n payload|n b]; cbn [field_ok] in Hok;
    cbn [encode_field field_tag dm_apply]; rewrite <- ?app_assoc.
  - destruct Hok as [Hn Hv].
    destruct (decode_tag pre (encode_varint v ++ post) n 0 Hn ltac:(lia))
      as (tag & Htag & Hnum & Hwire & Hpos).
    assert (Hguard : (len pre <? len (pre ++ encode_tag n 0 ++ encode_varint v
                                        ++ post)) = true)
      by (apply Z.ltb_lt; len_simpl; lia).
    rewrite Hguard, Htag. cbn beta iota. rewrite Hnum, Hwire.
    rewrite (decode_value_after_tag pre (encode_tag n 0) post v Hv).
    cbn beta iota. change (0 =? 0) with true. change (0 =? 5) with false.
    rewrite !andb_true_r, !andb_false_r.
    split; [|reflexivity].
    destruct (n =? 1); cbn [fst snd]; do 3 f_equal; len_simpl; lia.
  - destruct Hok as [Hn Hb].
    destruct (decode_tag pre (b ++ post) n 1 Hn ltac:(lia))
      as (tag & Htag & Hnum & Hwire & Hpos).
    assert (Hguard : (len pre <? len (pre ++ encode_tag n 1 ++ b ++ post))
                     = true)
      by (apply Z.ltb_lt; len_simpl; lia).
    rewrite Hguard, Htag. cbn beta iota. rewrite Hnum, Hwire.
    change (1 =? 0) with false. change (1 =? 5) with false.
    change (1 =? 1) with true. rewrite !andb_false_r. cbn iota.
    split; [|reflexivity]. cbn [fst snd]. do 3 f_equal. len_simpl. lia.
  - destruct (decode_tag pre (encode_varint (len payload) ++ payload ++ post)
                n 2 Hok ltac:(lia))
      as (tag & Htag & Hnum & Hwire & Hpos).
    assert (Hguard : (len pre <? len (pre ++ encode_tag n 2
                                        ++ encode_varint (len payload)
                                        ++ payload ++ post)) = true)
      by (apply Z.ltb_lt; len_simpl; lia).
    rewrite Hguard, Htag. cbn beta iota. rewrite Hnum, Hwire.
    rewrite (decode_value_after_tag pre (encode_tag n 2) (payload ++ post)
               (len payload) (len_nonneg payload)).
    cbn beta iota. change (2 =? 0) with false. change (2 =? 5) with false.
    change (2 =? 1) with false. change (2 =? 2) with true.
    rewrite !andb_false_r. cbn iota.
    split; [|reflexivity]. cbn [fst snd]. do 3 f_equal. len_simpl. lia.
  - destruct Hok as [Hn Hb].
    destruct (decode_tag pre (b ++ post) n 5 Hn ltac:(lia))
      as (tag & Htag & Hnum & Hwire & Hpos).
    assert (Hguard : (len pre <? len (pre ++ encode_tag n 5 ++ b ++ post))
                     = true)
      by (apply Z.ltb_lt; len_simpl; lia).
    rewrite Hguard, Htag. cbn beta iota. rewrite Hnum, Hwire.
    change (5 =? 0) with false. change (5 =? 5) with true.
    change (5 =? 1) with false. change (5 =? 2) with false.
    rewrite !andb_false_r, !andb_true_r. cbn iota.
    split; [|reflexivity].
    destruct (n =? 2).
    + assert (Hfit : (len pre + len (encode_tag n 5) + 4
                      <=? len (pre ++ encode_tag n 5 ++ b ++ post)) = true)
        by (apply Z.leb_le; len_simpl; lia).
      rewrite Hfit. rewrite <- Hb at 1.
      rewrite (slice_after_tag pre (encode_tag n 5) b post).
      cbn [fst snd]. do 3 f_equal. len_simpl. lia.
    + cbn [fst snd]. do 3 f_equal. len_simpl. lia.
Qed.

Lemma encode_field_len (f : wire_field) :
  field_ok f -> 0 < len (encode_field f).
Proof.
  intros Hok.
  destruct f as [n v|n b|n payload|n b]; cbn [field_ok] in Hok;
    cbn [encode_field];
    [ destruct (decode_tag [] [] n 0) as (_ & _ & _ & _ & H)
    | destruct (decode_tag [] [] n 1) as (_ & _ & _ & _ & H)
    | destruct (decode_tag [] [] n 2) as (_ & _ & _ & _ & H)
    | destruct (decode_tag [] [] n 5) as (_ & _ & _ & _ & H) ];
    try lia; len_simpl; lia.
Qed.

Lemma encode_message_length (fields : list wire_field) :
  Forall field_ok fields ->
  (List.length fields <= List.length (encode_message fields))%nat.
Proof.
  induction 1 as [|f fields Hf _ IH]; [cbn; lia|].
  unfold encode_message in *. cbn [map List.concat List.length].
  rewrite length_app. pose proof (encode_field_len f Hf) as Hlen.
  unfold len in Hlen. lia.
Qed.

Lemma dm_loop_fields (fields : list wire_field) :
  forall pre sid dist has fuel,
    Forall field_ok fields ->
    (List.length fields < fuel)%nat ->
    while_loop (parse_distance_measurement_body (pre ++ encode_message fields))
      fuel (mk_dm sid dist has (len pre))
    = Some (fold_left dm_apply fields (sid, dist, has))
    /\ flat_map (fun st => tag_at (pre ++ encode_message fields) (dm_pos st))
         (loop_states
            (parse_distance_measurement_body (pre ++ encode_message fields))
            fuel (mk_dm sid dist has (len pre)))
       = map field_tag fields.
Proof.
  induction fields as [|f fields IH]; intros pre sid dist has fuel Hok Hfuel.
  - destruct fuel as [|fuel]; [cbn in Hfuel; lia|].
    unfold encode_message. cbn [map List.concat fold_left].
    rewrite app_nil_r. cbn [while_loop loop_states].
    rewrite dm_pass_end by (cbn [dm_pos]; lia).
    cbn [flat_map dm_pos]. rewrite tag_at_end by lia. split; reflexivity.
  - destruct fuel as [|fuel]; [cbn in Hfuel; lia|].
    inversion Hok as [|f' fields' Hf Hrest]; subst.
    assert (Hmsg : encode_message (f :: fields)
                   = encode_field f ++ encode_message fields) by reflexivity.
    rewrite Hmsg. cbn [while_loop loop_states flat_map fold_left map].
    destruct (dm_pass_field pre (encode_message fields) f sid dist has Hf)
      as [Hpass Htag].
    rewrite Hpass. cbn [dm_pos]. rewrite Htag.
    destruct (dm_apply (sid, dist, has) f) as [[sid1 dist1] has1].
    cbn [fst snd].
    specialize (IH (pre ++ encode_field f) sid1 dist1 has1 fuel Hrest
                  ltac:(cbn [List.length] in Hfuel; lia)).
    rewrite <- app_assoc, len_app in IH. destruct IH as [IHrun IHtags].
    rewrite IHrun, IHtags. split; reflexivity.
Qed.

(** [parse_distance_measurement] on every well-formed message: it reads
    the fields of the message one by one, each of them whole, and returns
    what the message says: the source id of its last field 1 (a varint),
    the distance of its last field 2 (a fixed32), and whether there is
    one. Fields with other numbers or other wire types change nothing,
    wherever they stand. *)
Theorem distance_message_decoded (fields : list wire_field) :
  Forall field_ok fields ->
  parse_distance_measurement (encode_message fields)
  = Some (dm_of_fields fields)
  /\ dm_fields_read (encode_message fields) = map field_tag fields.
Proof.
  intros Hok. unfold parse_distance_measurement, dm_fields_read, dm_of_fields.
  pose proof (dm_loop_fields fields [] 0 float_zero false
                (S (List.length (encode_message fields))) Hok) as H.
  cbn [app] in H. change (len []) with 0 in H. apply H.
  pose proof (encode_message_length fields Hok). lia.
Qed.

Lemma distance_message_decoded_witness :
  parse_distance_measurement
    (encode_message
       [Fixed32Field 2 [x00; x00; x50; x40]; LenField 9 [x01; x02];
        VarintField 1 300; Fixed64Field 3 (repeat xff 8); VarintField 1 7])
  = Some (7, unpack_f32_le [x00; x00; x50; x40], true).
Proof.
  assert (Hok : Forall field_ok
                  [Fixed32Field 2 [x00; x00; x50; x40]; LenField 9 [x01; x02];
                   VarintField 1 300; Fixed64Field 3 (repeat xff 8);
                   VarintField 1 7])
    by (repeat constructor; cbn; lia).
  exact (proj1 (distance_message_decoded _ Hok)).
Defined.

Ltac field_result :=
  repeat match goal with
         | H : Z.shiftr _ 3 = _ |- _ => clear H
         end;
  repeat match goal with
         | H : (?n =? _) = true |- _ => apply Z.eqb_eq in H; subst n
         end;
  unfold next_event_type, recognized, event_name, ble_details_after;
  cbn [field_tag fst snd Z.eqb Pos.eqb];
  change (2 =? 2) with true; change (0 =? 2) with false;
  change (1 =? 2) with false; change (5 =? 2) with false;
  repeat match goal with
         | H : (_ =? _) = _ |- _ => rewrite H
         | H : parse_distance_measurement _ = _ |- _ => rewrite H
         end;
  cbn [orb andb]; try reflexivity.

Ltac state_eq :=
  apply f_equal; apply f_equal; apply f_equal2; [apply f_equal2|].

(** A pass of read_ble.py's [parse_event] over a well-formed field. *)
Lemma ble_pass_field (pre post : bytes) (f : wire_field) (et : option string)
    (det : option Ble.details) :
  field_ok f ->
  Ble.parse_event_body (pre ++ encode_field f ++ post) (len pre, et, det)
  = Some (Next (len pre + len (encode_field f),
                next_event_type et (field_tag f),
                ble_details_after det f))
  /\ tag_at (pre ++ encode_field f ++ post) (len pre) = [field_tag f].
Proof.
  intros Hok. unfold Ble.parse_event_body, tag_at.
  destruct f as [n v|n b|n payload|n b]; cbn [field_ok] in Hok;
    cbn [encode_field]; rewrite <- ?app_assoc.
  - destruct Hok as [Hn Hv].
    destruct (decode_tag pre (encode_varint v ++ post) n 0 Hn ltac:(lia))
      as (tag & Htag & Hnum & Hwire & Hpos).
    assert (Hguard : (len pre <? len (pre ++ encode_tag n 0 ++ encode_varint v
                                        ++ post)) = true)
      by (apply Z.ltb_lt; len_simpl; lia).
    rewrite Hguard, Htag. rewrite Z.geb_leb.
    assert (Hdead : (len (pre ++ encode_tag n 0 ++ encode_varint v ++ post)
                     <=? len pre) = false)
      by (apply Z.leb_gt; apply Z.ltb_lt; exact Hguard).
    rewrite Hdead. cbn beta iota. rewrite Hnum, Hwire.
    rewrite (decode_value_after_tag pre (encode_tag n 0) post v Hv).
    change (0 =? 2) with false. change (0 =? 0) with true. cbn beta iota.
    split; [|reflexivity]. state_eq; [len_simpl; lia | field_result | field_result].
  - destruct Hok as [Hn Hb].
    destruct (decode_tag pre (b ++ post) n 1 Hn ltac:(lia))
      as (tag & Htag & Hnum & Hwire & Hpos).
    assert (Hguard : (len pre <? len (pre ++ encode_tag n 1 ++ b ++ post))
                     = true)
      by (apply Z.ltb_lt; len_simpl; lia).
    rewrite Hguard, Htag. rewrite Z.geb_leb.
    assert (Hdead : (len (pre ++ encode_tag n 1 ++ b ++ post) <=? len pre)
                    = false)
      by (apply Z.leb_gt; apply Z.ltb_lt; exact Hguard).
    rewrite Hdead. cbn beta iota. rewrite Hnum, Hwire.
    change (1 =? 2) with false. change (1 =? 0) with false.
    change (1 =? 1) with true. cbn beta iota.
    split; [|reflexivity]. state_eq; [len_simpl; lia | field_result | field_result].
  - destruct (decode_tag pre (encode_varint (len payload) ++ payload ++ post)
                n 2 Hok ltac:(lia))
      as (tag & Htag & Hnum & Hwire & Hpos).
    assert (Hguard : (len pre <? len (pre ++ encode_tag n 2
                                        ++ encode_varint (len payload)
                                        ++ payload ++ post)) = true)
      by (apply Z.ltb_lt; len_simpl; lia).
    rewrite Hguard, Htag. rewrite Z.geb_leb.
    assert (Hdead : (len (pre ++ encode_tag n 2 ++ encode_varint (len payload)
                            ++ payload ++ post) <=? len pre) = false)
      by (apply Z.leb_gt; apply Z.ltb_lt; exact Hguard).
    rewrite Hdead. cbn beta iota. rewrite Hnum, Hwire.
    rewrite (decode_value_after_tag pre (encode_tag n 2) (payload ++ post)
               (len payload) (len_nonneg payload)).
    change (2 =? 2) with true. cbn beta iota.
    assert (Hfit : (len pre + len (encode_tag n 2)
                    + len (encode_varint (len payload)) + len payload
                    >? len (pre ++ encode_tag n 2 ++ encode_varint (len payload)
                              ++ payload ++ post)) = false)
      by (rewrite Z.gtb_ltb; apply Z.ltb_ge; len_simpl; lia).
    rewrite Hfit.
    pose proof (slice_after_tag (pre ++ encode_tag n 2)
                  (encode_varint (len payload)) payload post) as Hslice.
    rewrite <- app_assoc, len_app in Hslice. rewrite Hslice.
    split; [|reflexivity].
    assert (Hposn : len pre + len (encode_tag n 2)
                    + len (encode_varint (len payload)) + len payload
                    = len pre + len (encode_tag n 2
                                       ++ encode_varint (len payload)
                                       ++ payload))
      by (len_simpl; lia).
    rewrite Hposn.
    field_cases n.
    + destruct (parse_distance_measurement_returns payload)
        as [[[sid dist] has] Edm].
      rewrite Edm. state_eq; field_result.
    + state_eq; field_result.
    + state_eq; field_result.
    + state_eq; field_result.
    + state_eq; field_result.
    + destruct et as [name|]; state_eq; field_result.
  - destruct Hok as [Hn Hb].
    destruct (decode_tag pre (b ++ post) n 5 Hn ltac:(lia))
      as (tag & Htag & Hnum & Hwire & Hpos).
    assert (Hguard : (len pre <? len (pre ++ encode_tag n 5 ++ b ++ post))
                     = true)
      by (apply Z.ltb_lt; len_simpl; lia).
    rewrite Hguard, Htag. rewrite Z.geb_leb.
    assert (Hdead : (len (pre ++ encode_tag n 5 ++ b ++ post) <=? len pre)
                    = false)
      by (apply Z.leb_gt; apply Z.ltb_lt; exact Hguard).
    rewrite Hdead. cbn beta iota. rewrite Hnum, Hwire.
    change (5 =? 2) with false. change (5 =? 0) with false.
    change (5 =? 1) with false. change (5 =? 5) with true. cbn beta iota.
    split; [|reflexivity]. state_eq; [len_simpl; lia | field_result | field_result].
Qed.

Lemma ble_pass_end (data : bytes) (et : option string)
    (det : option Ble.details) :
  Ble.parse_event_body data (len data, et, det) = Some (Done (et, det)).
Proof.
  unfold Ble.parse_event_body. rewrite Z.ltb_irrefl. reflexivity.
Qed.

Lemma ble_loop_fields (fields : list wire_field) :
  forall pre et det fuel,
    Forall field_ok fields ->
    (List.length fields < fuel)%nat ->
    while_loop (Ble.parse_event_body (pre ++ encode_message fields)) fuel
      (len pre, et, det)
    = Some (fold_left next_event_type (map field_tag fields) et,
            fold_left ble_details_after fields det)
    /\ flat_map (fun st : Ble.event_state =>
                   tag_at (pre ++ encode_message fields) (fst (fst st)))
         (loop_states (Ble.parse_event_body (pre ++ encode_message fields))
            fuel (len pre, et, det))
       = map field_tag fields.
Proof.
  induction fields as [|f fields IH]; intros pre et det fuel Hok Hfuel.
  - destruct fuel as [|fuel]; [cbn in Hfuel; lia|].
    unfold encode_message. cbn [map List.concat fold_left].
    rewrite app_nil_r. cbn [while_loop loop_states].
    rewrite ble_pass_end. cbn [flat_map fst]. rewrite tag_at_end by lia.
    split; reflexivity.
  - destruct fuel as [|fuel]; [cbn in Hfuel; lia|].
    inversion Hok as [|f' fields' Hf Hrest]; subst.
    assert (Hmsg : encode_message (f :: fields)
                   = encode_field f ++ encode_message fields) by reflexivity.
    rewrite Hmsg. cbn [while_loop loop_states flat_map fold_left map].
    destruct (ble_pass_field pre (encode_message fields) f et det Hf)
      as [Hpass Htag].
    rewrite Hpass. cbn [fst]. rewrite Htag.
    specialize (IH (pre ++ encode_field f) (next_event_type et (field_tag f))
                  (ble_details_after det f) fuel Hrest
                  ltac:(cbn [List.length] in Hfuel; lia)).
    rewrite <- app_assoc, len_app in IH. destruct IH as [IHrun IHtags].
    rewrite IHrun, IHtags. split; reflexivity.
Qed.

Lemma next_event_type_not_truncated (et : option string) (t : Z * Z) :
  is_type et "TRUNCATED" = false ->
  is_type (next_event_type et t) "TRUNCATED" = false.
Proof.
  intros Het. unfold next_event_type, event_name.
  destruct (snd t =? 2); [|exact Het].
  destruct (recognized (fst t)).
  - destruct (fst t =? 10); [reflexivity|].
    destruct (fst t =? 12); [reflexivity|].
    destruct (fst t =? 13); reflexivity.
  - destruct (fst t =? 6); [exact Het|]. destruct et; [exact Het | reflexivity].
Qed.

Lemma fold_next_event_type_not_truncated (tags : list (Z * Z)) :
  forall et,
    is_type et "TRUNCATED" = false ->
    is_type (fold_left next_event_type tags et) "TRUNCATED" = false.
Proof.
  induction tags as [|t tags IH]; intros et Het; [exact Het|].
  cbn [fold_left]. apply IH. apply next_event_type_not_truncated. exact Het.
Qed.

(** Both [parse_event]s on every well-formed frame: the frame is read
    field by field, each field whole; the event type is the one the fields
    give in turn (a recognized length-delimited field sets it, field 6 and
    the fields of other wire types leave it, an unknown length-delimited
    field names it while there is none), the details are those of the last
    field 10 or 14; read_ble.py never reports such a frame as truncated,
    and read_esp.py returns the same, without [dm_bytes]. *)
Theorem well_formed_frame_decoded (fields : list wire_field) :
  Forall field_ok fields ->
  Ble.parse_event (encode_message fields)
  = Some (fold_left next_event_type (map field_tag fields) None,
          fold_left ble_details_after fields None)
  /\ Esp.parse_event (encode_message fields)
     = Some (fold_left next_event_type (map field_tag fields) None,
             esp_details_of (fold_left ble_details_after fields None))
  /\ ble_fields_read (encode_message fields) = map field_tag fields
  /\ fold_left next_event_type (map field_tag fields) None
     <> Some "TRUNCATED"%string.
Proof.
  intros Hok.
  pose proof (ble_loop_fields fields [] None None
                (S (List.length (encode_message fields))) Hok) as H.
  cbn [app] in H. change (len []) with 0 in H.
  destruct H as [Hrun Htags];
    [pose proof (encode_message_length fields Hok); lia|].
  assert (Hnot : fold_left next_event_type (map field_tag fields) None
                 <> Some "TRUNCATED"%string).
  { intros Habs.
    pose proof (fold_next_event_type_not_truncated (map field_tag fields) None
                  eq_refl) as Hno.
    rewrite Habs in Hno. discriminate. }
  split; [exact Hrun|]. split; [|split; [exact Htags | exact Hnot]].
  unfold Esp.parse_event.
  exact (ble_esp_loop _ _ 0 None None _ _ Hrun Hnot).
Qed.

Lemma well_formed_frame_decoded_witness :
  Ble.parse_event
    (encode_message [VarintField 3 5; LenField 6 [x01]; LenField 12 []])
  = Some (Some "geolocation"%string, None).
Proof.
  assert (Hok : Forall field_ok
                  [VarintField 3 5; LenField 6 [x01]; LenField 12 []])
    by (repeat constructor; cbn; lia).
  exact (proj1 (well_formed_frame_decoded _ Hok)).
Defined.

Lemma fold_next_event_type_kept (fields : list wire_field) (name : string) :
  forallb keeps_event fields = true ->
  fold_left next_event_type (map field_tag fields) (Some name) = Some name.
Proof.
  induction fields as [|f fields IH]; intros Hkeep; [reflexivity|].
  cbn [forallb] in Hkeep. apply andb_prop in Hkeep. destruct Hkeep as [Hf Hrest].
  cbn [map fold_left]. rewrite <- (IH Hrest) at 2. f_equal.
  unfold next_event_type.
  destruct f as [n v|n b|n payload|n b]; cbn [field_tag snd fst keeps_event] in *;
    try reflexivity.
  change (2 =? 2) with true. cbn iota.
  apply negb_true_iff in Hf. rewrite Hf. destruct (n =? 6); reflexivity.
Qed.

Lemma fold_details_kept (fields : list wire_field)
    (det : option Ble.details) :
  forallb keeps_event fields = true ->
  fold_left ble_details_after fields det = det.
Proof.
  induction fields as [|f fields IH]; intros Hkeep; [reflexivity|].
  cbn [forallb] in Hkeep. apply andb_prop in Hkeep. destruct Hkeep as [Hf Hrest].
  cbn [fold_left]. rewrite <- (IH Hrest) at 2. f_equal.
  destruct f as [n v|n b|n payload|n b]; cbn [ble_details_after keeps_event] in *;
    try reflexivity.
  apply negb_true_iff in Hf. unfold recognized in Hf.
  repeat (apply orb_false_elim in Hf; destruct Hf as [Hf ?]).
  rewrite Hf. replace (n =? 14) with false by auto. reflexivity.
Qed.

(** A distance field is decoded wherever it stands in a well-formed frame,
    as long as no recognized field comes after it: whatever fields precede
    it, and whatever unrecognized fields, of any wire type, follow, both
    readers return the distance event with the record of that field. *)
Theorem distance_field_found (before after : list wire_field)
    (payload : bytes) (sid : Z) (dist : py_float) (has : bool) :
  Forall field_ok (before ++ LenField 10 payload :: after) ->
  forallb keeps_event after = true ->
  parse_distance_measurement payload = Some (sid, dist, has) ->
  Ble.parse_event (encode_message (before ++ LenField 10 payload :: after))
  = Some (Some "distance"%string,
          Some (Ble.DistanceDetails sid dist has (hex payload) (len payload)))
  /\ Esp.parse_event (encode_message (before ++ LenField 10 payload :: after))
     = Some (Some "distance"%string,
             Some (Esp.DistanceDetails sid dist has (hex payload))).
Proof.
  intros Hok Hkeep Hdm.
  pose proof (ble_loop_fields (before ++ LenField 10 payload :: after) []
                None None
                (S (List.length (encode_message
                                   (before ++ LenField 10 payload :: after))))
                Hok) as H.
  cbn [app] in H. change (len []) with 0 in H.
  destruct H as [Hrun _];
    [pose proof (encode_message_length _ Hok); lia|].
  rewrite map_app, !fold_left_app in Hrun. cbn [map fold_left] in Hrun.
  change (next_event_type
            (fold_left next_event_type (map field_tag before) None)
            (field_tag (LenField 10 payload)))
    with (Some "distance"%string) in Hrun.
  rewrite (fold_next_event_type_kept after _ Hkeep) in Hrun.
  assert (Hdet : ble_details_after (fold_left ble_details_after before None)
                   (LenField 10 payload)
                 = Some (Ble.DistanceDetails sid dist has (hex payload)
                           (len payload))).
  { cbn [ble_details_after]. change (10 =? 10) with true. cbn iota.
    rewrite Hdm. reflexivity. }
  rewrite Hdet, (fold_details_kept after _ Hkeep) in Hrun.
  split; [exact Hrun|].
  unfold Esp.parse_event.
  exact (ble_esp_loop _ _ 0 None None _ _ Hrun ltac:(discriminate)).
Qed.

Lemma distance_field_found_witness :
  Ble.parse_event
    (encode_message
       ([LenField 12 []; VarintField 3 5]
        ++ LenField 10 [x08; x07] :: [LenField 6 [x01]; Fixed32Field 9 [x01; x02; x03; x04]]))
  = Some (Some "distance"%string,
          Some (Ble.DistanceDetails 7 float_zero false (hex [x08; x07])
                  (len [x08; x07]))).
Proof.
  assert (Hok : Forall field_ok
                  ([LenField 12 []; VarintField 3 5]
                   ++ LenField 10 [x08; x07]
                      :: [LenField 6 [x01];
                          Fixed32Field 9 [x01; x02; x03; x04]]))
    by (repeat constructor; cbn; lia).
  exact (proj1 (distance_field_found _ _ _ 7 float_zero false Hok eq_refl
                  eq_refl)).
Defined.

(** ** Frames without a recognized field *)

Lemma fold_next_event_type_fallback (tags : list (Z * Z)) :
  forall et,
    recognized_fields tags = [] ->
    fold_left next_event_type tags et
    = match et with
      | Some _ => et
      | None => fallback_label tags
      end.
Proof.
  induction tags as [|t tags IH]; intros et Hrec.
  - destruct et; reflexivity.
  - unfold recognized_fields in Hrec. cbn [filter] in Hrec.
    cbn [fold_left]. unfold fallback_label, unknown_fields. cbn [filter].
    unfold next_event_type at 2.
    destruct (snd t =? 2) eqn:Ew; cbn [andb] in Hrec |- *.
    + destruct (recognized (fst t)) eqn:Er; [discriminate|].
      cbn [negb andb]. rewrite (IH _ Hrec).
      destruct (fst t =? 6); cbn [negb]; [reflexivity|].
      destruct et; reflexivity.
    + rewrite (IH _ Hrec). reflexivity.
Qed.

(** When a frame holds no recognized field, the event type is the label
    [field_N] of the first unknown length-delimited field read (the time
    field 6 and the fields of other wire types give none), or [None] when
    there is no such field: among unknown fields the first one wins.
    read_ble.py returns TRUNCATED instead when, and only when, it comes to
    a length-delimited field that is cut short. *)
Theorem first_unknown_field_labels (data : bytes) :
  (recognized_fields (ble_fields_read data) = [] ->
   exists det,
     Ble.parse_event data
     = Some (if ble_cut_short data then Some "TRUNCATED"%string
             else fallback_label (ble_fields_read data),
             det))
  /\ (recognized_fields (esp_fields_read data) = [] ->
      exists det,
        Esp.parse_event data
        = Some (fallback_label (esp_fields_read data), det)).
Proof.
  split; intros Hrec.
  - destruct (ble_parse_event_step data) as (et & det & Hrun & Hcase).
    exists det. rewrite Hrun. f_equal. f_equal.
    destruct (ble_cut_short data); [exact (proj1 Hcase)|].
    rewrite (proj1 Hcase). apply (fold_next_event_type_fallback _ None Hrec).
  - destruct (esp_parse_event_returns data) as [[et det] Hrun].
    exists det. rewrite Hrun. f_equal. f_equal.
    rewrite (esp_loop_event_type data _ 0 None None et det (Z.le_refl 0) Hrun).
    apply (fold_next_event_type_fallback _ None Hrec).
Qed.

Lemma first_unknown_field_labels_witness :
  (exists det,
     Ble.parse_event [x32; x00; xfa; x01; x00; x3a; x00]
     = Some (Some "field_31"%string, det))
  /\ (exists det,
        Ble.parse_event [x32; x00; xfa; x01; x00; x3a; x05]
        = Some (Some "TRUNCATED"%string, det))
  /\ (exists det,
        Esp.parse_event [x32; x00; xfa; x01; x00; x3a; x05]
        = Some (Some "field_31"%string, det)).
Proof.
  split; [|split].
  - apply (proj1 (first_unknown_field_labels
                    [x32; x00; xfa; x01; x00; x3a; x00])).
    reflexivity.
  - apply (proj1 (first_unknown_field_labels
                    [x32; x00; xfa; x01; x00; x3a; x05])).
    reflexivity.
  - apply (proj2 (first_unknown_field_labels
                    [x32; x00; xfa; x01; x00; x3a; x05])).
    reflexivity.
Defined.

Example first_unknown_field_31 :
  Ble.parse_event [x32; x00; xfa; x01; x00; x3a; x00]
  = Some (Some "field_31"%string, None).
Proof. reflexivity. Qed.

Lemma cobs_decode_rejects_short_block_witness :
  Esp.cobs_decode [x02; x11; x05; x22] = Some None.
Proof.
  apply (proj2 (cobs_decode_rejects_short_block [x02; x11; x05; x22])).
  exists 2, [x11; x00]. split; [right; left; reflexivity|].
  split; [reflexivity|]. split; [vm_compute; discriminate | reflexivity].
Defined.

Lemma cobs_decode_never_expands_witness :
  exists r,
    Esp.cobs_decode [x02; x11; x01] = Some r
    /\ forall res, r = Some res ->
         len res <= len [x02; x11; x01]
         /\ ([x02; x11; x01] <> [] -> len res < len [x02; x11; x01]).
Proof.
  exact (cobs_decode_never_expands [x02; x11; x01]).
Defined.

(** ** One event for every frame *)

Lemma fallback_label_unknown (tags : list (Z * Z)) :
  is_known (fallback_label tags) = false.
Proof.
  unfold fallback_label. destruct (unknown_fields tags); reflexivity.
Qed.

(** C2, as the code has it: for every input byte string, [parse_event] of
    read_ble.py and of read_esp.py returns, and returns one pair
    [(event_type, details)], for which the reader counts exactly one
    event. When no recognized field is read in the frame, and so for the
    empty frame, the pair is the unknown event: [None], or the label of
    the first unknown length-delimited field, with no details; the reader
    reports it through its last branch, the one for unknown events. The
    exception is read_ble.py on a frame in which it comes to a
    length-delimited field that is cut short: it returns TRUNCATED, with
    the truncation report, and in no other case. *)
Theorem parse_event_exactly_one_event (data : bytes) :
  (exists et det,
     Ble.parse_event data = Some (et, det)
     /\ (et = None -> det = None)
     /\ (data = [] -> et = None)
     /\ (forall st, exists st' out,
           Ble.handle_notification st data = Some (st', out)
           /\ Ble.count st' = Ble.count st + 1
           /\ (is_known et = false ->
               out = [Ble.PrintOther (Ble.count st + 1) et (len data)
                        (hex data)]))
     /\ (et = Some "TRUNCATED"%string <-> ble_cut_short data = true)
     /\ (recognized_fields (ble_fields_read data) = [] ->
         if ble_cut_short data
         then et = Some "TRUNCATED"%string
              /\ exists field expected available,
                   det = Some (Ble.TruncatedDetails field expected available
                                 (hex data))
         else et = fallback_label (ble_fields_read data) /\ det = None
              /\ is_known et = false))
  /\ (exists et det,
        Esp.parse_event data = Some (et, det)
        /\ (et = None -> det = None)
        /\ (data = [] -> et = None)
        /\ (forall frame rest c z k pr,
              Esp.has_zero frame = false -> frame <> [] ->
              Esp.cobs_decode frame = Some (Some data) ->
              exists z' k' l,
                Esp.frame_loop_body
                  (Esp.mk_reader (frame ++ x00 :: rest) c z k pr)
                = Some (Next (Esp.mk_reader rest (c + 1) z' k' (pr ++ [l])))
                /\ (is_known et = false ->
                    l = Esp.PrintOther (c + 1) et (len data)))
        /\ (recognized_fields (esp_fields_read data) = [] ->
            et = fallback_label (esp_fields_read data) /\ det = None
            /\ is_known et = false)).
Proof.
  split.
  - destruct (ble_parse_event_fit data) as (et & det & Hparse & Hshape).
    destruct (ble_parse_event_step data) as (et1 & det1 & Hparse1 & Hstep).
    rewrite Hparse in Hparse1. injection Hparse1 as <- <-.
    exists et, det. split; [exact Hparse|].
    split; [|split; [|split; [|split]]].
    + destruct Hshape as [(_ & _ & Hnone)|(-> & _)];
        [exact Hnone | discriminate].
    + intros ->. vm_compute in Hparse. congruence.
    + intros st.
      destruct (handle_notification_returns st data)
        as (et1 & det1 & st' & out & Hparse1 & Hcall & Hcount & Hother).
      rewrite Hparse in Hparse1. injection Hparse1 as <- <-.
      exists st', out. split; [exact Hcall|]. split; [exact Hcount|].
      intros Hk. apply is_known_false in Hk.
      destruct Hk as (H1 & H2 & H3 & H4 & H5). auto.
    + destruct (ble_cut_short data).
      * split; [reflexivity | intros _; exact (proj1 Hstep)].
      * split; [|discriminate]. intros Htr. exfalso.
        pose proof (fold_next_event_type_not_truncated (ble_fields_read data)
                      None eq_refl) as Hno.
        rewrite <- (proj1 Hstep), Htr in Hno. discriminate.
    + intros Hrec. destruct (ble_cut_short data); [exact Hstep|].
      destruct Hstep as [Het Hdet].
      rewrite (fold_next_event_type_fallback _ None Hrec) in Het.
      split; [exact Het|]. split; [exact (Hdet Hrec)|].
      rewrite Het. apply fallback_label_unknown.
  - destruct (esp_parse_event_fit data) as (et & det & Hparse & Hfit).
    exists et, det. split; [exact Hparse|].
    split; [|split; [|split]].
    + exact (proj2 Hfit).
    + intros ->. vm_compute in Hparse. congruence.
    + intros frame rest c z k pr Hz Hne Hcobs.
      destruct (decoded_frame_pass frame rest data c z k pr Hz Hne Hcobs)
        as (et1 & det1 & z' & k' & l & Hparse1 & Hpass & Hother).
      rewrite Hparse in Hparse1. injection Hparse1 as <- <-.
      exists z', k', l. split; [exact Hpass|].
      intros Hk. apply is_known_false in Hk.
      destruct Hk as (H1 & H2 & H3 & H4 & H5).
      destruct (Hother H2 H3 H4 H5) as (_ & _ & Hl). exact Hl.
    + intros Hrec.
      pose proof (esp_loop_event_type data _ 0 None None et det (Z.le_refl 0)
                    Hparse) as Het.
      pose proof (esp_loop_keeps_details data _ 0 None None et det
                    (Z.le_refl 0) Hparse Hrec) as Hdet.
      fold (esp_fields_read data) in Het.
      rewrite (fold_next_event_type_fallback _ None Hrec) in Het.
      split; [exact Het|]. split; [exact Hdet|].
      rewrite Het. apply fallback_label_unknown.
Qed.

Lemma parse_event_exactly_one_event_witness :
  (exists et det,
     Ble.parse_event [x08; x01; x3a; x00] = Some (et, det)
     /\ et = Some "field_7"%string /\ det = None /\ is_known et = false)
  /\ (exists et det,
        Esp.parse_event [x08; x01; x3a; x00] = Some (et, det)
        /\ et = Some "field_7"%string /\ det = None /\ is_known et = false).
Proof.
  destruct (parse_event_exactly_one_event [x08; x01; x3a; x00])
    as [(et & det & Hrun & _ & _ & _ & _ & Hble)
        (et' & det' & Hrun' & _ & _ & _ & Hesp)].
  split.
  - exists et, det. split; [exact Hrun | exact (Hble eq_refl)].
  - exists et', det'. split; [exact Hrun' | exact (Hesp eq_refl)].
Defined.

(** A frame in which no field is recognized and that read_ble.py does not
    return as an unknown event: 3a 05 is the tag of field 7 as a
    length-delimited field and the length 5, with nothing behind. The
    reader reports the frame as truncated; read_esp.py returns the unknown
    event [field_7] for it. *)
Lemma unrecognized_frame_truncated :
  recognized_fields (ble_fields_read [x3a; x05]) = []
  /\ Ble.parse_event [x3a; x05]
     = Some (Some "TRUNCATED"%string,
             Some (Ble.TruncatedDetails 7 5 0 "3a05"))
  /\ is_known (Some "TRUNCATED"%string) = true
  /\ Ble.handle_notification Ble.stats_init [x3a; x05]
     = Some (Ble.mk_stats 1 0 0 0 1 0 0 0 0,
             [Ble.PrintTruncated 1 7 5 0 "3a05"])
  /\ Esp.parse_event [x3a; x05] = Some (Some "field_7"%string, None).
Proof.
  repeat split.
Qed.
